(** * Library management backend: circulation, catalog and reports

    A shallow embedding of [backend/server.js] (the variant with CORS
    support and the [sendError] helper).  The three MongoDB collections the
    handlers touch ([Books], [Members], [BorrowLogs]) are lists of documents
    in natural (insertion) order; every handler is a function from the
    request, the clock reading [new Date()] and the database to a response
    and a new database.

    Conventions of the embedding:
    - a JSON value read from the request body is a [JsVal]; [JUndef] stands
      for a key that is absent from the body;
    - a number is an integer-valued double: [JNum z] is the number with the
      integer value [z] (the double nearest to [z]), [JInf] an infinity;
      numbers with a fraction are outside [JsVal].  A [Date] is its
      [getTime()] value in milliseconds;
    - a string is the sequence of bytes of its UTF-8 encoding;
    - an [ObjectId] is an opaque identifier; its [toString()] rendering is
      injective, so identifiers are compared by value.  A malformed
      identifier string makes [new ObjectId(..)] throw before any store is
      read; the handlers below start after that point. *)

From Stdlib Require Import ZArith List String Ascii Bool Lia Permutation Sorted.
Import ListNotations.
Local Open Scope string_scope.
Local Open Scope list_scope.
Local Open Scope Z_scope.

(** ** JavaScript values and coercions *)

Module Js.

Inductive JsVal : Type :=
| JUndef
| JNull
| JBool (b : bool)
| JNum (z : Z)
| JStr (s : string)
| JInf (negative : bool).

Definition JsVal_eqb (a b : JsVal) : bool :=
  match a, b with
  | JUndef, JUndef => true
  | JNull, JNull => true
  | JBool x, JBool y => Bool.eqb x y
  | JNum x, JNum y => Z.eqb x y
  | JStr x, JStr y => String.eqb x y
  | JInf x, JInf y => Bool.eqb x y
  | _, _ => false
  end.

(** ToBoolean: what [!v] and [v || w] test. *)
Definition truthy (v : JsVal) : bool :=
  match v with
  | JUndef | JNull => false
  | JBool b => b
  | JNum z => negb (z =? 0)
  | JStr s => negb (String.eqb s "")
  | JInf _ => true
  end.

(** [a || b] *)
Definition js_or (a b : JsVal) : JsVal := if truthy a then a else b.

(** *** Numbers

    The result of an arithmetic operation or of [parseInt]: not a number, a
    finite integer-valued double, or an infinity. *)
Inductive JsNumber : Type :=
| NaN
| Fin (z : Z)
| Inf (negative : bool).

(** The double nearest to the integer [z], ties to the even significand;
    integers up to [2^53] in magnitude are doubles, and what rounds to
    [2^1024] or more is an infinity. *)
Definition to_double (z : Z) : JsNumber :=
  let a := Z.abs z in
  if a <=? 2 ^ 53 then Fin z
  else
    let e := Z.log2 a - 52 in
    let q := a / 2 ^ e in
    let r := a mod 2 ^ e in
    let half := 2 ^ (e - 1) in
    let q' := if r <? half then q
              else if half <? r then q + 1
              else if Z.even q then q else q + 1 in
    let m := q' * 2 ^ e in
    if 2 ^ 1024 <=? m then Inf (z <? 0) else Fin (Z.sgn z * m).

(** [a * b] and [a + b] on numbers. *)
Definition fmul (a b : JsNumber) : JsNumber :=
  match a, b with
  | NaN, _ | _, NaN => NaN
  | Fin x, Fin y => to_double (x * y)
  | Fin x, Inf n => if x =? 0 then NaN else Inf (xorb (x <? 0) n)
  | Inf n, Fin y => if y =? 0 then NaN else Inf (xorb n (y <? 0))
  | Inf n, Inf m => Inf (xorb n m)
  end.

Definition fadd (a b : JsNumber) : JsNumber :=
  match a, b with
  | NaN, _ | _, NaN => NaN
  | Fin x, Fin y => to_double (x + y)
  | Fin _, Inf n => Inf n
  | Inf n, Fin _ => Inf n
  | Inf n, Inf m => if Bool.eqb n m then Inf n else NaN
  end.

(** [TimeClip]: the time value of [new Date(t)]; [None] is an invalid date. *)
Definition TimeClip (t : JsNumber) : option Z :=
  match t with
  | Fin z => if Z.abs z <=? 8640000000000000 then Some z else None
  | _ => None
  end.

(** *** Strings

    A JavaScript string is represented by the bytes of its UTF-8 encoding. *)

(** Decimal rendering of a non-negative integer, most significant digit
    first; [fuel] bounds the number of digits. *)
Definition digit_char (d : Z) : ascii := ascii_of_N (Z.to_N (48 + d)).

Fixpoint digits_fuel (fuel : nat) (n : Z) (rest : string) : string :=
  match fuel with
  | O => rest
  | S f =>
      let rest' := String (digit_char (n mod 10)) rest in
      if n <? 10 then rest' else digits_fuel f (n / 10) rest'
  end.

Definition digits (n : Z) : string :=
  digits_fuel (S (Z.to_nat (Z.log2 n))) n "".

(** Number::toString for a double [x] above [2^53]: the fewest significant
    digits [s] (there are [k] of them) and the exponent [n] such that
    [s * 10^(n-k)] rounds to [x], the nearest to [x] when there are several.
    They are written with [n - k] zeros after them when [n <= 21], and as
    [d.ddde+N] otherwise. *)
Definition rounds_to (v x : Z) : bool :=
  match to_double v with
  | Fin y => y =? x
  | _ => false
  end.

Definition exp_candidates (x k : Z) : list (Z * Z) :=
  let nd := Z.of_nat (String.length (digits x)) in
  flat_map
    (fun n =>
       let e := n - k in
       if e <? 0 then []
       else filter (fun sn => (10 ^ (k - 1) <=? fst sn) && (fst sn <? 10 ^ k)
                              && rounds_to (fst sn * 10 ^ e) x)
              [(x / 10 ^ e, n); (x / 10 ^ e + 1, n)])
    [nd - 1; nd; nd + 1].

Definition closer (x k : Z) (a b : Z * Z) : Z * Z :=
  if Z.abs (fst a * 10 ^ (snd a - k) - x) <=? Z.abs (fst b * 10 ^ (snd b - k) - x)
  then a else b.

Fixpoint shortest (fuel : nat) (k x : Z) : option (Z * (Z * Z)) :=
  match fuel with
  | O => None
  | S f =>
      match exp_candidates x k with
      | c :: cs => Some (k, fold_left (closer x k) cs c)
      | [] => shortest f (k + 1) x
      end
  end.

Definition zeros (n : Z) : string :=
  String.concat EmptyString (repeat "0"%string (Z.to_nat n)).

Definition shortest_form (x : Z) : string :=
  match shortest 17 1 x with
  | Some (k, (s, n)) =>
      if n <=? 21 then (digits s ++ zeros (n - k))%string
      else
        match digits s with
        | String c rest =>
            let fraction := if k =? 1 then EmptyString else String "." rest in
            (String c fraction ++ "e+" ++ digits (n - 1))%string
        | EmptyString => digits x
        end
  | None => digits x
  end.

(** Number::toString of a non-negative double.  An integer up to [2^53] is
    its own shortest decimal and has at most 16 digits. *)
Definition number_string (x : Z) : string :=
  if x <=? 2 ^ 53 then digits x else shortest_form x.

(** ToString; a number is first the double it denotes. *)
Definition ToString (v : JsVal) : string :=
  match v with
  | JUndef => "undefined"
  | JNull => "null"
  | JBool true => "true"
  | JBool false => "false"
  | JNum z =>
      match to_double z with
      | Fin x => if x <? 0 then String "-" (number_string (- x)) else number_string x
      | Inf true => "-Infinity"
      | Inf false => "Infinity"
      | NaN => "NaN"
      end
  | JStr s => s
  | JInf true => "-Infinity"
  | JInf false => "Infinity"
  end.

(** StrWhiteSpaceChar, on UTF-8 bytes: TAB, LF, VT, FF, CR, SP; U+00A0;
    U+1680, U+2000..U+200A, U+2028, U+2029, U+202F, U+205F, U+3000, U+FEFF. *)
Definition is_space (c : ascii) : bool :=
  let n := N_of_ascii c in
  ((9 <=? n) && (n <=? 13))%N || (n =? 32)%N.

Definition is_space2 (c1 c2 : ascii) : bool :=
  ((N_of_ascii c1 =? 194) && (N_of_ascii c2 =? 160))%N.

Definition is_space3 (c1 c2 c3 : ascii) : bool :=
  let a := N_of_ascii c1 in
  let b := N_of_ascii c2 in
  let c := N_of_ascii c3 in
  ((a =? 225) && (b =? 154) && (c =? 128)
   || (a =? 226) && (b =? 128)
      && (((128 <=? c) && (c <=? 138)) || (c =? 168) || (c =? 169) || (c =? 175))
   || (a =? 226) && (b =? 129) && (c =? 159)
   || (a =? 227) && (b =? 128) && (c =? 128)
   || (a =? 239) && (b =? 187) && (c =? 191))%N.

Fixpoint trim_start (s : string) : string :=
  match s with
  | String c1 s1 =>
      if is_space c1 then trim_start s1
      else
        match s1 with
        | String c2 s2 =>
            if is_space2 c1 c2 then trim_start s2
            else
              match s2 with
              | String c3 s3 => if is_space3 c1 c2 c3 then trim_start s3 else s
              | EmptyString => s
              end
        | EmptyString => s
        end
  | EmptyString => s
  end.

(** Value of [c] as a digit in radix [R] (10 or 16), if it is one. *)
Definition digit_val (R : Z) (c : ascii) : option Z :=
  let n := Z.of_N (N_of_ascii c) in
  let v :=
    if (48 <=? n) && (n <=? 57) then Some (n - 48)
    else if (97 <=? n) && (n <=? 122) then Some (n - 87)
    else if (65 <=? n) && (n <=? 90) then Some (n - 55)
    else None in
  match v with
  | Some d => if d <? R then Some d else None
  | None => None
  end.

(** The longest prefix of radix-[R] digits, accumulated left to right. *)
Fixpoint parse_digits (R : Z) (s : string) (acc : Z) : Z :=
  match s with
  | String c s' =>
      match digit_val R c with
      | Some d => parse_digits R s' (acc * R + d)
      | None => acc
      end
  | EmptyString => acc
  end.

Definition strip_sign (s : string) : Z * string :=
  match s with
  | String "-" s' => (-1, s')
  | String "+" s' => (1, s')
  | _ => (1, s)
  end.

Definition strip_hex_prefix (s : string) : Z * string :=
  match s with
  | String "0" (String "x" s') => (16, s')
  | String "0" (String "X" s') => (16, s')
  | _ => (10, s)
  end.

(** [parseInt(string)] with no radix argument: the digits are read as an
    integer, which is then the nearest double. *)
Definition parseInt_string (s : string) : JsNumber :=
  let (sign, s1) := strip_sign (trim_start s) in
  let (R, s2) := strip_hex_prefix s1 in
  match s2 with
  | String c _ =>
      match digit_val R c with
      | Some _ => to_double (sign * parse_digits R s2 0)
      | None => NaN
      end
  | EmptyString => NaN
  end.

(** [parseInt(v)]: the argument is first converted with ToString. *)
Definition parseInt (v : JsVal) : JsNumber := parseInt_string (ToString v).

(** [parseInt(v) || null] *)
Definition parseInt_or_null (v : JsVal) : JsVal :=
  match parseInt v with
  | NaN => JNull
  | Fin z => if z =? 0 then JNull else JNum z
  | Inf n => JInf n
  end.

End Js.
Import Js.

(** ** Documents and collections *)

Definition ObjectId := N.

Inductive Status : Type := Available | Borrowed.

Definition Status_eqb (a b : Status) : bool :=
  match a, b with
  | Available, Available | Borrowed, Borrowed => true
  | _, _ => false
  end.

(** A document of the [Books] collection, as [POST /books] builds it. *)
Record Book : Type := mkBook {
  book_id : ObjectId;
  title : JsVal;
  author : JsVal;
  genre : JsVal;
  year : JsVal;
  isbn : JsVal;
  cover : JsVal;
  status : Status;
  borrowedBy : option ObjectId;
  dueDate : option Z;
  borrowCount : Z;
  createdAt : Z;
  updatedAt : Z
}.

(** An element of [member.borrowedBooks]. *)
Record BorrowEntry : Type := mkEntry {
  e_bookId : ObjectId;
  e_borrowedOn : Z;
  e_dueDate : Z
}.

(** A document of the [Members] collection. *)
Record Member : Type := mkMember {
  member_id : ObjectId;
  name : JsVal;
  email : JsVal;
  role : JsVal;
  borrowedBooks : list BorrowEntry;
  m_createdAt : Z;
  m_updatedAt : option Z
}.

(** A document of the [BorrowLogs] collection. *)
Record LoanRecord : Type := mkLoan {
  l_bookId : ObjectId;
  l_memberId : ObjectId;
  l_borrowedOn : Z;
  l_dueDate : Z;
  returnedOn : option Z;
  fine : Z
}.

(** The database: three collections in natural order, and the next
    identifier [insertOne] hands out. *)
Record DB : Type := mkDB {
  Books : list Book;
  Members : list Member;
  BorrowLogs : list LoanRecord;
  next_id : ObjectId
}.

Definition empty_db : DB := mkDB [] [] [] 1%N.

(** ** Collection operations of the driver *)

Module Mongo.

Section Collection.
Context {A : Type}.

(** [findOne(filter)]: the first document in natural order that matches. *)
Definition findOne (p : A -> bool) (l : list A) : option A := find p l.

(** [updateOne(filter, update)]: the first match is rewritten; the result
    carries [matchedCount]. *)
Fixpoint updateOne (p : A -> bool) (f : A -> A) (l : list A) : nat * list A :=
  match l with
  | [] => (O, [])
  | x :: l' =>
      if p x then (1%nat, f x :: l')
      else let (n, r) := updateOne p f l' in (n, x :: r)
  end.

(** [deleteOne(filter)] *)
Fixpoint deleteOne (p : A -> bool) (l : list A) : list A :=
  match l with
  | [] => []
  | x :: l' => if p x then l' else x :: deleteOne p l'
  end.
End Collection.

(** [$pull: { borrowedBooks: { bookId } }]: every matching element goes. *)
Definition pull (bId : ObjectId) (l : list BorrowEntry) : list BorrowEntry :=
  filter (fun e => negb (N.eqb (e_bookId e) bId)) l.

End Mongo.
Import Mongo.

Definition by_book_id (i : ObjectId) (b : Book) : bool := N.eqb (book_id b) i.
Definition by_member_id (i : ObjectId) (m : Member) : bool := N.eqb (member_id m) i.

Definition findBook (i : ObjectId) (db : DB) : option Book :=
  findOne (by_book_id i) (Books db).
Definition findMember (i : ObjectId) (db : DB) : option Member :=
  findOne (by_member_id i) (Members db).

(** ** Responses *)

Inductive Body : Type :=
| BMsg (ok : bool) (msg : string)
| BId (id : ObjectId)
| BDueDate (d : Z)
| BFine (f : Z)
| BText (text : string)
| BDueDateNull.

Record Response : Type := mkResponse { code : Z; body : Body }.

(** [sendError(res, status, message)] *)
Definition sendError (st : Z) (message : string) : Response :=
  mkResponse st (BMsg false message).

(** ** Request bodies *)

Record BookData : Type := mkBookData {
  d_title : JsVal;
  d_author : JsVal;
  d_genre : JsVal;
  d_year : JsVal;
  d_isbn : JsVal;
  d_cover : JsVal
}.

Record MemberData : Type := mkMemberData {
  d_name : JsVal;
  d_email : JsVal;
  d_role : JsVal
}.

(** ** The handlers of [backend/server.js] *)

Module Server.

Definition ok (st : Z) (message : string) : Response :=
  mkResponse st (BMsg true message).

(** [Books.insertOne] / [Members.insertOne] / [BorrowLogs.insertOne] *)
Definition insert_book (b : Book) (db : DB) : DB :=
  mkDB (Books db ++ [b]) (Members db) (BorrowLogs db) (N.succ (next_id db)).
Definition insert_member (m : Member) (db : DB) : DB :=
  mkDB (Books db) (Members db ++ [m]) (BorrowLogs db) (N.succ (next_id db)).
Definition insert_log (l : LoanRecord) (db : DB) : DB :=
  mkDB (Books db) (Members db) (BorrowLogs db ++ [l]) (next_id db).

Definition with_books (bs : list Book) (db : DB) : DB :=
  mkDB bs (Members db) (BorrowLogs db) (next_id db).
Definition with_members (ms : list Member) (db : DB) : DB :=
  mkDB (Books db) ms (BorrowLogs db) (next_id db).
Definition with_logs (ls : list LoanRecord) (db : DB) : DB :=
  mkDB (Books db) (Members db) ls (next_id db).

(** *** POST /books *)
Definition post_books (now : Z) (data : BookData) (db : DB) : Response * DB :=
  if negb (truthy (d_title data)) || negb (truthy (d_author data)) then
    (sendError 400 "Title and author are required", db)
  else
    let book :=
      {| book_id := next_id db;
         title := d_title data;
         author := d_author data;
         genre := js_or (d_genre data) (JStr "Unknown");
         year := parseInt_or_null (d_year data);
         isbn := js_or (d_isbn data) JNull;
         cover := js_or (d_cover data) (JStr "/uploads/default-book.jpg");
         status := Available;
         borrowedBy := None;
         dueDate := None;
         borrowCount := 0;
         createdAt := now;
         updatedAt := now |} in
    (mkResponse 201 (BId (next_id db)), insert_book book db).

(** *** PUT /books *)

(** The keys of the [update] object that come from the request body. *)
Inductive BookKey : Type := Ktitle | Kauthor | Kgenre | Kyear | Kisbn | Kcover.

(** [Object.keys(update).forEach(k => update[k] === undefined && delete update[k])] *)
Definition remove_undefined (u : list (BookKey * JsVal)) : list (BookKey * JsVal) :=
  filter (fun kv => negb (JsVal_eqb (snd kv) JUndef)) u.

Definition set_field (b : Book) (kv : BookKey * JsVal) : Book :=
  let v := snd kv in
  match fst kv with
  | Ktitle => mkBook (book_id b) v (author b) (genre b) (year b) (isbn b) (cover b)
                (status b) (borrowedBy b) (dueDate b) (borrowCount b) (createdAt b) (updatedAt b)
  | Kauthor => mkBook (book_id b) (title b) v (genre b) (year b) (isbn b) (cover b)
                (status b) (borrowedBy b) (dueDate b) (borrowCount b) (createdAt b) (updatedAt b)
  | Kgenre => mkBook (book_id b) (title b) (author b) v (year b) (isbn b) (cover b)
                (status b) (borrowedBy b) (dueDate b) (borrowCount b) (createdAt b) (updatedAt b)
  | Kyear => mkBook (book_id b) (title b) (author b) (genre b) v (isbn b) (cover b)
                (status b) (borrowedBy b) (dueDate b) (borrowCount b) (createdAt b) (updatedAt b)
  | Kisbn => mkBook (book_id b) (title b) (author b) (genre b) (year b) v (cover b)
                (status b) (borrowedBy b) (dueDate b) (borrowCount b) (createdAt b) (updatedAt b)
  | Kcover => mkBook (book_id b) (title b) (author b) (genre b) (year b) (isbn b) v
                (status b) (borrowedBy b) (dueDate b) (borrowCount b) (createdAt b) (updatedAt b)
  end.

Definition set_updatedAt (now : Z) (b : Book) : Book :=
  mkBook (book_id b) (title b) (author b) (genre b) (year b) (isbn b) (cover b)
    (status b) (borrowedBy b) (dueDate b) (borrowCount b) (createdAt b) now.

(** [{ $set: update }]; [updatedAt: new Date()] is never undefined, so it is
    always among the keys that are set. *)
Definition dollar_set (u : list (BookKey * JsVal)) (now : Z) (b : Book) : Book :=
  set_updatedAt now (fold_left set_field u b).

(** The [update] object before the undefined keys are removed. *)
Definition build_update (data : BookData) : list (BookKey * JsVal) :=
  [ (Ktitle, d_title data);
    (Kauthor, d_author data);
    (Kgenre, d_genre data);
    (Kyear, parseInt_or_null (d_year data));
    (Kisbn, js_or (d_isbn data) JNull) ]
  ++ (if truthy (d_cover data) then [(Kcover, d_cover data)] else []).

(** [id = None] is a body whose [id] is missing or falsy. *)
Definition put_books (now : Z) (id : option ObjectId) (data : BookData) (db : DB)
  : Response * DB :=
  match id with
  | None => (sendError 400 "Book ID is required", db)
  | Some _id =>
      let update := remove_undefined (build_update data) in
      let (matchedCount, books') :=
        updateOne (by_book_id _id) (dollar_set update now) (Books db) in
      if Nat.eqb matchedCount 0 then
        (sendError 404 "Book not found", with_books books' db)
      else
        (ok 200 "Book updated successfully", with_books books' db)
  end.

(** [book.cover && book.cover.startsWith(..)] can be evaluated: the cover is
    falsy, or it is a string.  On any other cover [startsWith] is not a
    function and the call throws. *)
Definition cover_testable (v : JsVal) : bool :=
  match v with
  | JStr _ => true
  | _ => negb (truthy v)
  end.

(** *** DELETE /books.  The removal of the cover file is outside the store
    and never fails the request; the cover test before it can, and the
    outer [catch] then answers 500 before [deleteOne] is reached. *)
Definition delete_books (id : option ObjectId) (db : DB) : Response * DB :=
  match id with
  | None => (sendError 400 "Book ID is required", db)
  | Some _id =>
      match findBook _id db with
      | None => (sendError 404 "Book not found", db)
      | Some book =>
          if cover_testable (cover book) then
            (ok 200 "Book deleted successfully",
             with_books (deleteOne (by_book_id _id) (Books db)) db)
          else
            (sendError 500 "Internal server error", db)
      end
  end.

(** *** POST /members *)
Definition post_members (now : Z) (data : MemberData) (db : DB) : Response * DB :=
  if negb (truthy (d_name data)) || negb (truthy (d_email data)) then
    (sendError 400 "Name and email are required", db)
  else
    match findOne (fun m => JsVal_eqb (email m) (d_email data)) (Members db) with
    | Some _ => (sendError 400 "Member with this email already exists", db)
    | None =>
        let member :=
          {| member_id := next_id db;
             name := d_name data;
             email := d_email data;
             role := js_or (d_role data) (JStr "student");
             borrowedBooks := [];
             m_createdAt := now;
             m_updatedAt := None |} in
        (mkResponse 201 (BId (next_id db)), insert_member member db)
    end.

(** The driver stores an undefined value of a [$set] document as null. *)
Definition undefined_as_null (v : JsVal) : JsVal :=
  match v with JUndef => JNull | _ => v end.

(** *** PUT /members *)
Definition put_members (now : Z) (id : option ObjectId) (data : MemberData) (db : DB)
  : Response * DB :=
  match id with
  | None => (sendError 400 "Member ID is required", db)
  | Some _id =>
      let upd m :=
        mkMember (member_id m)
          (undefined_as_null (d_name data))
          (undefined_as_null (d_email data))
          (undefined_as_null (d_role data))
          (borrowedBooks m) (m_createdAt m) (Some now) in
      (ok 200 "Member updated successfully",
       with_members (snd (updateOne (by_member_id _id) upd (Members db))) db)
  end.

(** *** DELETE /members *)
Definition delete_members (id : option ObjectId) (db : DB) : Response * DB :=
  match id with
  | None => (sendError 400 "Member ID is required", db)
  | Some _id =>
      (ok 200 "Member deleted successfully",
       with_members (deleteOne (by_member_id _id) (Members db)) db)
  end.

(** *** POST /borrow *)

(** [24 * 60 * 60 * 1000] *)
Definition day_ms : Z := 24 * 60 * 60 * 1000.

(** [const days = parseInt(data.days) || 7] *)
Definition borrow_days (days : JsVal) : JsNumber :=
  match parseInt days with
  | NaN => Fin 7
  | Fin z => if z =? 0 then Fin 7 else Fin z
  | Inf n => Inf n
  end.

(** [new Date(borrowedOn.getTime() + days * 24 * 60 * 60 * 1000)] *)
Definition due_date (borrowedOn : Z) (days : JsNumber) : option Z :=
  TimeClip
    (fadd (Fin borrowedOn)
       (fmul (fmul (fmul (fmul days (Fin 24)) (Fin 60)) (Fin 60)) (Fin 1000))).

(** The date the driver writes for a [Date]: an invalid date is written as
    the epoch. *)
Definition stored_date (d : option Z) : Z :=
  match d with Some t => t | None => 0 end.

(** [JSON.stringify({ ok: true, dueDate })]: an invalid date prints null. *)
Definition due_body (d : option Z) : Body :=
  match d with Some t => BDueDate t | None => BDueDateNull end.

Definition borrow (now : Z) (bId mId : ObjectId) (days_arg : JsVal) (db : DB)
  : Response * DB :=
  let days := borrow_days days_arg in
  match findBook bId db, findMember mId db with
  | Some book, Some member =>
      if Status_eqb (status book) Borrowed then
        (sendError 400 "Book is already borrowed", db)
      else
        let borrowedOn := now in
        let dueDate := due_date borrowedOn days in
        let set_borrowed b :=
          mkBook (book_id b) (title b) (author b) (genre b) (year b) (isbn b) (cover b)
            Borrowed (Some mId) (Some (stored_date dueDate)) (borrowCount b + 1)
            (createdAt b) (updatedAt b) in
        let push m :=
          mkMember (member_id m) (name m) (email m) (role m)
            (borrowedBooks m ++ [mkEntry bId borrowedOn (stored_date dueDate)])
            (m_createdAt m) (m_updatedAt m) in
        let db1 := with_books (snd (updateOne (by_book_id bId) set_borrowed (Books db))) db in
        let db2 := with_members (snd (updateOne (by_member_id mId) push (Members db1))) db1 in
        let db3 := insert_log (mkLoan bId mId borrowedOn (stored_date dueDate) None 0) db2 in
        (mkResponse 200 (due_body dueDate), db3)
  | _, _ => (sendError 404 "Book or member not found", db)
  end.

(** *** POST /return *)

(** [Math.ceil(a / b)] for an integer [a] and a positive integer [b]. *)
Definition ceil_div (a b : Z) : Z :=
  if a mod b =? 0 then a / b else a / b + 1.

(** [new Date(book.dueDate)]: a stored date is itself, null is the epoch. *)
Definition Date_of (d : option Z) : Z :=
  match d with Some t => t | None => 0 end.

(** The fine of a return at [now] for a loan due at [due]. *)
Definition compute_fine (now due : Z) : Z :=
  if now >? due then
    let daysLate := ceil_div (now - due) day_ms in
    daysLate * 5
  else 0.

Definition open_loan (bId mId : ObjectId) (l : LoanRecord) : bool :=
  N.eqb (l_bookId l) bId && N.eqb (l_memberId l) mId
  && match returnedOn l with None => true | Some _ => false end.

Definition return_book (now : Z) (bId mId : ObjectId) (db : DB) : Response * DB :=
  match findBook bId db with
  | None => (sendError 404 "Book not found", db)
  | Some book =>
      if negb (Status_eqb (status book) Borrowed) then
        (sendError 400 "Book is not currently borrowed", db)
      else
        let due := Date_of (dueDate book) in
        let fine := compute_fine now due in
        let set_available b :=
          mkBook (book_id b) (title b) (author b) (genre b) (year b) (isbn b) (cover b)
            Available None None (borrowCount b) (createdAt b) (updatedAt b) in
        let pull_entry m :=
          mkMember (member_id m) (name m) (email m) (role m)
            (pull bId (borrowedBooks m)) (m_createdAt m) (m_updatedAt m) in
        let close l :=
          mkLoan (l_bookId l) (l_memberId l) (l_borrowedOn l) (l_dueDate l)
            (Some now) fine in
        let db1 := with_books (snd (updateOne (by_book_id bId) set_available (Books db))) db in
        let db2 := with_members (snd (updateOne (by_member_id mId) pull_entry (Members db1))) db1 in
        let db3 := with_logs (snd (updateOne (open_loan bId mId) close (BorrowLogs db2))) db2 in
        (mkResponse 200 (BFine fine), db3)
  end.

(** *** The mutating endpoints as one transition function *)

Inductive Request : Type :=
| PostBooks (data : BookData)
| PutBooks (id : option ObjectId) (data : BookData)
| DeleteBooks (id : option ObjectId)
| PostMembers (data : MemberData)
| PutMembers (id : option ObjectId) (data : MemberData)
| DeleteMembers (id : option ObjectId)
| PostBorrow (bookId memberId : ObjectId) (days : JsVal)
| PostReturn (bookId memberId : ObjectId).

Definition handle (now : Z) (req : Request) (db : DB) : Response * DB :=
  match req with
  | PostBooks data => post_books now data db
  | PutBooks id data => put_books now id data db
  | DeleteBooks id => delete_books id db
  | PostMembers data => post_members now data db
  | PutMembers id data => put_members now id data db
  | DeleteMembers id => delete_members id db
  | PostBorrow b m days => borrow now b m days db
  | PostReturn b m => return_book now b m db
  end.

(** A history: requests with the clock reading at which each is served. *)
Fixpoint run (history : list (Z * Request)) (db : DB) : DB :=
  match history with
  | [] => db
  | (now, req) :: rest => run rest (snd (handle now req db))
  end.

(** *** GET /reports/most-borrowed *)

(** The sort stage is the database's.  What the server guarantees for
    [find().sort({ borrowCount: -1 })] is the documents of the collection in
    non-increasing order of the sort key; the handler names no second key. *)
Definition desc_borrowCount (a b : Book) : Prop := borrowCount b <= borrowCount a.

Definition sort_contract (srt : list Book -> list Book) : Prop :=
  forall l, Permutation l (srt l) /\ StronglySorted desc_borrowCount (srt l).

(** [Books.find().sort({ borrowCount: -1 }).limit(10).toArray()] *)
Definition most_borrowed (srt : list Book -> list Book) (db : DB) : list Book :=
  firstn 10 (srt (Books db)).

End Server.
Import Server.

(** ** The earlier variant of [backend/server.js]

    The variant without [sendError] has the same borrow, return and report
    handlers (its ledger records carry no [fine] until the return).  Two
    handlers that the properties below touch differ; they are embedded here. *)

Module ServerBasic.

(** *** POST /members: no validation *)
Definition post_members (now : Z) (data : MemberData) (db : DB) : Response * DB :=
  let member :=
    {| member_id := next_id db;
       name := undefined_as_null (d_name data);
       email := undefined_as_null (d_email data);
       role := js_or (d_role data) (JStr "student");
       borrowedBooks := [];
       m_createdAt := now;
       m_updatedAt := None |} in
  (mkResponse 201 (BId (next_id db)), insert_member member db).

(** *** PUT /books: [matchedCount] is not read *)
Definition put_books (id : option ObjectId) (data : BookData) (db : DB)
  : Response * DB :=
  match id with
  | None => (mkResponse 400 (BText "missing id"), db)
  | Some _id =>
      let update :=
        remove_undefined
          [ (Ktitle, d_title data);
            (Kauthor, d_author data);
            (Kgenre, d_genre data);
            (Kyear, d_year data);
            (Kisbn, js_or (d_isbn data) JNull);
            (Kcover, js_or (d_cover data) JUndef) ] in
      (mkResponse 200 (BText "success"),
       with_books
         (snd (updateOne (by_book_id _id) (fun b => fold_left set_field update b) (Books db)))
         db)
  end.

End ServerBasic.

(** ** Two sort stages that meet the contract *)

(** Insertion into a list in non-increasing [borrowCount] order, after the
    elements with the same count. *)
Fixpoint insert_desc (x : Book) (l : list Book) : list Book :=
  match l with
  | [] => [x]
  | y :: l' =>
      if borrowCount x <=? borrowCount y then y :: insert_desc x l'
      else x :: l
  end.

(** Sorts and keeps equal counts in collection order. *)
Definition sort_stable (l : list Book) : list Book :=
  fold_left (fun acc x => insert_desc x acc) l [].

(** Sorts and yields equal counts in reverse collection order. *)
Definition sort_reversing (l : list Book) : list Book :=
  sort_stable (rev l).

(** ** Vocabulary of the properties *)

(** The data-model invariant of a book. *)
Definition book_inv (b : Book) : Prop :=
  (status b = Borrowed <-> borrowedBy b <> None /\ dueDate b <> None) /\
  (status b = Available <-> borrowedBy b = None /\ dueDate b = None).

(** Position of the book with identifier [i] in the collection. *)
Fixpoint position (i : ObjectId) (l : list Book) : nat :=
  match l with
  | [] => O
  | b :: l' => if N.eqb (book_id b) i then O else S (position i l')
  end.

(** Books of [result] with equal [borrowCount] appear in the order in which
    they were inserted into [store]. *)
Definition ties_in_insertion_order (store result : list Book) : Prop :=
  forall i j a b,
    nth_error result i = Some a ->
    nth_error result j = Some b ->
    (i < j)%nat ->
    borrowCount a = borrowCount b ->
    (position (book_id a) store < position (book_id b) store)%nat.

(** The book [b] after a borrow by [mId] due at [due]. *)
Definition borrowed_copy (b : Book) (mId : ObjectId) (due : Z) : Book :=
  mkBook (book_id b) (title b) (author b) (genre b) (year b) (isbn b) (cover b)
    Borrowed (Some mId) (Some due) (borrowCount b + 1) (createdAt b) (updatedAt b).

(** The book [b] after its return. *)
Definition returned_copy (b : Book) : Book :=
  mkBook (book_id b) (title b) (author b) (genre b) (year b) (isbn b) (cover b)
    Available None None (borrowCount b) (createdAt b) (updatedAt b).

(** The book [b] with [borrowCount] replaced by [n], every other field kept. *)
Definition with_borrowCount (b : Book) (n : Z) : Book :=
  mkBook (book_id b) (title b) (author b) (genre b) (year b) (isbn b) (cover b)
    (status b) (borrowedBy b) (dueDate b) n (createdAt b) (updatedAt b).

(** A string with no integer at its start: after leading white space and an
    optional sign there is no decimal digit. *)
Definition no_leading_digit (s : string) : Prop :=
  match snd (strip_sign (trim_start s)) with
  | String c _ => digit_val 10 c = None
  | EmptyString => True
  end.

(** A string made of decimal digits only. *)
Fixpoint all_decimal (s : string) : Prop :=
  match s with
  | String c s' => (exists d, 0 <= d < 10 /\ c = digit_char d) /\ all_decimal s'
  | EmptyString => True
  end.

(** What a [$set] key does to a stored value: nothing when the request value
    is undefined (the key was removed), replacement otherwise. *)
Definition merged (requested stored : JsVal) : JsVal :=
  match requested with JUndef => stored | _ => requested end.

(** The member [m] with one more entry at the end of [borrowedBooks]. *)
Definition with_entry (m : Member) (e : BorrowEntry) : Member :=
  mkMember (member_id m) (name m) (email m) (role m)
    (borrowedBooks m ++ [e]) (m_createdAt m) (m_updatedAt m).

(** The member [m] without the entries of book [bId]. *)
Definition without_book (m : Member) (bId : ObjectId) : Member :=
  mkMember (member_id m) (name m) (email m) (role m)
    (filter (fun e => negb (N.eqb (e_bookId e) bId)) (borrowedBooks m))
    (m_createdAt m) (m_updatedAt m).

(** ** Sample data *)

Definition dune : BookData :=
  mkBookData (JStr "Dune") (JStr "Herbert") JUndef (JStr "1965")
    (JStr "9780441013593") JUndef.

Definition emma : BookData :=
  mkBookData (JStr "Emma") (JStr "Austen") JUndef JUndef JUndef JUndef.

Definition alice : MemberData :=
  mkMemberData (JStr "Alice") (JStr "a@x.com") JUndef.

Definition bob : MemberData :=
  mkMemberData (JStr "Bob") (JStr "b@x.com") JUndef.

(** Dune (id 1) and Emma (id 2) in the catalog, Alice (id 3) and Bob (id 4)
    registered. *)
Definition library : DB :=
  run [(1000, PostBooks dune); (2000, PostBooks emma);
       (3000, PostMembers alice); (4000, PostMembers bob)] empty_db.

(** Alice has borrowed Dune at time 5000 for the default period. *)
Definition library_lent : DB :=
  run [(5000, PostBorrow 1%N 3%N JUndef)] library.

(** ** Authentication: the [Users] collection *)

Module Auth.

(** A document of the [Users] collection; [password] is the stored digest. *)
Record User : Type := mkUser {
  user_id : ObjectId;
  u_name : JsVal;
  u_email : JsVal;
  password : string;
  u_role : JsVal;
  token : option string;
  u_createdAt : Z;
  lastLogin : option Z
}.

Record UsersDB : Type := mkUsersDB {
  Users : list User;
  next_user_id : ObjectId
}.

Definition empty_users : UsersDB := mkUsersDB [] 1%N.

Record Credentials : Type := mkCredentials {
  c_name : JsVal;
  c_email : JsVal;
  c_password : JsVal;
  c_role : JsVal
}.

(** The answer of [/login]: an error, or [{ ok, token, user }] with status 200. *)
Inductive LoginResponse : Type :=
| LoginRefused (r : Response)
| LoginOk (tok : string) (uname uemail urole : JsVal) (id : ObjectId).

(** The outer [catch]: any exception is answered 500. *)
Definition internal_error : Response := sendError 500 "Internal server error".

(** [hashPassword(password)]: the digest function [hash] is SHA-256 in hex;
    [Hash.update] throws on an argument that is not a string. *)
Definition hashPassword (hash : string -> string) (pw : JsVal) : option string :=
  match pw with
  | JStr s => Some (hash s)
  | _ => None
  end.

Definition by_email (e : JsVal) (u : User) : bool := JsVal_eqb (u_email u) e.
Definition by_user_id (i : ObjectId) (u : User) : bool := N.eqb (user_id u) i.
Definition by_token (t : string) (u : User) : bool :=
  match token u with
  | Some t' => String.eqb t' t
  | None => false
  end.

(** *** POST /signup *)
Definition signup (hash : string -> string) (now : Z) (data : Credentials) (udb : UsersDB)
  : Response * UsersDB :=
  if negb (truthy (c_email data)) || negb (truthy (c_password data))
     || negb (truthy (c_name data)) then
    (sendError 400 "Missing required fields", udb)
  else
    match findOne (by_email (c_email data)) (Users udb) with
    | Some _ => (sendError 400 "User already exists", udb)
    | None =>
        match hashPassword hash (c_password data) with
        | None => (internal_error, udb)
        | Some digest =>
            let user :=
              {| user_id := next_user_id udb;
                 u_name := c_name data;
                 u_email := c_email data;
                 password := digest;
                 u_role := js_or (c_role data) (JStr "member");
                 token := None;
                 u_createdAt := now;
                 lastLogin := None |} in
            (mkResponse 201 (BMsg true "User created successfully"),
             mkUsersDB (Users udb ++ [user]) (N.succ (next_user_id udb)))
        end
    end.

(** *** POST /login; [fresh] is the value [genToken()] returns. *)
Definition login (hash : string -> string) (now : Z) (fresh : string)
  (data : Credentials) (udb : UsersDB) : LoginResponse * UsersDB :=
  if negb (truthy (c_email data)) || negb (truthy (c_password data)) then
    (LoginRefused (sendError 400 "Email and password required"), udb)
  else
    match findOne (by_email (c_email data)) (Users udb) with
    | None => (LoginRefused (sendError 401 "Invalid email or password"), udb)
    | Some user =>
        match hashPassword hash (c_password data) with
        | None => (LoginRefused internal_error, udb)
        | Some digest =>
            if negb (String.eqb (password user) digest) then
              (LoginRefused (sendError 401 "Invalid email or password"), udb)
            else
              let set_token u :=
                mkUser (user_id u) (u_name u) (u_email u) (password u) (u_role u)
                  (Some fresh) (u_createdAt u) (Some now) in
              (LoginOk fresh (u_name user) (u_email user) (u_role user) (user_id user),
               mkUsersDB (snd (updateOne (by_user_id (user_id user)) set_token (Users udb)))
                 (next_user_id udb))
        end
    end.

Definition string_drop (n : nat) (s : string) : string :=
  substring n (String.length s - n) s.

(** [s.replace(pat, rep)] with a string pattern: the first occurrence only. *)
Fixpoint replace_first (pat rep s : string) : string :=
  match s with
  | EmptyString => if prefix pat s then rep else s
  | String c s' =>
      if prefix pat s then (rep ++ string_drop (String.length pat) s)%string
      else String c (replace_first pat rep s')
  end.

(** [authUserFromReq(req)]; [auth] is [req.headers["authorization"]]. *)
Definition authUserFromReq (auth : option string) (udb : UsersDB) : option User :=
  match auth with
  | None => None
  | Some a =>
      if String.eqb a "" then None
      else
        let t := replace_first "Bearer " "" a in
        findOne (by_token t) (Users udb)
  end.

(** The authentication endpoints as one transition function. *)
Inductive AuthRequest : Type :=
| PostSignup (data : Credentials)
| PostLogin (fresh : string) (data : Credentials).

Definition auth_handle (hash : string -> string) (now : Z) (req : AuthRequest)
  (udb : UsersDB) : UsersDB :=
  match req with
  | PostSignup data => snd (signup hash now data udb)
  | PostLogin fresh data => snd (login hash now fresh data udb)
  end.

Fixpoint auth_run (hash : string -> string) (history : list (Z * AuthRequest))
  (udb : UsersDB) : UsersDB :=
  match history with
  | [] => udb
  | (now, req) :: rest => auth_run hash rest (auth_handle hash now req udb)
  end.

End Auth.

(** ** GET /reports/active-members *)

Module Reports.

(** One more ledger record for member [m] in the groups built so far. *)
Fixpoint add_count (m : ObjectId) (groups : list (ObjectId * Z)) : list (ObjectId * Z) :=
  match groups with
  | [] => [(m, 1)]
  | (k, c) :: rest =>
      if N.eqb k m then (k, c + 1) :: rest else (k, c) :: add_count m rest
  end.

(** [{ $group: { _id: "$memberId", borrowCount: { $sum: 1 } } }] *)
Definition group_by_member (logs : list LoanRecord) : list (ObjectId * Z) :=
  fold_left (fun groups l => add_count (l_memberId l) groups) logs [].

Definition desc_count (a b : ObjectId * Z) : Prop := snd b <= snd a.

(** The contract of the [$sort: { borrowCount: -1 }] stage. *)
Definition group_sort_contract (srt : list (ObjectId * Z) -> list (ObjectId * Z)) : Prop :=
  forall l, Permutation l (srt l) /\ StronglySorted desc_count (srt l).

(** An element of the report: [{ memberId, borrowCount, member }]. *)
Record ActiveRow : Type := mkRow {
  r_memberId : ObjectId;
  r_borrowCount : Z;
  r_member : option Member
}.

Definition active_members (srt : list (ObjectId * Z) -> list (ObjectId * Z)) (db : DB)
  : list ActiveRow :=
  map (fun a => mkRow (fst a) (snd a) (findMember (fst a) db))
      (firstn 10 (srt (group_by_member (BorrowLogs db)))).

(** A sort stage for the groups: insertion in non-increasing count order. *)
Fixpoint insert_group (x : ObjectId * Z) (l : list (ObjectId * Z)) : list (ObjectId * Z) :=
  match l with
  | [] => [x]
  | y :: l' => if snd x <=? snd y then y :: insert_group x l' else x :: l
  end.

Definition sort_groups (l : list (ObjectId * Z)) : list (ObjectId * Z) :=
  fold_left (fun acc x => insert_group x acc) l [].

(** Number of ledger records of member [m]. *)
Definition loans_of (m : ObjectId) (logs : list LoanRecord) : Z :=
  Z.of_nat (List.length (filter (fun l => N.eqb (l_memberId l) m) logs)).

End Reports.

(** ** The borrow and return flows of [frontend/js/books.js] *)

Module Client.

(** [authHeader()]: the [Authorization] header, if a token is stored. *)
Definition authHeader (stored : option string) : option string :=
  match stored with
  | Some t => if String.eqb t "" then None else Some ("Bearer " ++ t)%string
  | None => None
  end.

(** [idx = parseInt(choice) - 1], refused when
    [isNaN(idx) || idx < 0 || idx >= members.length]. *)
Definition chosen_index (choice : JsVal) (members : list Member) : option nat :=
  match fadd (parseInt choice) (Fin (-1)) with
  | Fin idx =>
      if (idx <? 0) || (idx >=? Z.of_nat (List.length members)) then None
      else Some (Z.to_nat idx)
  | NaN | Inf _ => None
  end.

(** [borrowBook(bookId)]: the request sent, if any; [members] is the answer
    of [GET /members], [choice] and [days] are what the two prompts return. *)
Definition borrowBook (bookId : ObjectId) (members : list Member) (choice days : JsVal)
  : option Request :=
  match members with
  | [] => None
  | _ =>
      match chosen_index choice members with
      | None => None
      | Some idx =>
          match nth_error members idx with
          | Some m => Some (PostBorrow bookId (member_id m) days)
          | None => None
          end
      end
  end.

(** [returnBook(bookId)] *)
Definition returnBook (bookId : ObjectId) (members : list Member) (choice : JsVal)
  : option Request :=
  match chosen_index choice members with
  | None => None
  | Some idx =>
      match nth_error members idx with
      | Some m => Some (PostReturn bookId (member_id m))
      | None => None
      end
  end.

End Client.

(** ** Well-formedness of the stores *)

(** A list of identifiers without repetition, all below the counter [n]. *)
Definition ids_ok (ids : list ObjectId) (n : ObjectId) : Prop :=
  NoDup ids /\ Forall (fun i => (i < n)%N) ids.

(** Identifiers are pairwise distinct within a collection and were handed
    out by [insertOne]. *)
Definition ids_wf (db : DB) : Prop :=
  NoDup (map book_id (Books db)) /\
  NoDup (map member_id (Members db)) /\
  Forall (fun b => (book_id b < next_id db)%N) (Books db) /\
  Forall (fun m => (member_id m < next_id db)%N) (Members db).

(** The document [POST /books] inserts. *)
Definition new_book (now : Z) (data : BookData) (id : ObjectId) : Book :=
  mkBook id (d_title data) (d_author data)
    (js_or (d_genre data) (JStr "Unknown"))
    (parseInt_or_null (d_year data))
    (js_or (d_isbn data) JNull)
    (js_or (d_cover data) (JStr "/uploads/default-book.jpg"))
    Available None None 0 now now.

(** The ways one request can change the [Books] collection. *)
Inductive books_step (db : DB) : list Book -> Prop :=
| step_none : books_step db (Books db)
| step_insert now data :
    books_step db (Books db ++ [new_book now data (next_id db)])
| step_update i data now :
    books_step db
      (snd (updateOne (by_book_id i)
              (dollar_set (remove_undefined (build_update data)) now) (Books db)))
| step_borrow i m due :
    books_step db
      (snd (updateOne (by_book_id i) (fun b => borrowed_copy b m due) (Books db)))
| step_return i :
    books_step db (snd (updateOne (by_book_id i) returned_copy (Books db)))
| step_delete i :
    books_step db (deleteOne (by_book_id i) (Books db)).

(** [b'] is a later state of the document [b]. *)
Definition later_book (b b' : Book) : Prop :=
  book_id b' = book_id b /\ createdAt b' = createdAt b /\
  borrowCount b <= borrowCount b'.

(** The closing of a ledger record by a return at [now] with fine [f]. *)
Definition closed_copy (now f : Z) (l : LoanRecord) : LoanRecord :=
  mkLoan (l_bookId l) (l_memberId l) (l_borrowedOn l) (l_dueDate l) (Some now) f.

(** [l'] is a later state of the ledger record [l]: the same loan, and the
    same record once it is closed. *)
Definition later_loan (l l' : LoanRecord) : Prop :=
  l_bookId l' = l_bookId l /\ l_memberId l' = l_memberId l /\
  l_borrowedOn l' = l_borrowedOn l /\ l_dueDate l' = l_dueDate l /\
  (returnedOn l <> None -> l' = l).

(** The shape of the fields the catalog handlers write. *)
Definition book_shape (b : Book) : Prop :=
  truthy (cover b) = true /\
  (year b = JNull \/ (exists z, z <> 0 /\ year b = JNum z) \/
   exists n, year b = JInf n) /\
  (isbn b = JNull \/ truthy (isbn b) = true) /\
  0 <= borrowCount b.

(** The count recorded for member [m] in a list of groups, 0 if none. *)
Definition count_in (groups : list (ObjectId * Z)) (m : ObjectId) : Z :=
  match find (fun kc => N.eqb (fst kc) m) groups with
  | Some kc => snd kc
  | None => 0
  end.

(** Users have distinct emails and distinct identifiers handed out by
    [insertOne]. *)
Definition users_wf (udb : Auth.UsersDB) : Prop :=
  NoDup (map Auth.u_email (Auth.Users udb)) /\
  ids_ok (map Auth.user_id (Auth.Users udb)) (Auth.next_user_id udb).

(** No user shares an email with another. *)
Definition emails_unique (udb : Auth.UsersDB) : Prop :=
  NoDup (map Auth.u_email (Auth.Users udb)).

Definition is_open (l : LoanRecord) : Prop := returnedOn l = None.

(** * Properties *)

(** ** Collection operations *)

Section CollectionFacts.
Context {A : Type}.
Implicit Types (p q : A -> bool) (f : A -> A) (l : list A).

Lemma updateOne_no_match p f l :
  find p l = None -> updateOne p f l = (O, l).
Proof.
  induction l as [|x l IH]; simpl; [reflexivity|].
  destruct (p x); [discriminate|].
  intros H. rewrite (IH H). reflexivity.
Qed.

Lemma updateOne_matched p f l x :
  find p l = Some x -> fst (updateOne p f l) = 1%nat.
Proof.
  induction l as [|y l IH]; simpl; [discriminate|].
  destruct (p y); [reflexivity|].
  intros H. specialize (IH H).
  destruct (updateOne p f l); assumption.
Qed.

Lemma find_updateOne_same p f l :
  (forall x, p x = true -> p (f x) = true) ->
  find p (snd (updateOne p f l)) = option_map f (find p l).
Proof.
  intros Hp. induction l as [|x l IH]; simpl; [reflexivity|].
  destruct (p x) eqn:E.
  - simpl. rewrite (Hp x E). reflexivity.
  - destruct (updateOne p f l) as [n r]. simpl in *. rewrite E. exact IH.
Qed.

Lemma find_updateOne_other p q f l :
  (forall x, p (f x) = p x) ->
  (forall x, q x = true -> p x = false) ->
  find p (snd (updateOne q f l)) = find p l.
Proof.
  intros Hf Hq. induction l as [|x l IH]; simpl; [reflexivity|].
  destruct (q x) eqn:E.
  - simpl. rewrite Hf, (Hq x E). reflexivity.
  - destruct (updateOne q f l) as [n r]. simpl in *. rewrite IH. reflexivity.
Qed.

Lemma Forall_updateOne (P : A -> Prop) p f l :
  (forall x, P x -> P (f x)) ->
  Forall P l -> Forall P (snd (updateOne p f l)).
Proof.
  intros Hf. induction 1 as [|x l Hx Hl IH]; simpl; [constructor|].
  destruct (p x).
  - constructor; auto.
  - destruct (updateOne p f l) as [n r]. simpl in *. constructor; auto.
Qed.

Lemma Forall_deleteOne (P : A -> Prop) p l :
  Forall P l -> Forall P (deleteOne p l).
Proof.
  induction 1 as [|x l Hx Hl IH]; simpl; [constructor|].
  destruct (p x); [assumption | constructor; assumption].
Qed.
End CollectionFacts.

Lemma findBook_id i db b : findBook i db = Some b -> book_id b = i.
Proof.
  unfold findBook, findOne. intros H.
  apply find_some in H. destruct H as [_ H].
  unfold by_book_id in H. apply N.eqb_eq in H. exact H.
Qed.

Lemma findMember_id i db m : findMember i db = Some m -> member_id m = i.
Proof.
  unfold findMember, findOne. intros H.
  apply find_some in H. destruct H as [_ H].
  unfold by_member_id in H. apply N.eqb_eq in H. exact H.
Qed.

Lemma by_book_id_other i j b : i <> j -> by_book_id j b = true -> by_book_id i b = false.
Proof.
  unfold by_book_id. intros Hne H. apply N.eqb_eq in H. apply N.eqb_neq. congruence.
Qed.

Lemma by_member_id_other i j m :
  i <> j -> by_member_id j m = true -> by_member_id i m = false.
Proof.
  unfold by_member_id. intros Hne H. apply N.eqb_eq in H. apply N.eqb_neq. congruence.
Qed.

(** ** The fine *)

Lemma day_ms_value : day_ms = 86400 * 1000.
Proof. reflexivity. Qed.

(** [ceil_div a b] is the least integer [k] with [a <= k * b]. *)
Lemma ceil_div_bounds a b :
  0 < b -> (ceil_div a b - 1) * b < a <= ceil_div a b * b.
Proof.
  intros Hb. unfold ceil_div.
  pose proof (Z.div_mod a b ltac:(lia)) as Hdm.
  pose proof (Z.mod_pos_bound a b Hb) as Hm.
  destruct (Z.eqb_spec (a mod b) 0) as [E|E]; nia.
Qed.

Lemma ceil_div_unique a b k :
  0 < b -> (k - 1) * b < a <= k * b -> k = ceil_div a b.
Proof.
  intros Hb Hk. pose proof (ceil_div_bounds a b Hb) as Hc. nia.
Qed.

Lemma compute_fine_on_time now due : now <= due -> compute_fine now due = 0.
Proof.
  intros H. unfold compute_fine.
  destruct (Z.gtb_spec now due); [lia | reflexivity].
Qed.

Lemma compute_fine_late now due :
  due < now ->
  exists k, compute_fine now due = k * 5 /\
            (k - 1) * (86400 * 1000) < now - due <= k * (86400 * 1000) /\
            1 <= k.
Proof.
  intros H. unfold compute_fine.
  destruct (Z.gtb_spec now due); [|lia].
  exists (ceil_div (now - due) day_ms).
  pose proof (ceil_div_bounds (now - due) day_ms ltac:(reflexivity)) as Hb.
  rewrite day_ms_value in *. repeat split; lia.
Qed.

Lemma return_book_response now bId mId db book :
  findBook bId db = Some book ->
  status book = Borrowed ->
  fst (return_book now bId mId db)
  = mkResponse 200 (BFine (compute_fine now (Date_of (dueDate book)))).
Proof.
  intros Hf Hs. unfold return_book. rewrite Hf, Hs. reflexivity.
Qed.

(** C1. A return of an existing borrowed book answers 200 with a fine that
    is 0 when the clock is at or before the due date, and otherwise 5 times
    the least whole number [k] of days (of 86400 s) that covers the delay:
    [(k-1) days < now - due <= k days], so a started day counts in full. *)
Theorem return_fine_ceiling :
  forall db now bId mId book due,
    findBook bId db = Some book ->
    status book = Borrowed ->
    dueDate book = Some due ->
    exists f,
      fst (return_book now bId mId db) = mkResponse 200 (BFine f) /\
      (now <= due -> f = 0) /\
      (due < now ->
       exists k, f = k * 5 /\ 1 <= k /\
                 (k - 1) * (86400 * 1000) < now - due <= k * (86400 * 1000)).
Proof.
  intros db now bId mId book due Hf Hs Hd.
  exists (compute_fine now due). split; [|split].
  - rewrite (return_book_response now bId mId db book Hf Hs), Hd. reflexivity.
  - apply compute_fine_on_time.
  - intros Hlate. destruct (compute_fine_late now due Hlate) as [k [H1 [H2 H3]]].
    exists k. auto.
Qed.

Lemma return_fine_ceiling_witness :
  exists f,
    fst (return_book (604805000 + 2 * 86400000 + 1) 1%N 3%N library_lent)
    = mkResponse 200 (BFine f) /\
    (604805000 + 2 * 86400000 + 1 <= 604805000 -> f = 0) /\
    (604805000 < 604805000 + 2 * 86400000 + 1 ->
     exists k, f = k * 5 /\ 1 <= k /\
               (k - 1) * (86400 * 1000) < 604805000 + 2 * 86400000 + 1 - 604805000
               <= k * (86400 * 1000)).
Proof.
  apply (return_fine_ceiling library_lent (604805000 + 2 * 86400000 + 1) 1%N 3%N
           (mkBook 1%N (JStr "Dune") (JStr "Herbert") (JStr "Unknown") (JNum 1965)
              (JStr "9780441013593") (JStr "/uploads/default-book.jpg")
              Borrowed (Some 3%N) (Some 604805000) 1 1000 1000) 604805000);
    reflexivity.
Defined.

Example fine_three_started_days :
  fst (return_book (604805000 + 2 * 86400000 + 1) 1%N 3%N library_lent)
  = mkResponse 200 (BFine 15).
Proof. reflexivity. Qed.

(** ** Borrow *)

Lemma to_double_safe z : Z.abs z <= 2 ^ 53 -> to_double z = Fin z.
Proof.
  intros H. unfold to_double. cbv zeta.
  destruct (Z.leb_spec (Z.abs z) (2 ^ 53)); [reflexivity | lia].
Qed.

Lemma pow2_53_lt_1024 : 2 ^ 54 < 2 ^ 1024.
Proof. apply Z.pow_lt_mono_r; lia. Qed.

(** Below [2^54] every even integer is a double. *)
Lemma to_double_even z :
  Z.abs z < 2 ^ 54 -> z mod 2 = 0 -> to_double z = Fin z.
Proof.
  intros H54 Hev. unfold to_double. cbv zeta.
  destruct (Z.leb_spec (Z.abs z) (2 ^ 53)) as [Hs|Hl]; [reflexivity|].
  assert (Hlog : Z.log2 (Z.abs z) = 53).
  { apply Z.log2_unique; [lia|]. change (Z.succ 53) with 54. lia. }
  rewrite Hlog. change (53 - 52) with 1. change (2 ^ (1 - 1)) with 1.
  change (2 ^ 1) with 2.
  assert (Ha : Z.abs z mod 2 = 0).
  { destruct (Z.abs_spec z) as [[_ ->]|[_ ->]]; [exact Hev|].
    pose proof (Z.div_mod z 2 ltac:(lia)) as Hd.
    replace (- z) with ((- (z / 2)) * 2) by lia. apply Z.mod_mul. lia. }
  rewrite Ha. cbn [Z.ltb Z.compare].
  assert (Hm : Z.abs z / 2 * 2 = Z.abs z).
  { pose proof (Z.div_mod (Z.abs z) 2 ltac:(lia)). lia. }
  rewrite Hm.
  destruct (Z.leb_spec (2 ^ 1024) (Z.abs z)) as [Hbig|_].
  - pose proof pow2_53_lt_1024. lia.
  - f_equal. destruct (Z.abs_spec z) as [[Hz ->]|[Hz ->]].
    + destruct (Z.sgn_spec z) as [[? ->]|[[? ->]|[? ->]]]; lia.
    + destruct (Z.sgn_spec z) as [[? ->]|[[? ->]|[? ->]]]; lia.
Qed.

(** A rounded result below [2^53] in magnitude was not rounded. *)
Lemma to_double_fin_small z w :
  to_double z = Fin w -> Z.abs w < 2 ^ 53 -> z = w.
Proof.
  unfold to_double. cbv zeta.
  destruct (Z.leb_spec (Z.abs z) (2 ^ 53)) as [Hs|Hl]; [congruence|].
  set (a := Z.abs z) in *. set (e := Z.log2 a - 52).
  assert (Hlog : 53 <= Z.log2 a).
  { rewrite <- (Z.log2_pow2 53) by lia. apply Z.log2_le_mono. lia. }
  assert (He : 1 <= e) by (unfold e; lia).
  assert (Hpow : 2 ^ 52 * 2 ^ e <= a).
  { rewrite <- Z.pow_add_r by lia. replace (52 + e) with (Z.log2 a) by (unfold e; lia).
    apply Z.log2_spec. lia. }
  assert (Hpe : 2 <= 2 ^ e).
  { change 2 with (2 ^ 1) at 1. apply Z.pow_le_mono_r; lia. }
  assert (Hq : 2 ^ 52 <= a / 2 ^ e).
  { apply Z.div_le_lower_bound; lia. }
  set (q := a / 2 ^ e) in *.
  set (q' := if a mod 2 ^ e <? 2 ^ (e - 1) then q
             else if 2 ^ (e - 1) <? a mod 2 ^ e then q + 1
             else if Z.even q then q else q + 1).
  assert (Hq' : q <= q').
  { unfold q'. destruct (a mod 2 ^ e <? 2 ^ (e - 1)); [lia|].
    destruct (2 ^ (e - 1) <? a mod 2 ^ e); [lia|].
    destruct (Z.even q); lia. }
  destruct (2 ^ 1024 <=? q' * 2 ^ e); [discriminate|].
  intros Hw Hsmall. injection Hw as <-.
  assert (Hm : 2 ^ 53 <= q' * 2 ^ e).
  { change (2 ^ 53) with (2 ^ 52 * 2). nia. }
  exfalso. unfold a in *.
  destruct (Z.sgn_spec z) as [[? Hsg]|[[? Hsg]|[? Hsg]]]; rewrite Hsg in Hsmall; lia.
Qed.

(** Inside the range of dates the due date is computed exactly. *)
Lemma due_date_exact now d :
  Z.abs now <= 8640000000000000 ->
  Z.abs (now + d * (86400 * 1000)) <= 8640000000000000 ->
  due_date now (Fin d) = Some (now + d * (86400 * 1000)).
Proof.
  intros Hn Hs. unfold due_date, fmul, fadd.
  assert (H53 : 2 ^ 53 = 9007199254740992) by reflexivity.
  assert (H54 : 2 ^ 54 = 18014398509481984) by reflexivity.
  rewrite (to_double_safe (d * 24)) by lia.
  rewrite (to_double_safe (d * 24 * 60)) by lia.
  rewrite (to_double_safe (d * 24 * 60 * 60)) by lia.
  rewrite (to_double_even (d * 24 * 60 * 60 * 1000)).
  - rewrite to_double_safe by lia.
    unfold TimeClip.
    replace (now + d * 24 * 60 * 60 * 1000) with (now + d * (86400 * 1000)) by lia.
    destruct (Z.leb_spec (Z.abs (now + d * (86400 * 1000))) 8640000000000000);
      [reflexivity | lia].
  - lia.
  - replace (d * 24 * 60 * 60 * 1000) with (d * 43200000 * 2) by lia.
    apply Z.mod_mul. lia.
Qed.

Lemma borrow_unfold now bId mId days db book member :
  findBook bId db = Some book ->
  findMember mId db = Some member ->
  status book = Available ->
  borrow now bId mId days db =
  (mkResponse 200 (due_body (due_date now (borrow_days days))),
   mkDB (snd (updateOne (by_book_id bId)
                (fun b => borrowed_copy b mId
                            (stored_date (due_date now (borrow_days days))))
                (Books db)))
        (snd (updateOne (by_member_id mId)
                (fun m => with_entry m
                            (mkEntry bId now
                               (stored_date (due_date now (borrow_days days)))))
                (Members db)))
        (BorrowLogs db ++
         [mkLoan bId mId now (stored_date (due_date now (borrow_days days))) None 0])
        (next_id db)).
Proof.
  intros Hb Hm Hs. unfold borrow. rewrite Hb, Hm, Hs. reflexivity.
Qed.

Lemma borrow_findBook now bId mId days db book member :
  findBook bId db = Some book ->
  findMember mId db = Some member ->
  status book = Available ->
  findBook bId (snd (borrow now bId mId days db))
  = Some (borrowed_copy book mId (stored_date (due_date now (borrow_days days)))).
Proof.
  intros Hb Hm Hs. rewrite (borrow_unfold now bId mId days db book member Hb Hm Hs).
  unfold findBook, findOne. cbn [snd Books].
  rewrite find_updateOne_same by (intros x Hx; exact Hx).
  unfold findBook, findOne in Hb. rewrite Hb. reflexivity.
Qed.

Lemma borrow_findMember now bId mId days db book member :
  findBook bId db = Some book ->
  findMember mId db = Some member ->
  status book = Available ->
  findMember mId (snd (borrow now bId mId days db))
  = Some (with_entry member
            (mkEntry bId now (stored_date (due_date now (borrow_days days))))).
Proof.
  intros Hb Hm Hs. rewrite (borrow_unfold now bId mId days db book member Hb Hm Hs).
  unfold findMember, findOne. cbn [snd Members].
  rewrite find_updateOne_same by (intros x Hx; exact Hx).
  unfold findMember, findOne in Hm. rewrite Hm. reflexivity.
Qed.

Lemma borrow_on_borrowed now bId mId days db book :
  findBook bId db = Some book ->
  status book = Borrowed ->
  borrow now bId mId days db =
  (match findMember mId db with
   | Some _ => sendError 400 "Book is already borrowed"
   | None => sendError 404 "Book or member not found"
   end, db).
Proof.
  intros Hb Hs. unfold borrow. rewrite Hb.
  destruct (findMember mId db); [rewrite Hs|]; reflexivity.
Qed.

(** C4 (as amended). A borrow of a book whose status is Borrowed never
    changes the database: books, members and ledger are what they were.  It
    is answered 400 "Book is already borrowed" when the member exists, and
    404 "Book or member not found" when the member does not. *)
Theorem borrow_borrowed_no_change :
  forall db now bId mId days book,
    findBook bId db = Some book ->
    status book = Borrowed ->
    snd (borrow now bId mId days db) = db /\
    (forall member, findMember mId db = Some member ->
       fst (borrow now bId mId days db) = sendError 400 "Book is already borrowed") /\
    (findMember mId db = None ->
       fst (borrow now bId mId days db) = sendError 404 "Book or member not found").
Proof.
  intros db now bId mId days book Hb Hs.
  rewrite (borrow_on_borrowed now bId mId days db book Hb Hs).
  split; [reflexivity|]. split.
  - intros member Hm. rewrite Hm. reflexivity.
  - intros Hm. rewrite Hm. reflexivity.
Qed.

Lemma borrow_borrowed_no_change_witness :
  snd (borrow 6000 1%N 4%N (JStr "3") library_lent) = library_lent /\
  (forall member, findMember 4%N library_lent = Some member ->
     fst (borrow 6000 1%N 4%N (JStr "3") library_lent)
     = sendError 400 "Book is already borrowed") /\
  (findMember 4%N library_lent = None ->
     fst (borrow 6000 1%N 4%N (JStr "3") library_lent)
     = sendError 404 "Book or member not found").
Proof.
  apply (borrow_borrowed_no_change library_lent 6000 1%N 4%N (JStr "3")
           (mkBook 1%N (JStr "Dune") (JStr "Herbert") (JStr "Unknown") (JNum 1965)
              (JStr "9780441013593") (JStr "/uploads/default-book.jpg")
              Borrowed (Some 3%N) (Some 604805000) 1 1000 1000));
    reflexivity.
Defined.

(** C4 as stated fails: Dune is borrowed, member 99 does not exist, and the
    borrow is answered 404 NotFound, not 400 Conflict. *)
Lemma borrow_borrowed_unknown_member :
  (exists book, findBook 1%N library_lent = Some book /\ status book = Borrowed) /\
  fst (borrow 6000 1%N 99%N JUndef library_lent)
  = sendError 404 "Book or member not found" /\
  fst (borrow 6000 1%N 99%N JUndef library_lent)
  <> sendError 400 "Book is already borrowed".
Proof.
  split; [|split].
  - eexists. split; reflexivity.
  - reflexivity.
  - discriminate.
Qed.

(** ** Return *)

Lemma return_unfold now bId mId db book :
  findBook bId db = Some book ->
  status book = Borrowed ->
  return_book now bId mId db =
  (mkResponse 200 (BFine (compute_fine now (Date_of (dueDate book)))),
   mkDB (snd (updateOne (by_book_id bId) returned_copy (Books db)))
        (snd (updateOne (by_member_id mId) (fun m => without_book m bId) (Members db)))
        (snd (updateOne (open_loan bId mId)
                (fun l => mkLoan (l_bookId l) (l_memberId l) (l_borrowedOn l) (l_dueDate l)
                            (Some now) (compute_fine now (Date_of (dueDate book))))
                (BorrowLogs db)))
        (next_id db)).
Proof.
  intros Hb Hs. unfold return_book. rewrite Hb, Hs. reflexivity.
Qed.

Lemma return_findBook now bId mId db book :
  findBook bId db = Some book ->
  status book = Borrowed ->
  findBook bId (snd (return_book now bId mId db)) = Some (returned_copy book).
Proof.
  intros Hb Hs. rewrite (return_unfold now bId mId db book Hb Hs).
  unfold findBook, findOne. simpl.
  rewrite find_updateOne_same by (intros x Hx; exact Hx).
  unfold findBook, findOne in Hb. rewrite Hb. reflexivity.
Qed.

Lemma return_findMember_same now bId mId db book :
  findBook bId db = Some book ->
  status book = Borrowed ->
  findMember mId (snd (return_book now bId mId db))
  = option_map (fun m => without_book m bId) (findMember mId db).
Proof.
  intros Hb Hs. rewrite (return_unfold now bId mId db book Hb Hs).
  unfold findMember, findOne. simpl.
  apply find_updateOne_same. intros x Hx; exact Hx.
Qed.

Lemma return_findMember_other now bId mId db book m' :
  findBook bId db = Some book ->
  status book = Borrowed ->
  m' <> mId ->
  findMember m' (snd (return_book now bId mId db)) = findMember m' db.
Proof.
  intros Hb Hs Hne. rewrite (return_unfold now bId mId db book Hb Hs).
  unfold findMember, findOne. simpl.
  apply find_updateOne_other.
  - intros x. reflexivity.
  - intros x. apply by_member_id_other. exact Hne.
Qed.

(** C10. The return handler never looks at [borrowedBy]: for an existing
    borrowed book and any member identifier [m] (the borrower, another
    member, or no member at all) the return is answered 200 with the fine,
    which does not depend on [m]; the book becomes Available with
    [borrowedBy] and [dueDate] cleared; member [m]'s record loses every
    [borrowedBooks] entry of that book; every other member's record,
    the borrower's included, is left as it was. *)
Theorem return_ignores_borrower :
  forall db now bId m book,
    findBook bId db = Some book ->
    status book = Borrowed ->
    let r := return_book now bId m db in
    fst r = mkResponse 200 (BFine (compute_fine now (Date_of (dueDate book)))) /\
    findBook bId (snd r) = Some (returned_copy book) /\
    status (returned_copy book) = Available /\
    findMember m (snd r) = option_map (fun mem => without_book mem bId) (findMember m db) /\
    (forall mem e, In e (borrowedBooks (without_book mem bId)) <->
                   In e (borrowedBooks mem) /\ e_bookId e <> bId) /\
    (forall m', m' <> m -> findMember m' (snd r) = findMember m' db).
Proof.
  intros db now bId m book Hb Hs r. subst r.
  split; [apply return_book_response; assumption|].
  split; [apply return_findBook; assumption|].
  split; [reflexivity|].
  split; [eapply return_findMember_same; eassumption|].
  split.
  - intros mem e. simpl. rewrite filter_In, negb_true_iff, N.eqb_neq. reflexivity.
  - intros m' Hne. eapply return_findMember_other; eassumption.
Qed.

Lemma return_ignores_borrower_witness :
  let book := mkBook 1%N (JStr "Dune") (JStr "Herbert") (JStr "Unknown") (JNum 1965)
                (JStr "9780441013593") (JStr "/uploads/default-book.jpg")
                Borrowed (Some 3%N) (Some 604805000) 1 1000 1000 in
  let r := return_book 7000 1%N 4%N library_lent in
  fst r = mkResponse 200 (BFine (compute_fine 7000 (Date_of (dueDate book)))) /\
  findBook 1%N (snd r) = Some (returned_copy book) /\
  status (returned_copy book) = Available /\
  findMember 4%N (snd r)
  = option_map (fun mem => without_book mem 1%N) (findMember 4%N library_lent) /\
  (forall mem e, In e (borrowedBooks (without_book mem 1%N)) <->
                 In e (borrowedBooks mem) /\ e_bookId e <> 1%N) /\
  (forall m', m' <> 4%N -> findMember m' (snd r) = findMember m' library_lent).
Proof.
  intros book.
  apply (return_ignores_borrower library_lent 7000 1%N 4%N book); reflexivity.
Defined.

(** Bob (4) returns the book Alice (3) borrowed: the return succeeds, and
    Alice's record still lists the loan. *)
Example return_by_other_member :
  fst (return_book 7000 1%N 4%N library_lent) = mkResponse 200 (BFine 0) /\
  option_map status (findBook 1%N (snd (return_book 7000 1%N 4%N library_lent)))
  = Some Available /\
  option_map borrowedBooks (findMember 3%N (snd (return_book 7000 1%N 4%N library_lent)))
  = Some [mkEntry 1%N 5000 604805000] /\
  BorrowLogs (snd (return_book 7000 1%N 4%N library_lent)) = BorrowLogs library_lent.
Proof. repeat split. Qed.

(** ** The status invariant *)

Lemma book_inv_same_loan_fields b b' :
  status b' = status b -> borrowedBy b' = borrowedBy b -> dueDate b' = dueDate b ->
  book_inv b -> book_inv b'.
Proof.
  unfold book_inv. intros -> -> ->. exact (fun H => H).
Qed.

Lemma book_inv_borrowed_copy b mId due : book_inv (borrowed_copy b mId due).
Proof.
  unfold book_inv. simpl. intuition congruence.
Qed.

Lemma book_inv_returned_copy b : book_inv (returned_copy b).
Proof.
  unfold book_inv. simpl. intuition congruence.
Qed.

Lemma fold_set_field_loan_fields u b :
  status (fold_left set_field u b) = status b /\
  borrowedBy (fold_left set_field u b) = borrowedBy b /\
  dueDate (fold_left set_field u b) = dueDate b /\
  borrowCount (fold_left set_field u b) = borrowCount b /\
  book_id (fold_left set_field u b) = book_id b /\
  createdAt (fold_left set_field u b) = createdAt b.
Proof.
  revert b. induction u as [|[k v] u IH]; intros b; simpl; [repeat split|].
  destruct (IH (set_field b (k, v))) as (H1 & H2 & H3 & H4 & H5 & H6).
  rewrite H1, H2, H3, H4, H5, H6.
  destruct k; repeat split.
Qed.

Lemma book_inv_dollar_set u now b : book_inv b -> book_inv (dollar_set u now b).
Proof.
  destruct (fold_set_field_loan_fields u b) as (H1 & H2 & H3 & _).
  apply book_inv_same_loan_fields; unfold dollar_set; simpl; assumption.
Qed.

Lemma handle_preserves_inv now req db :
  Forall book_inv (Books db) -> Forall book_inv (Books (snd (handle now req db))).
Proof.
  intros H. destruct req as [data|id data|id|data|id data|id|bId mId days|bId mId]; simpl.
  - unfold post_books.
    destruct (negb (truthy (d_title data)) || negb (truthy (d_author data))); simpl;
      [assumption|].
    apply Forall_app. split; [assumption|].
    constructor; [|constructor].
    unfold book_inv; simpl. intuition congruence.
  - unfold put_books. destruct id as [i|]; [|assumption].
    pose proof (Forall_updateOne book_inv (by_book_id i)
                  (dollar_set (remove_undefined (build_update data)) now) (Books db)
                  (book_inv_dollar_set _ now) H) as Hu.
    destruct (updateOne (by_book_id i) _ (Books db)) as [n bs]. simpl in Hu.
    destruct (Nat.eqb n 0); exact Hu.
  - unfold delete_books. destruct id as [i|]; [|assumption].
    destruct (findBook i db) as [bk|]; [|assumption].
    destruct (cover_testable (cover bk)); [|assumption].
    simpl. apply Forall_deleteOne. assumption.
  - unfold post_members.
    destruct (negb (truthy (d_name data)) || negb (truthy (d_email data)));
      [assumption|].
    destruct (findOne _ (Members db)); assumption.
  - unfold put_members. destruct id; assumption.
  - unfold delete_members. destruct id; assumption.
  - unfold borrow.
    destruct (findBook bId db) as [book|]; [|assumption].
    destruct (findMember mId db) as [member|]; [|assumption].
    destruct (Status_eqb (status book) Borrowed); [assumption|].
    simpl. apply Forall_updateOne; [|assumption].
    intros x _. apply (book_inv_borrowed_copy x mId).
  - unfold return_book.
    destruct (findBook bId db) as [book|]; [|assumption].
    destruct (negb (Status_eqb (status book) Borrowed)); [assumption|].
    simpl. apply Forall_updateOne; [|assumption].
    intros x _. apply (book_inv_returned_copy x).
Qed.

Lemma run_preserves_inv history :
  forall db, Forall book_inv (Books db) -> Forall book_inv (Books (run history db)).
Proof.
  induction history as [|[now req] rest IH]; intros db H; simpl; [assumption|].
  apply IH. apply handle_preserves_inv. assumption.
Qed.

Lemma findBook_inv i db b :
  Forall book_inv (Books db) -> findBook i db = Some b -> book_inv b.
Proof.
  intros H Hf. unfold findBook, findOne in Hf. apply find_some in Hf.
  rewrite Forall_forall in H. apply H. tauto.
Qed.

(** C8. Starting from a database whose books satisfy the invariant (the
    empty database does), after every sequence of Create, Update and Delete
    of books and members, Borrow and Return, each at any clock reading,
    every book has status Borrowed exactly when [borrowedBy] and [dueDate]
    are both present, and status Available exactly when both are absent. *)
Theorem status_invariant :
  Forall book_inv (Books empty_db) /\
  forall db history,
    Forall book_inv (Books db) ->
    Forall book_inv (Books (run history db)) /\
    forall b, In b (Books (run history db)) ->
      (status b = Borrowed <-> borrowedBy b <> None /\ dueDate b <> None) /\
      (status b = Available <-> borrowedBy b = None /\ dueDate b = None).
Proof.
  split; [constructor|].
  intros db history H.
  pose proof (run_preserves_inv history db H) as Hr.
  split; [exact Hr|].
  intros b Hb. rewrite Forall_forall in Hr. exact (Hr b Hb).
Qed.

Lemma status_invariant_witness :
  Forall book_inv
    (Books (run [(5000, PostBorrow 1%N 3%N JUndef); (6000, PutBooks (Some 1%N) emma);
                 (7000, PostReturn 1%N 4%N); (8000, DeleteBooks (Some 2%N))] library)).
Proof.
  apply (proj2 status_invariant library
           [(5000, PostBorrow 1%N 3%N JUndef); (6000, PutBooks (Some 1%N) emma);
            (7000, PostReturn 1%N 4%N); (8000, DeleteBooks (Some 2%N))]).
  apply (proj2 status_invariant empty_db
           [(1000, PostBooks dune); (2000, PostBooks emma);
            (3000, PostMembers alice); (4000, PostMembers bob)]).
  constructor.
Defined.

(** ** Borrow, then return *)

Lemma returned_borrowed_copy b mId due :
  status b = Available -> borrowedBy b = None -> dueDate b = None ->
  returned_copy (borrowed_copy b mId due) = with_borrowCount b (borrowCount b + 1).
Proof.
  intros Hs Hb Hd. unfold returned_copy, borrowed_copy, with_borrowCount. simpl.
  rewrite Hs, Hb, Hd. reflexivity.
Qed.

(** C5. In a database whose books satisfy the status invariant (every
    database the handlers produce from the empty one), borrowing an
    available book for an existing member and then returning it leaves the
    book Available with [borrowedBy] and [dueDate] absent, and equal to the
    book before the borrow in every field except [borrowCount], which keeps
    the value the borrow gave it (one more than before). *)
Theorem borrow_return_round_trip :
  forall db now1 now2 bId mId days book member,
    Forall book_inv (Books db) ->
    findBook bId db = Some book ->
    findMember mId db = Some member ->
    status book = Available ->
    let db1 := snd (borrow now1 bId mId days db) in
    let db2 := snd (return_book now2 bId mId db1) in
    (exists lent, findBook bId db1 = Some lent /\ status lent = Borrowed /\
                  borrowCount lent = borrowCount book + 1) /\
    findBook bId db2 = Some (with_borrowCount book (borrowCount book + 1)) /\
    status (with_borrowCount book (borrowCount book + 1)) = Available /\
    borrowedBy (with_borrowCount book (borrowCount book + 1)) = None /\
    dueDate (with_borrowCount book (borrowCount book + 1)) = None.
Proof.
  intros db now1 now2 bId mId days book member Hinv Hb Hm Hs db1 db2.
  pose proof (findBook_inv bId db book Hinv Hb) as [_ Hav].
  destruct (proj1 Hav Hs) as [HbN HdN].
  pose proof (borrow_findBook now1 bId mId days db book member Hb Hm Hs) as Hlent.
  fold db1 in Hlent.
  set (due := stored_date (due_date now1 (borrow_days days))) in *.
  split.
  - exists (borrowed_copy book mId due). repeat split. exact Hlent.
  - split.
    + subst db2. rewrite (return_findBook now2 bId mId db1 _ Hlent eq_refl).
      rewrite returned_borrowed_copy by assumption. reflexivity.
    + simpl. auto.
Qed.

Lemma library_inv : Forall book_inv (Books library).
Proof.
  apply (run_preserves_inv
           [(1000, PostBooks dune); (2000, PostBooks emma);
            (3000, PostMembers alice); (4000, PostMembers bob)] empty_db).
  constructor.
Defined.

Lemma borrow_return_round_trip_witness :
  let book := mkBook 1%N (JStr "Dune") (JStr "Herbert") (JStr "Unknown") (JNum 1965)
                (JStr "9780441013593") (JStr "/uploads/default-book.jpg")
                Available None None 0 1000 1000 in
  let db1 := snd (borrow 5000 1%N 3%N (JNum 7) library) in
  let db2 := snd (return_book 900000000 1%N 3%N db1) in
  (exists lent, findBook 1%N db1 = Some lent /\ status lent = Borrowed /\
                borrowCount lent = borrowCount book + 1) /\
  findBook 1%N db2 = Some (with_borrowCount book (borrowCount book + 1)) /\
  status (with_borrowCount book (borrowCount book + 1)) = Available /\
  borrowedBy (with_borrowCount book (borrowCount book + 1)) = None /\
  dueDate (with_borrowCount book (borrowCount book + 1)) = None.
Proof.
  intros book.
  apply (borrow_return_round_trip library 5000 900000000 1%N 3%N (JNum 7) book
           (mkMember 3%N (JStr "Alice") (JStr "a@x.com") (JStr "student") [] 3000 None)
           library_inv); reflexivity.
Defined.

(** Every database the handlers produce from the empty one satisfies the
    hypothesis of the round trip. *)
Corollary borrow_return_round_trip_reachable history now1 now2 bId mId days book member :
  let db := run history empty_db in
  findBook bId db = Some book ->
  findMember mId db = Some member ->
  status book = Available ->
  findBook bId (snd (return_book now2 bId mId (snd (borrow now1 bId mId days db))))
  = Some (with_borrowCount book (borrowCount book + 1)).
Proof.
  intros db Hb Hm Hs.
  assert (Hinv : Forall book_inv (Books db))
    by (apply run_preserves_inv; constructor).
  destruct (findBook_inv bId db book Hinv Hb) as [_ Hav].
  destruct (proj1 Hav Hs) as [HbN HdN].
  pose proof (borrow_findBook now1 bId mId days db book member Hb Hm Hs) as Hlent.
  rewrite (return_findBook now2 bId mId _ _ Hlent eq_refl).
  rewrite returned_borrowed_copy by assumption. reflexivity.
Qed.

(** ** Membership: create *)

Lemma JsVal_eqb_eq a b : JsVal_eqb a b = true <-> a = b.
Proof.
  destruct a, b; simpl; split; intros H; try discriminate; try reflexivity.
  - apply Bool.eqb_prop in H. congruence.
  - injection H as ->. apply Bool.eqb_reflx.
  - apply Z.eqb_eq in H. congruence.
  - injection H as ->. apply Z.eqb_refl.
  - apply String.eqb_eq in H. congruence.
  - injection H as ->. apply String.eqb_refl.
  - apply Bool.eqb_prop in H. congruence.
  - injection H as ->. apply Bool.eqb_reflx.
Qed.

(** Creating a member on the server with [sendError]: when [name] or
    [email] is missing (or otherwise falsy) the request is answered 400
    "Name and email are required"; when
    both are given and a member with the same email exists it is answered
    400 "Member with this email already exists"; in both cases the database
    is unchanged, so no member is created.  Otherwise the member is appended
    with a fresh identifier and the answer is 201. *)
Theorem post_members_validation :
  forall db now data,
    (truthy (d_name data) = false \/ truthy (d_email data) = false ->
     post_members now data db = (sendError 400 "Name and email are required", db)) /\
    (truthy (d_name data) = true -> truthy (d_email data) = true ->
     (exists m, In m (Members db) /\ email m = d_email data) ->
     post_members now data db
     = (sendError 400 "Member with this email already exists", db)) /\
    (truthy (d_name data) = true -> truthy (d_email data) = true ->
     (forall m, In m (Members db) -> email m <> d_email data) ->
     fst (post_members now data db) = mkResponse 201 (BId (next_id db)) /\
     Members (snd (post_members now data db))
     = Members db ++ [mkMember (next_id db) (d_name data) (d_email data)
                        (js_or (d_role data) (JStr "student")) [] now None]).
Proof.
  intros db now data. unfold post_members. split; [|split].
  - intros [H|H]; rewrite H; simpl; [reflexivity|].
    rewrite orb_true_r. reflexivity.
  - intros Hn He [m [Hin Hm]]. rewrite Hn, He. simpl.
    destruct (findOne _ (Members db)) eqn:E; [reflexivity|].
    unfold findOne in E. pose proof (find_none _ _ E m Hin) as Hc. simpl in Hc.
    rewrite Hm in Hc.
    assert (JsVal_eqb (d_email data) (d_email data) = true) by (apply JsVal_eqb_eq; reflexivity).
    congruence.
  - intros Hn He Hnone. rewrite Hn, He. simpl.
    destruct (findOne _ (Members db)) eqn:E.
    + unfold findOne in E. apply find_some in E. destruct E as [Hin Heq].
      apply JsVal_eqb_eq in Heq. exfalso. exact (Hnone m Hin Heq).
    + split; reflexivity.
Qed.

Lemma post_members_validation_witness :
  post_members 9000 (mkMemberData (JStr "Alice B.") (JStr "a@x.com") JUndef) library
  = (sendError 400 "Member with this email already exists", library) /\
  post_members 9000 (mkMemberData (JStr "Carol") JUndef JUndef) library
  = (sendError 400 "Name and email are required", library).
Proof.
  split.
  - apply (proj1 (proj2 (post_members_validation library 9000
             (mkMemberData (JStr "Alice B.") (JStr "a@x.com") JUndef))));
      [reflexivity | reflexivity |].
    exists (mkMember 3%N (JStr "Alice") (JStr "a@x.com") (JStr "student") [] 3000 None).
    split; [left; reflexivity | reflexivity].
  - apply (proj1 (post_members_validation library 9000
             (mkMemberData (JStr "Carol") JUndef JUndef))).
    right. reflexivity.
Defined.

(** ** Catalog: update *)

Lemma parseInt_or_null_defined v : JsVal_eqb (parseInt_or_null v) JUndef = false.
Proof.
  unfold parseInt_or_null. destruct (parseInt v) as [|z|n]; try reflexivity.
  destruct (z =? 0); reflexivity.
Qed.

Lemma js_or_null_defined v : JsVal_eqb (js_or v JNull) JUndef = false.
Proof.
  unfold js_or. destruct v; simpl; try reflexivity.
  - destruct b; reflexivity.
  - destruct (negb (z =? 0)); reflexivity.
  - destruct (negb (String.eqb s "")); reflexivity.
Qed.

Lemma truthy_defined v : truthy v = true -> JsVal_eqb v JUndef = false.
Proof. destruct v; simpl; intros H; try discriminate; reflexivity. Qed.

(** The stored book after the [$set] of an update request. *)
Lemma dollar_set_update data now b :
  dollar_set (remove_undefined (build_update data)) now b
  = mkBook (book_id b)
      (merged (d_title data) (title b))
      (merged (d_author data) (author b))
      (merged (d_genre data) (genre b))
      (parseInt_or_null (d_year data))
      (js_or (d_isbn data) JNull)
      (if truthy (d_cover data) then d_cover data else cover b)
      (status b) (borrowedBy b) (dueDate b) (borrowCount b) (createdAt b) now.
Proof.
  unfold dollar_set, build_update, remove_undefined.
  rewrite filter_app. cbn [filter snd].
  rewrite parseInt_or_null_defined, js_or_null_defined. cbn [negb].
  destruct (truthy (d_cover data)) eqn:Ec.
  - cbn [filter snd]. rewrite (truthy_defined _ Ec). cbn [negb].
    destruct (d_title data), (d_author data), (d_genre data); reflexivity.
  - destruct (d_title data), (d_author data), (d_genre data); reflexivity.
Qed.

Lemma put_books_found now i data db b :
  findBook i db = Some b ->
  fst (put_books now (Some i) data db) = ok 200 "Book updated successfully" /\
  findBook i (snd (put_books now (Some i) data db))
  = Some (dollar_set (remove_undefined (build_update data)) now b) /\
  (forall j, j <> i ->
     findBook j (snd (put_books now (Some i) data db)) = findBook j db) /\
  Members (snd (put_books now (Some i) data db)) = Members db /\
  BorrowLogs (snd (put_books now (Some i) data db)) = BorrowLogs db.
Proof.
  intros Hb. unfold put_books.
  set (f := dollar_set (remove_undefined (build_update data)) now).
  pose proof (updateOne_matched (by_book_id i) f (Books db) b Hb) as Hm.
  pose proof (find_updateOne_same (by_book_id i) f (Books db)) as Hs.
  assert (Hid : forall x, book_id (f x) = book_id x).
  { intros x. unfold f, dollar_set, set_updatedAt. cbn [book_id].
    apply (fold_set_field_loan_fields _ x). }
  assert (Hother : forall j, j <> i ->
            find (by_book_id j) (snd (updateOne (by_book_id i) f (Books db)))
            = find (by_book_id j) (Books db)).
  { intros j Hne. apply find_updateOne_other.
    - intros x. unfold by_book_id. rewrite Hid. reflexivity.
    - intros x. apply by_book_id_other. exact Hne. }
  clearbody f.
  destruct (updateOne (by_book_id i) f (Books db)) as [n bs].
  cbn [fst snd] in *. subst n. cbn [Nat.eqb fst snd].
  split; [reflexivity|]. split; [|split; [|split; reflexivity]].
  - unfold findBook, findOne. cbn [Books with_books]. rewrite Hs.
    + unfold findBook, findOne in Hb. rewrite Hb. reflexivity.
    + intros x. unfold by_book_id. rewrite Hid. exact (fun H => H).
  - intros j Hne. unfold findBook, findOne. cbn [Books with_books].
    apply Hother. exact Hne.
Qed.

(** An update of an identifier that does not resolve: 404, store unchanged. *)
Lemma put_books_not_found now i data db :
  findBook i db = None ->
  put_books now (Some i) data db = (sendError 404 "Book not found", db).
Proof.
  intros Hb. unfold put_books.
  rewrite (updateOne_no_match _ _ _ Hb). simpl. destruct db; reflexivity.
Qed.

(** What an update keeps: [title], [author], [genre] and [cover] when the
    request does not carry them, and the circulation fields always. *)
Lemma put_books_kept now i data db b :
  findBook i db = Some b ->
  exists b', findBook i (snd (put_books now (Some i) data db)) = Some b' /\
    (d_title data = JUndef -> title b' = title b) /\
    (d_author data = JUndef -> author b' = author b) /\
    (d_genre data = JUndef -> genre b' = genre b) /\
    (d_cover data = JUndef -> cover b' = cover b) /\
    status b' = status b /\ borrowedBy b' = borrowedBy b /\
    dueDate b' = dueDate b /\ borrowCount b' = borrowCount b /\
    createdAt b' = createdAt b /\ book_id b' = book_id b.
Proof.
  intros Hb. destruct (put_books_found now i data db b Hb) as (_ & Hf & _).
  eexists. split; [exact Hf|]. rewrite dollar_set_update. simpl.
  repeat split; intros ->; reflexivity.
Qed.

(** What an update does not keep: [year] and [isbn] are written even when
    the request does not carry them. *)
Lemma put_books_year_isbn now i data db b :
  findBook i db = Some b ->
  exists b', findBook i (snd (put_books now (Some i) data db)) = Some b' /\
    (d_year data = JUndef -> year b' = JNull) /\
    (d_isbn data = JUndef -> isbn b' = JNull).
Proof.
  intros Hb. destruct (put_books_found now i data db b Hb) as (_ & Hf & _).
  eexists. split; [exact Hf|]. rewrite dollar_set_update. simpl.
  split; intros ->; reflexivity.
Qed.

(** C6, at the failing input.  Dune is stored with year 1965 and an ISBN.
    The update [{ id, title, author }], which carries neither [year] nor
    [isbn], is answered 200 and leaves both fields null. *)
Theorem put_books_clears_year_isbn :
  let data := mkBookData (JStr "Dune") (JStr "Frank Herbert") JUndef JUndef JUndef JUndef in
  let r := put_books 9000 (Some 1%N) data library in
  option_map year (findBook 1%N library) = Some (JNum 1965) /\
  option_map isbn (findBook 1%N library) = Some (JStr "9780441013593") /\
  fst r = ok 200 "Book updated successfully" /\
  option_map year (findBook 1%N (snd r)) = Some JNull /\
  option_map isbn (findBook 1%N (snd r)) = Some JNull /\
  option_map genre (findBook 1%N (snd r)) = Some (JStr "Unknown").
Proof. repeat split. Qed.

(** ** The loan period *)

Lemma small_cases d : 0 <= d < 10 ->
  d = 0 \/ d = 1 \/ d = 2 \/ d = 3 \/ d = 4 \/ d = 5 \/ d = 6 \/ d = 7 \/ d = 8 \/ d = 9.
Proof. lia. Qed.

Ltac each_digit H :=
  apply small_cases in H;
  repeat (destruct H as [H|H]; [subst|]); subst.

Lemma digit_val_digit_char d : 0 <= d < 10 -> digit_val 10 (digit_char d) = Some d.
Proof. intros H. each_digit H; reflexivity. Qed.

Lemma parse_digits_fuel f :
  forall n, 0 <= n < 10 ^ Z.of_nat f ->
  exists k, forall rest acc,
    parse_digits 10 (digits_fuel f n rest) acc = parse_digits 10 rest (acc * k + n).
Proof.
  induction f as [|f IH]; intros n Hn.
  - exists 1. intros rest acc. simpl in *. f_equal. lia.
  - cbn [digits_fuel]. destruct (Z.ltb_spec n 10) as [Hlt|Hge].
    + exists 10. intros rest acc. cbn [parse_digits].
      rewrite Z.mod_small by lia. rewrite digit_val_digit_char by lia. reflexivity.
    + assert (Hq : 0 <= n / 10 < 10 ^ Z.of_nat f).
      { rewrite Nat2Z.inj_succ, Z.pow_succ_r in Hn by lia.
        split; [apply Z.div_pos; lia|].
        apply Z.div_lt_upper_bound; lia. }
      destruct (IH (n / 10) Hq) as [k Hk].
      exists (k * 10). intros rest acc. rewrite Hk. cbn [parse_digits].
      rewrite digit_val_digit_char by (apply Z.mod_pos_bound; lia).
      f_equal. pose proof (Z.div_mod n 10 ltac:(lia)). lia.
Qed.

Lemma digits_fuel_all_decimal f :
  forall n rest, 0 <= n -> all_decimal rest -> all_decimal (digits_fuel f n rest).
Proof.
  induction f as [|f IH]; intros n rest Hn Hr; [exact Hr|].
  cbn [digits_fuel].
  assert (Hd : all_decimal (String (digit_char (n mod 10)) rest)).
  { split; [|exact Hr]. exists (n mod 10). split; [|reflexivity].
    apply Z.mod_pos_bound. lia. }
  destruct (n <? 10); [exact Hd|].
  apply IH; [apply Z.div_pos; lia | exact Hd].
Qed.

Lemma digits_fuel_nonempty f n rest : digits_fuel (S f) n rest <> "".
Proof.
  revert n rest. induction f as [|f IH]; intros n rest.
  - cbn [digits_fuel]. destruct (n <? 10); discriminate.
  - cbn [digits_fuel] in *. destruct (n <? 10); [discriminate|].
    apply (IH (n / 10)).
Qed.

Lemma enough_fuel n : 0 <= n -> n < 10 ^ Z.of_nat (S (Z.to_nat (Z.log2 n))).
Proof.
  intros Hn. rewrite Nat2Z.inj_succ, Z2Nat.id by apply Z.log2_nonneg.
  destruct (Z.eq_dec n 0) as [->|Hnz]; [reflexivity|].
  pose proof (Z.log2_spec n ltac:(lia)) as [_ Hlt].
  pose proof (Z.log2_nonneg n) as Hl.
  pose proof (Z.pow_le_mono_l 2 10 (Z.succ (Z.log2 n)) ltac:(lia)).
  lia.
Qed.

Lemma parse_digits_digits n : 0 <= n -> parse_digits 10 (digits n) 0 = n.
Proof.
  intros Hn. unfold digits.
  destruct (parse_digits_fuel _ n (conj Hn (enough_fuel n Hn))) as [k Hk].
  rewrite Hk. reflexivity.
Qed.

(** On a non-empty string of decimal digits [parseInt] skips nothing, sees
    no sign and no hexadecimal prefix. *)
Lemma parseInt_string_decimal s :
  all_decimal s -> s <> "" ->
  parseInt_string s = to_double (parse_digits 10 s 0) /\
  parseInt_string (String "-" s) = to_double (- parse_digits 10 s 0).
Proof.
  destruct s as [|c s]; [congruence|]. intros [[d [Hd ->]] Hs] _.
  destruct s as [|c' s].
  - each_digit Hd; split; reflexivity.
  - destruct Hs as [[d' [Hd' ->]] _].
    assert (Hp : strip_hex_prefix (String (digit_char d) (String (digit_char d') s))
                 = (10, String (digit_char d) (String (digit_char d') s))).
    { each_digit Hd; try reflexivity. each_digit Hd'; reflexivity. }
    assert (Ht : trim_start (String (digit_char d) (String (digit_char d') s))
                 = String (digit_char d) (String (digit_char d') s)).
    { each_digit Hd; destruct s; reflexivity. }
    assert (Hg : strip_sign (String (digit_char d) (String (digit_char d') s))
                 = (1, String (digit_char d) (String (digit_char d') s))).
    { each_digit Hd; reflexivity. }
    set (t := String (digit_char d) (String (digit_char d') s)) in *.
    split; unfold parseInt_string.
    + rewrite Ht, Hg. cbv beta iota. rewrite Hp. cbv beta iota.
      unfold t at 1. rewrite (digit_val_digit_char d Hd).
      f_equal; lia.
    + change (trim_start (String "-" t)) with (String "-" t).
      change (strip_sign (String "-" t)) with (-1, t).
      cbv beta iota. rewrite Hp. cbv beta iota.
      unfold t at 1. rewrite (digit_val_digit_char d Hd).
      f_equal; lia.
Qed.

(** [parseInt] of an integer of magnitude at most [2^53], given as a
    number, is that integer. *)
Lemma parseInt_JNum z : Z.abs z <= 2 ^ 53 -> parseInt (JNum z) = Fin z.
Proof.
  intros Hz.
  unfold parseInt, ToString. rewrite (to_double_safe z Hz).
  unfold number_string.
  destruct (Z.ltb_spec z 0) as [Hneg|Hpos].
  - destruct (Z.leb_spec (- z) (2 ^ 53)) as [_|Hge]; [|lia].
    destruct (parseInt_string_decimal (digits (- z))) as [_ H].
    + apply digits_fuel_all_decimal; [lia | exact I].
    + apply digits_fuel_nonempty.
    + rewrite H, parse_digits_digits by lia.
      rewrite to_double_safe by lia. f_equal. lia.
  - destruct (Z.leb_spec z (2 ^ 53)) as [_|Hge]; [|lia].
    destruct (parseInt_string_decimal (digits z)) as [H _].
    + apply digits_fuel_all_decimal; [lia | exact I].
    + apply digits_fuel_nonempty.
    + rewrite H, parse_digits_digits by lia. apply to_double_safe. exact Hz.
Qed.

Lemma parseInt_no_leading_digit s : no_leading_digit s -> parseInt (JStr s) = NaN.
Proof.
  unfold no_leading_digit, parseInt, ToString, parseInt_string.
  destruct (strip_sign (trim_start s)) as [sign s1]. cbn [snd].
  destruct s1 as [|c s1]; [reflexivity|]. intros Hd.
  assert (Hp : strip_hex_prefix (String c s1) = (10, String c s1)).
  { destruct c as [[] [] [] [] [] [] [] []];
      try reflexivity; vm_compute in Hd; discriminate Hd. }
  rewrite Hp, Hd. reflexivity.
Qed.

Lemma borrow_days_NaN v : parseInt v = NaN -> borrow_days v = Fin 7.
Proof. unfold borrow_days. intros ->. reflexivity. Qed.

Lemma borrow_days_JNum d :
  d <> 0 -> Z.abs d <= 2 ^ 53 -> borrow_days (JNum d) = Fin d.
Proof.
  intros Hd Hs. unfold borrow_days. rewrite (parseInt_JNum d Hs).
  destruct (Z.eqb_spec d 0); [contradiction | reflexivity].
Qed.

(** C3 (as amended). The loan period is 7 days when the [days] argument is
    absent, null, a boolean, a string that after leading white space and an
    optional sign does not start with a digit, or zero.  Every other integer
    of magnitude at most [2^53], negative ones included, is used as the
    period, whether it arrives as a number or as its decimal string. *)
Theorem borrow_days_spec :
  borrow_days JUndef = Fin 7 /\
  borrow_days JNull = Fin 7 /\
  (forall b, borrow_days (JBool b) = Fin 7) /\
  (forall s, no_leading_digit s -> borrow_days (JStr s) = Fin 7) /\
  borrow_days (JNum 0) = Fin 7 /\
  borrow_days (JStr "0") = Fin 7 /\
  (forall d, d <> 0 -> Z.abs d <= 2 ^ 53 -> borrow_days (JNum d) = Fin d) /\
  (forall d, d <> 0 -> Z.abs d <= 2 ^ 53 ->
             borrow_days (JStr (ToString (JNum d))) = Fin d).
Proof.
  repeat split.
  - intros []; reflexivity.
  - intros s Hs. apply borrow_days_NaN, parseInt_no_leading_digit, Hs.
  - intros d Hd Hs. apply borrow_days_JNum; assumption.
  - intros d Hd Hs.
    change (borrow_days (JStr (ToString (JNum d)))) with (borrow_days (JNum d)).
    apply borrow_days_JNum; assumption.
Qed.

Lemma borrow_days_spec_witness :
  borrow_days (JStr "  two weeks") = Fin 7 /\
  borrow_days (JNum 14) = Fin 14 /\
  borrow_days (JStr (ToString (JNum 21))) = Fin 21.
Proof.
  destruct borrow_days_spec as (_ & _ & _ & Hs & _ & _ & Hn & Ht).
  split; [|split].
  - apply Hs. reflexivity.
  - apply Hn; [discriminate | vm_compute; discriminate].
  - apply Ht; [discriminate | vm_compute; discriminate].
Defined.

(** White space that [parseInt] skips includes the no-break space and the
    other Unicode spaces; an integer above [2^53] is rounded to a double. *)
Example borrow_days_unicode_space_rounding :
  borrow_days (JStr (String (ascii_of_N 194) (String (ascii_of_N 160) "5"))) = Fin 5 /\
  borrow_days (JStr "9007199254740993") = Fin 9007199254740992 /\
  borrow_days (JNum (10 ^ 21)) = Fin 1.
Proof. repeat split; vm_compute; reflexivity. Qed.

(** C3 as stated fails: -3 is not positive, yet the period used is -3 days,
    not 7, and the due date lies before the borrow time. *)
Lemma borrow_days_negative :
  -3 <= 0 /\
  borrow_days (JNum (-3)) = Fin (-3) /\
  borrow_days (JStr "-3") = Fin (-3) /\
  borrow_days (JNum (-3)) <> Fin 7 /\
  fst (borrow 300000000 1%N 3%N (JStr "-3") library)
  = mkResponse 200 (BDueDate (300000000 - 3 * 86400000)).
Proof.
  split; [lia|]. split; [reflexivity|]. split; [reflexivity|].
  split; [discriminate | reflexivity].
Qed.

(** ** The due date *)

(** C2 (as amended). A borrow of an available book by an existing member
    is answered 200; afterwards the book is the same document with status
    Borrowed, [borrowedBy] the member, a due date and [borrowCount] one
    greater, the member has exactly one more [borrowedBooks] entry, at the
    end, and the ledger one more open record, all three with that same due
    date; the answer carries that due date, or null (and the due date stored
    is then the epoch).  When [days] is a non-zero integer [d], as a number
    or as its decimal string, and both the borrow time and the borrow time
    plus [d] days are dates (at most 8.64e15 ms from the epoch), the due
    date is the borrow time plus [d * 86400 s] and is the one answered. *)
Theorem borrow_effect :
  forall db now bId mId days book member,
    findBook bId db = Some book ->
    findMember mId db = Some member ->
    status book = Available ->
    let r := borrow now bId mId days db in
    (exists due,
       findBook bId (snd r) = Some (borrowed_copy book mId due) /\
       status (borrowed_copy book mId due) = Borrowed /\
       dueDate (borrowed_copy book mId due) = Some due /\
       borrowCount (borrowed_copy book mId due) = borrowCount book + 1 /\
       findMember mId (snd r) = Some (with_entry member (mkEntry bId now due)) /\
       borrowedBooks (with_entry member (mkEntry bId now due))
       = borrowedBooks member ++ [mkEntry bId now due] /\
       BorrowLogs (snd r) = BorrowLogs db ++ [mkLoan bId mId now due None 0] /\
       (fst r = mkResponse 200 (BDueDate due) \/
        fst r = mkResponse 200 BDueDateNull /\ due = 0)) /\
    (forall d,
       d <> 0 ->
       days = JNum d \/ days = JStr (ToString (JNum d)) ->
       Z.abs now <= 8640000000000000 ->
       Z.abs (now + d * (86400 * 1000)) <= 8640000000000000 ->
       let due := now + d * (86400 * 1000) in
       fst r = mkResponse 200 (BDueDate due) /\
       findBook bId (snd r) = Some (borrowed_copy book mId due) /\
       findMember mId (snd r) = Some (with_entry member (mkEntry bId now due)) /\
       BorrowLogs (snd r) = BorrowLogs db ++ [mkLoan bId mId now due None 0]).
Proof.
  intros db now bId mId days book member Hb Hm Hs r.
  pose proof (borrow_findBook now bId mId days db book member Hb Hm Hs) as HB.
  pose proof (borrow_findMember now bId mId days db book member Hb Hm Hs) as HM.
  pose proof (borrow_unfold now bId mId days db book member Hb Hm Hs) as HU.
  fold r in HB, HM, HU.
  assert (HL : BorrowLogs (snd r)
               = BorrowLogs db ++
                 [mkLoan bId mId now (stored_date (due_date now (borrow_days days))) None 0])
    by (rewrite HU; reflexivity).
  assert (HR : fst r = mkResponse 200 (due_body (due_date now (borrow_days days))))
    by (rewrite HU; reflexivity).
  split.
  - exists (stored_date (due_date now (borrow_days days))).
    split; [exact HB|]. split; [reflexivity|]. split; [reflexivity|].
    split; [reflexivity|]. split; [exact HM|]. split; [reflexivity|].
    split; [exact HL|].
    rewrite HR. destruct (due_date now (borrow_days days)) as [t|]; cbn.
    + left. reflexivity.
    + right. split; reflexivity.
  - intros d Hd Hdays Hnow Hdue due.
    assert (Hsafe : Z.abs d <= 2 ^ 53).
    { assert (2 ^ 53 = 9007199254740992) by reflexivity. lia. }
    assert (Hbd : borrow_days days = Fin d).
    { destruct Hdays as [-> | ->].
      - apply borrow_days_JNum; assumption.
      - change (borrow_days (JStr (ToString (JNum d)))) with (borrow_days (JNum d)).
        apply borrow_days_JNum; assumption. }
    rewrite Hbd, (due_date_exact now d Hnow Hdue) in HB, HM, HL, HR.
    cbn [stored_date due_body] in HB, HM, HL, HR.
    split; [exact HR|]. split; [exact HB|]. split; [exact HM | exact HL].
Qed.

Lemma borrow_effect_witness :
  let book := mkBook 2%N (JStr "Emma") (JStr "Austen") (JStr "Unknown") JNull JNull
                (JStr "/uploads/default-book.jpg") Available None None 0 2000 2000 in
  let member := mkMember 4%N (JStr "Bob") (JStr "b@x.com") (JStr "student") [] 4000 None in
  let due := 6000 + 14 * (86400 * 1000) in
  let r := borrow 6000 2%N 4%N (JStr "14") library in
  fst r = mkResponse 200 (BDueDate due) /\
  findBook 2%N (snd r) = Some (borrowed_copy book 4%N due) /\
  findMember 4%N (snd r) = Some (with_entry member (mkEntry 2%N 6000 due)) /\
  BorrowLogs (snd r) = BorrowLogs library ++ [mkLoan 2%N 4%N 6000 due None 0].
Proof.
  intros book member.
  apply (proj2 (borrow_effect library 6000 2%N 4%N (JStr "14") book member
                  eq_refl eq_refl eq_refl) 14);
    [discriminate | right; reflexivity | vm_compute; discriminate
    | vm_compute; discriminate].
Defined.

(** C2 as stated fails.  With [days] "100000000" the borrow time plus that
    many days is not a date: the answer carries [dueDate] null and the book
    is stored with the epoch as due date.  With [days] 0 the due date is the
    borrow time plus 7 days, not plus 0 days. *)
Lemma borrow_due_date_not_d_days :
  fst (borrow 5000 2%N 4%N (JStr "100000000") library) = mkResponse 200 BDueDateNull /\
  option_map dueDate (findBook 2%N (snd (borrow 5000 2%N 4%N (JStr "100000000") library)))
  = Some (Some 0) /\
  0 <> 5000 + 100000000 * (86400 * 1000) /\
  fst (borrow 5000 2%N 4%N (JNum 0) library)
  = mkResponse 200 (BDueDate (5000 + 7 * (86400 * 1000))) /\
  5000 + 7 * (86400 * 1000) <> 5000 + 0 * (86400 * 1000).
Proof.
  split; [vm_compute; reflexivity|]. split; [vm_compute; reflexivity|].
  split; [discriminate|]. split; [vm_compute; reflexivity | discriminate].
Qed.

(** ** Most borrowed *)

Lemma insert_desc_perm x l : Permutation (x :: l) (insert_desc x l).
Proof.
  induction l as [|y l IH]; simpl; [reflexivity|].
  destruct (borrowCount x <=? borrowCount y); [|reflexivity].
  rewrite perm_swap. apply perm_skip. exact IH.
Qed.

Lemma insert_desc_sorted x l :
  StronglySorted desc_borrowCount l -> StronglySorted desc_borrowCount (insert_desc x l).
Proof.
  induction 1 as [|y l Hl IH Hy]; simpl.
  - constructor; constructor.
  - destruct (Z.leb_spec (borrowCount x) (borrowCount y)) as [Hle|Hgt].
    + constructor; [exact IH|].
      apply (Permutation_Forall (insert_desc_perm x l)).
      constructor; [exact Hle | exact Hy].
    + constructor; [constructor; assumption|].
      constructor; [unfold desc_borrowCount; lia|].
      eapply Forall_impl; [|exact Hy].
      unfold desc_borrowCount. intros a Ha. lia.
Qed.

Lemma fold_insert_desc l :
  forall acc, StronglySorted desc_borrowCount acc ->
    Permutation (acc ++ l) (fold_left (fun a x => insert_desc x a) l acc) /\
    StronglySorted desc_borrowCount (fold_left (fun a x => insert_desc x a) l acc).
Proof.
  induction l as [|x l IH]; intros acc Hacc; simpl.
  - rewrite app_nil_r. split; [reflexivity | exact Hacc].
  - destruct (IH (insert_desc x acc) (insert_desc_sorted x acc Hacc)) as [Hp Hs].
    split; [|exact Hs].
    rewrite <- Hp. rewrite <- (insert_desc_perm x acc).
    symmetry. apply Permutation_middle.
Qed.

Lemma sort_stable_contract : sort_contract sort_stable.
Proof.
  intros l. unfold sort_stable.
  destruct (fold_insert_desc l [] (SSorted_nil _)) as [Hp Hs].
  split; [exact Hp | exact Hs].
Qed.

Lemma sort_reversing_contract : sort_contract sort_reversing.
Proof.
  intros l. unfold sort_reversing.
  destruct (sort_stable_contract (rev l)) as [Hp Hs].
  split; [|exact Hs].
  rewrite <- Hp. apply Permutation_rev.
Qed.

Lemma StronglySorted_app_r {A} (R : A -> A -> Prop) l1 l2 :
  StronglySorted R (l1 ++ l2) ->
  StronglySorted R l1 /\ forall a b, In a l1 -> In b l2 -> R a b.
Proof.
  induction l1 as [|x l1 IH]; simpl; intros H.
  - split; [constructor | intros a b []].
  - inversion H as [|? ? Hs Hf]; subst.
    destruct (IH Hs) as [H1 H2].
    rewrite Forall_app in Hf. destruct Hf as [Hf1 Hf2].
    split; [constructor; assumption|].
    intros a b [->|Ha] Hb.
    + rewrite Forall_forall in Hf2. apply Hf2. exact Hb.
    + apply H2; assumption.
Qed.

(** What the handler adds to the sort stage.  Whatever sort stage meets the
    contract, the report holds at most 10 books (exactly [min 10 n] of the
    [n] books) and keeps the order the sort stage gave them; together with
    the books left out it is the catalog, no book left out having a higher
    count than a book reported.  The handler names [borrowCount] as the only
    sort key: the order among books of equal count is the database's. *)
Theorem most_borrowed_top :
  forall srt, sort_contract srt ->
  forall db,
    (List.length (most_borrowed srt db) <= 10)%nat /\
    List.length (most_borrowed srt db) = Nat.min 10 (List.length (Books db)) /\
    StronglySorted desc_borrowCount (most_borrowed srt db) /\
    exists rest,
      Permutation (Books db) (most_borrowed srt db ++ rest) /\
      forall a b, In a (most_borrowed srt db) -> In b rest ->
                  borrowCount b <= borrowCount a.
Proof.
  intros srt Hsrt db. destruct (Hsrt (Books db)) as [Hp Hs].
  unfold most_borrowed.
  rewrite <- (firstn_skipn 10 (srt (Books db))) in Hs.
  destruct (StronglySorted_app_r _ _ _ Hs) as [Hs1 Hs2].
  split; [apply firstn_le_length|].
  split; [rewrite List.length_firstn, (Permutation_length Hp); reflexivity|].
  split; [exact Hs1|].
  exists (skipn 10 (srt (Books db))). split.
  - rewrite firstn_skipn. exact Hp.
  - intros a b Ha Hb. exact (Hs2 a b Ha Hb).
Qed.

Lemma most_borrowed_top_witness :
  (List.length (most_borrowed sort_stable library_lent) <= 10)%nat /\
  List.length (most_borrowed sort_stable library_lent)
  = Nat.min 10 (List.length (Books library_lent)) /\
  StronglySorted desc_borrowCount (most_borrowed sort_stable library_lent) /\
  exists rest,
    Permutation (Books library_lent) (most_borrowed sort_stable library_lent ++ rest) /\
    forall a b, In a (most_borrowed sort_stable library_lent) -> In b rest ->
                borrowCount b <= borrowCount a.
Proof.
  apply (most_borrowed_top sort_stable sort_stable_contract library_lent).
Defined.

(** The contract of the sort stage says nothing on ties: a sort stage that
    meets it may yield Emma (inserted second) before Dune (inserted first)
    when both have [borrowCount] 0.  Whether the database does so is not
    decided by the handler. *)
Lemma most_borrowed_ties_not_fixed :
  ~ (forall srt, sort_contract srt ->
     forall db, ties_in_insertion_order (Books db) (most_borrowed srt db)).
Proof.
  intros H.
  pose proof (H sort_reversing sort_reversing_contract library) as Ht.
  specialize (Ht 0%nat 1%nat
    (mkBook 2%N (JStr "Emma") (JStr "Austen") (JStr "Unknown") JNull JNull
       (JStr "/uploads/default-book.jpg") Available None None 0 2000 2000)
    (mkBook 1%N (JStr "Dune") (JStr "Herbert") (JStr "Unknown") (JNum 1965)
       (JStr "9780441013593") (JStr "/uploads/default-book.jpg")
       Available None None 0 1000 1000)
    eq_refl eq_refl ltac:(lia) eq_refl).
  vm_compute in Ht. lia.
Qed.

(** With the sort stage that keeps collection order among equal counts, the
    report on the sample catalog lists Dune before Emma. *)
Example most_borrowed_stable_sample :
  map book_id (most_borrowed sort_stable library) = [1%N; 2%N] /\
  map book_id (most_borrowed sort_reversing library) = [2%N; 1%N].
Proof. split; reflexivity. Qed.

(** ** The earlier variant *)

(** C9 on the earlier variant of the server.  Its POST /members handler has
    neither check: every request is answered 201 and appends a member with
    the name and email of the request, whatever they are.  On the sample
    library a second member is registered under the email of Alice, and so
    is a member with neither name nor email; the server with [sendError]
    answers both requests 400 and leaves the database as it was. *)
Theorem basic_post_members_no_validation :
  (forall db now data,
     fst (ServerBasic.post_members now data db) = mkResponse 201 (BId (next_id db)) /\
     Members (snd (ServerBasic.post_members now data db))
     = Members db ++ [mkMember (next_id db) (undefined_as_null (d_name data))
                        (undefined_as_null (d_email data))
                        (js_or (d_role data) (JStr "student")) [] now None]) /\
  (let data := mkMemberData (JStr "Alice B.") (JStr "a@x.com") JUndef in
   map email (Members library) = [JStr "a@x.com"; JStr "b@x.com"] /\
   fst (ServerBasic.post_members 9000 data library) = mkResponse 201 (BId 5%N) /\
   map email (Members (snd (ServerBasic.post_members 9000 data library)))
   = [JStr "a@x.com"; JStr "b@x.com"; JStr "a@x.com"] /\
   Server.post_members 9000 data library
   = (sendError 400 "Member with this email already exists", library)) /\
  (let data := mkMemberData JUndef JUndef JUndef in
   fst (ServerBasic.post_members 9000 data library) = mkResponse 201 (BId 5%N) /\
   map email (Members (snd (ServerBasic.post_members 9000 data library)))
   = [JStr "a@x.com"; JStr "b@x.com"; JNull] /\
   Server.post_members 9000 data library
   = (sendError 400 "Name and email are required", library)).
Proof.
  split; [|split].
  - intros db now data. split; reflexivity.
  - repeat split.
  - repeat split.
Qed.

(** It registers a second member with an email that is already taken. *)
Example basic_post_members_duplicate :
  fst (ServerBasic.post_members 9000
         (mkMemberData (JStr "Alice B.") (JStr "a@x.com") JUndef) library)
  = mkResponse 201 (BId 5%N) /\
  map email (Members (snd (ServerBasic.post_members 9000
         (mkMemberData (JStr "Alice B.") (JStr "a@x.com") JUndef) library)))
  = [JStr "a@x.com"; JStr "b@x.com"; JStr "a@x.com"].
Proof. split; reflexivity. Qed.

(** It keeps [year] when the request has none, clears [isbn] all the same,
    and answers an unknown identifier with 200. *)
Example basic_put_books_sample :
  let data := mkBookData (JStr "Dune") (JStr "Frank Herbert") JUndef JUndef JUndef JUndef in
  option_map year (findBook 1%N (snd (ServerBasic.put_books (Some 1%N) data library)))
  = Some (JNum 1965) /\
  option_map isbn (findBook 1%N (snd (ServerBasic.put_books (Some 1%N) data library)))
  = Some JNull /\
  ServerBasic.put_books (Some 77%N) data library
  = (mkResponse 200 (BText "success"), library).
Proof. repeat split. Qed.

(** * Further properties of the handlers *)

(** ** More on the collection operations *)

Section MoreCollectionFacts.
Context {A : Type}.
Implicit Types (p q : A -> bool) (f : A -> A) (l : list A).

Lemma updateOne_zero p f l :
  fst (updateOne p f l) = O -> snd (updateOne p f l) = l.
Proof.
  induction l as [|x l IH]; simpl; [reflexivity|].
  destruct (p x); [discriminate|].
  destruct (updateOne p f l) as [n r]. simpl in *. intros H. rewrite (IH H). reflexivity.
Qed.

Lemma map_updateOne {B} (g : A -> B) p f l :
  (forall x, g (f x) = g x) -> map g (snd (updateOne p f l)) = map g l.
Proof.
  intros Hg. induction l as [|x l IH]; simpl; [reflexivity|].
  destruct (p x); simpl; [rewrite Hg; reflexivity|].
  destruct (updateOne p f l) as [n r]. simpl in *. rewrite IH. reflexivity.
Qed.

Lemma length_updateOne p f l : List.length (snd (updateOne p f l)) = List.length l.
Proof.
  induction l as [|x l IH]; simpl; [reflexivity|].
  destruct (p x); simpl; [reflexivity|].
  destruct (updateOne p f l) as [n r]. simpl in *. rewrite IH. reflexivity.
Qed.

Lemma nth_error_updateOne p f l n x :
  nth_error l n = Some x ->
  nth_error (snd (updateOne p f l)) n = Some x \/
  (p x = true /\ nth_error (snd (updateOne p f l)) n = Some (f x)).
Proof.
  revert n. induction l as [|y l IH]; intros n H.
  - destruct n; discriminate.
  - simpl. destruct (p y) eqn:E.
    + destruct n as [|n]; simpl in *.
      * injection H as <-. right. split; [exact E | reflexivity].
      * left. exact H.
    + destruct (updateOne p f l) as [k r]. simpl in *.
      destruct n as [|n]; simpl in *; [left; exact H|].
      apply IH. exact H.
Qed.

Lemma updateOne_app_fresh p f l x :
  find p l = None -> p x = true ->
  snd (updateOne p f (l ++ [x])) = l ++ [f x].
Proof.
  intros Hn Hx. induction l as [|y l IH]; simpl.
  - rewrite Hx. reflexivity.
  - simpl in Hn. destruct (p y); [discriminate|].
    destruct (updateOne p f (l ++ [x])) as [k r]. simpl in *.
    rewrite (IH Hn). reflexivity.
Qed.

Lemma find_app_old p l x y :
  find p l = Some y -> find p (l ++ [x]) = Some y.
Proof.
  induction l as [|z l IH]; simpl; [discriminate|].
  destruct (p z); [exact (fun H => H) | exact IH].
Qed.

Lemma find_app_new p l x :
  find p l = None -> find p (l ++ [x]) = if p x then Some x else None.
Proof.
  induction l as [|z l IH]; simpl; [reflexivity|].
  destruct (p z); [discriminate | exact IH].
Qed.

Lemma find_deleteOne_other p q l :
  (forall x, q x = true -> p x = false) ->
  find p (deleteOne q l) = find p l.
Proof.
  intros Hq. induction l as [|x l IH]; simpl; [reflexivity|].
  destruct (q x) eqn:E.
  - rewrite (Hq x E). reflexivity.
  - simpl. rewrite IH. reflexivity.
Qed.

Lemma In_deleteOne p l x : In x (deleteOne p l) -> In x l.
Proof.
  induction l as [|y l IH]; simpl; [exact (fun H => H)|].
  destruct (p y); simpl; [auto|]. intros [H|H]; auto.
Qed.

Lemma NoDup_map_deleteOne {B} (g : A -> B) p l :
  NoDup (map g l) -> NoDup (map g (deleteOne p l)).
Proof.
  induction l as [|y l IH]; simpl; intros H; [exact H|].
  inversion H as [|? ? Hn Hd]; subst.
  destruct (p y); [exact Hd|]. simpl. constructor; [|exact (IH Hd)].
  intros Hin. apply Hn. apply in_map_iff in Hin. destruct Hin as [z [Hz Hin]].
  apply in_map_iff. exists z. split; [exact Hz | exact (In_deleteOne _ _ _ Hin)].
Qed.
End MoreCollectionFacts.

Lemma find_by_key_none {A} (key : A -> ObjectId) i l :
  ~ In i (map key l) -> find (fun x => N.eqb (key x) i) l = None.
Proof.
  intros Hn. destruct (find _ l) as [x|] eqn:E; [|reflexivity].
  apply find_some in E. destruct E as [Hin Hk]. apply N.eqb_eq in Hk.
  exfalso. apply Hn. apply in_map_iff. exists x. split; assumption.
Qed.

Lemma find_deleteOne_same {A} (key : A -> ObjectId) i l :
  NoDup (map key l) ->
  find (fun x => N.eqb (key x) i) (deleteOne (fun x => N.eqb (key x) i) l) = None.
Proof.
  induction l as [|x l IH]; simpl; intros H; [reflexivity|].
  inversion H as [|? ? Hn Hd]; subst.
  destruct (N.eqb_spec (key x) i) as [E|E].
  - apply find_by_key_none. rewrite <- E. exact Hn.
  - simpl. destruct (N.eqb_spec (key x) i); [contradiction|]. exact (IH Hd).
Qed.

Lemma db_eta db : mkDB (Books db) (Members db) (BorrowLogs db) (next_id db) = db.
Proof. destruct db; reflexivity. Qed.

(** ** The fine as a function of the clock *)

Lemma ceil_div_mono a a' b : 0 < b -> a <= a' -> ceil_div a b <= ceil_div a' b.
Proof.
  intros Hb Ha.
  pose proof (ceil_div_bounds a b Hb). pose proof (ceil_div_bounds a' b Hb). nia.
Qed.

(** X1. The fine is never negative, is a whole number of 5-unit days, and
    never decreases as the return happens later. *)
Theorem fine_nonneg_monotone :
  forall now due,
    0 <= compute_fine now due /\
    (exists k, 0 <= k /\ compute_fine now due = k * 5) /\
    (forall later, now <= later -> compute_fine now due <= compute_fine later due).
Proof.
  intros now due.
  assert (Hk : forall t, exists k, 0 <= k /\ compute_fine t due = k * 5).
  { intros t. unfold compute_fine. destruct (Z.gtb_spec t due) as [H|H].
    - exists (ceil_div (t - due) day_ms). split; [|reflexivity].
      pose proof (ceil_div_bounds (t - due) day_ms ltac:(reflexivity)) as Hb.
      set (c := ceil_div (t - due) day_ms) in *. unfold day_ms in Hb. lia.
    - exists 0. split; [lia | reflexivity]. }
  split; [destruct (Hk now) as [k [H0 ->]]; lia|].
  split; [exact (Hk now)|].
  intros later Hl. unfold compute_fine.
  destruct (Z.gtb_spec now due) as [H|H].
  - destruct (Z.gtb_spec later due) as [H'|H']; [|lia].
    pose proof (ceil_div_mono (now - due) (later - due) day_ms ltac:(reflexivity) ltac:(lia)).
    lia.
  - destruct (Hk later) as [k [H0 Hkk]]. unfold compute_fine in Hkk. rewrite Hkk. lia.
Qed.

Lemma fine_nonneg_monotone_witness :
  compute_fine 604805001 604805000 <= compute_fine 700000000 604805000.
Proof.
  apply (proj2 (proj2 (fine_nonneg_monotone 604805001 604805000)) 700000000). lia.
Defined.

(** ** Errors and outcomes *)

Lemma put_books_error now id data db :
  code (fst (put_books now id data db)) <> 200 -> snd (put_books now id data db) = db.
Proof.
  unfold put_books. destruct id as [i|]; [|reflexivity].
  pose proof (updateOne_zero (by_book_id i)
                (dollar_set (remove_undefined (build_update data)) now) (Books db)) as Hz.
  destruct (updateOne (by_book_id i) _ (Books db)) as [n bs]. cbn [fst snd] in *.
  destruct n as [|n]; cbn [Nat.eqb fst snd code ok]; [|congruence].
  intros _. rewrite (Hz eq_refl). apply db_eta.
Qed.

(** X2. Whenever a mutating endpoint answers with a status other than 200
    or 201, the database is exactly what it was: every check precedes every
    write. *)
Theorem error_leaves_database :
  forall now req db,
    code (fst (handle now req db)) <> 200 ->
    code (fst (handle now req db)) <> 201 ->
    snd (handle now req db) = db.
Proof.
  intros now req db H200 H201.
  destruct req as [data|id data|id|data|id data|id|bId mId days|bId mId];
    cbn [handle] in *.
  - unfold post_books in *.
    destruct (negb (truthy (d_title data)) || negb (truthy (d_author data)));
      [reflexivity | cbn in H201; congruence].
  - apply put_books_error. exact H200.
  - unfold delete_books in *. destruct id as [i|]; [|reflexivity].
    destruct (findBook i db) as [bk|]; [|reflexivity].
    destruct (cover_testable (cover bk)); [cbn in H200; congruence | reflexivity].
  - unfold post_members in *.
    destruct (negb (truthy (d_name data)) || negb (truthy (d_email data)));
      [reflexivity|].
    destruct (findOne _ (Members db)); [reflexivity | cbn in H201; congruence].
  - unfold put_members in *. destruct id; [cbn in H200; congruence | reflexivity].
  - unfold delete_members in *. destruct id; [cbn in H200; congruence | reflexivity].
  - unfold borrow in *.
    destruct (findBook bId db); [|reflexivity].
    destruct (findMember mId db); [|reflexivity].
    destruct (Status_eqb (status b) Borrowed); [reflexivity | cbn in H200; congruence].
  - unfold return_book in *.
    destruct (findBook bId db); [|reflexivity].
    destruct (negb (Status_eqb (status b) Borrowed));
      [reflexivity | cbn in H200; congruence].
Qed.

Lemma error_leaves_database_witness :
  snd (handle 9000 (PostReturn 2%N 3%N) library_lent) = library_lent.
Proof.
  apply (error_leaves_database 9000 (PostReturn 2%N 3%N) library_lent); discriminate.
Defined.

(** X3. A borrow is answered 404 "Book or member not found", with the
    database unchanged, as soon as the book or the member does not exist;
    it is answered 200 exactly when both exist and the book is Available. *)
Theorem borrow_outcomes :
  forall now bId mId days db,
    (findBook bId db = None \/ findMember mId db = None ->
     borrow now bId mId days db = (sendError 404 "Book or member not found", db)) /\
    (code (fst (borrow now bId mId days db)) = 200 <->
     exists book member,
       findBook bId db = Some book /\ findMember mId db = Some member /\
       status book = Available).
Proof.
  intros now bId mId days db. unfold borrow. split.
  - intros [H|H]; rewrite H; [reflexivity|].
    destruct (findBook bId db); reflexivity.
  - destruct (findBook bId db) as [book|].
    + destruct (findMember mId db) as [member|].
      * destruct (status book) eqn:Es; cbn.
        -- split; [intros _; exists book, member; auto | reflexivity].
        -- split; [discriminate|].
           intros (b' & m' & Hb & _ & Hs). injection Hb as <-. congruence.
      * cbn. split; [discriminate|]. intros (b' & m' & _ & Hm & _). discriminate.
    + cbn. split; [discriminate|]. intros (b' & m' & Hb & _). discriminate.
Qed.

Lemma borrow_outcomes_witness :
  borrow 9000 77%N 3%N JUndef library
  = (sendError 404 "Book or member not found", library).
Proof.
  apply (proj1 (borrow_outcomes 9000 77%N 3%N JUndef library)). left. reflexivity.
Defined.

(** X4. A return of a book that does not exist is answered 404 "Book not
    found", a return of an Available book 400 "Book is not currently
    borrowed", both with the database unchanged; it is answered 200 exactly
    when the book exists and is Borrowed, whoever the member is. *)
Theorem return_outcomes :
  forall now bId mId db,
    (findBook bId db = None ->
     return_book now bId mId db = (sendError 404 "Book not found", db)) /\
    (forall book, findBook bId db = Some book -> status book = Available ->
     return_book now bId mId db = (sendError 400 "Book is not currently borrowed", db)) /\
    (code (fst (return_book now bId mId db)) = 200 <->
     exists book, findBook bId db = Some book /\ status book = Borrowed).
Proof.
  intros now bId mId db. unfold return_book. split; [|split].
  - intros ->. reflexivity.
  - intros book -> ->. reflexivity.
  - destruct (findBook bId db) as [book|].
    + destruct (status book) eqn:Es; cbn.
      * split; [discriminate|]. intros (b' & Hb & Hs). injection Hb as <-. congruence.
      * split; [intros _; exists book; auto | reflexivity].
    + cbn. split; [discriminate|]. intros (b' & Hb & _). discriminate.
Qed.

Lemma return_outcomes_witness :
  return_book 9000 2%N 3%N library_lent
  = (sendError 400 "Book is not currently borrowed", library_lent).
Proof.
  apply (proj1 (proj2 (return_outcomes 9000 2%N 3%N library_lent))
           (mkBook 2%N (JStr "Emma") (JStr "Austen") (JStr "Unknown") JNull JNull
              (JStr "/uploads/default-book.jpg") Available None None 0 2000 2000));
    reflexivity.
Defined.

(** X5. A successful borrow touches one book and one member: every other
    book and every other member is found as before, no document is added to
    or removed from the two collections, and the ledger grows by one. *)
Theorem borrow_frame :
  forall now bId mId days db book member,
    findBook bId db = Some book ->
    findMember mId db = Some member ->
    status book = Available ->
    let db' := snd (borrow now bId mId days db) in
    (forall j, j <> bId -> findBook j db' = findBook j db) /\
    (forall m', m' <> mId -> findMember m' db' = findMember m' db) /\
    map book_id (Books db') = map book_id (Books db) /\
    map member_id (Members db') = map member_id (Members db) /\
    List.length (BorrowLogs db') = S (List.length (BorrowLogs db)) /\
    next_id db' = next_id db.
Proof.
  intros now bId mId days db book member Hb Hm Hs db'. subst db'.
  rewrite (borrow_unfold now bId mId days db book member Hb Hm Hs). cbn [snd].
  repeat split.
  - intros j Hne. unfold findBook, findOne. cbn [Books].
    apply find_updateOne_other; [intros x; reflexivity|].
    intros x. apply by_book_id_other. exact Hne.
  - intros m' Hne. unfold findMember, findOne. cbn [Members].
    apply find_updateOne_other; [intros x; reflexivity|].
    intros x. apply by_member_id_other. exact Hne.
  - cbn [Books]. apply map_updateOne. intros x. reflexivity.
  - cbn [Members]. apply map_updateOne. intros x. reflexivity.
  - cbn [BorrowLogs]. rewrite length_app. simpl. lia.
Qed.

Lemma borrow_frame_witness :
  let db' := snd (borrow 6000 2%N 4%N (JStr "14") library_lent) in
  (forall j, j <> 2%N -> findBook j db' = findBook j library_lent) /\
  (forall m', m' <> 4%N -> findMember m' db' = findMember m' library_lent) /\
  map book_id (Books db') = map book_id (Books library_lent) /\
  map member_id (Members db') = map member_id (Members library_lent) /\
  List.length (BorrowLogs db') = S (List.length (BorrowLogs library_lent)) /\
  next_id db' = next_id library_lent.
Proof.
  apply (borrow_frame 6000 2%N 4%N (JStr "14") library_lent
           (mkBook 2%N (JStr "Emma") (JStr "Austen") (JStr "Unknown") JNull JNull
              (JStr "/uploads/default-book.jpg") Available None None 0 2000 2000)
           (mkMember 4%N (JStr "Bob") (JStr "b@x.com") (JStr "student") [] 4000 None));
    reflexivity.
Defined.

(** ** Identifiers *)

Lemma ids_wf_ok db :
  ids_wf db <->
  ids_ok (map book_id (Books db)) (next_id db) /\
  ids_ok (map member_id (Members db)) (next_id db).
Proof.
  unfold ids_wf, ids_ok. rewrite !Forall_map. tauto.
Qed.

Lemma ids_ok_mono ids n n' : (n <= n')%N -> ids_ok ids n -> ids_ok ids n'.
Proof.
  intros Hn [Hd Hf]. split; [exact Hd|].
  eapply Forall_impl; [|exact Hf]. intros i Hi. simpl in Hi. lia.
Qed.

Lemma ids_ok_fresh ids n : ids_ok ids n -> ~ In n ids.
Proof.
  intros [_ Hf] Hin. rewrite Forall_forall in Hf. specialize (Hf n Hin). simpl in Hf. lia.
Qed.

Lemma ids_ok_snoc ids n : ids_ok ids n -> ids_ok (ids ++ [n]) (N.succ n).
Proof.
  intros H. pose proof (ids_ok_fresh ids n H) as Hfresh. destruct H as [Hd Hf].
  split.
  - apply NoDup_app; [exact Hd | repeat constructor; intros [] |].
    intros x Hx [<-|[]]. exact (Hfresh Hx).
  - apply Forall_app. split.
    + eapply Forall_impl; [|exact Hf]. intros i Hi. simpl in Hi. lia.
    + repeat constructor. lia.
Qed.

Lemma ids_ok_deleteOne {A} (key : A -> ObjectId) p l n :
  ids_ok (map key l) n -> ids_ok (map key (deleteOne p l)) n.
Proof.
  intros [Hd Hf]. split; [apply NoDup_map_deleteOne; exact Hd|].
  rewrite Forall_map in *. apply Forall_deleteOne. exact Hf.
Qed.

Lemma dollar_set_id u now b : book_id (dollar_set u now b) = book_id b.
Proof.
  unfold dollar_set, set_updatedAt. cbn [book_id].
  apply (fold_set_field_loan_fields u b).
Qed.

Lemma handle_ids_wf now req db : ids_wf db -> ids_wf (snd (handle now req db)).
Proof.
  rewrite !ids_wf_ok. intros [Hb Hm].
  destruct req as [data|id data|id|data|id data|id|bId mId days|bId mId];
    cbn [handle].
  - unfold post_books.
    destruct (negb (truthy (d_title data)) || negb (truthy (d_author data)));
      cbn [snd]; [tauto|].
    cbn [insert_book Books Members next_id]. rewrite map_app. cbn [map book_id].
    split; [apply ids_ok_snoc; exact Hb|].
    apply (ids_ok_mono _ (next_id db)); [lia | exact Hm].
  - unfold put_books. destruct id as [i|]; cbn [snd]; [|tauto].
    pose proof (map_updateOne book_id (by_book_id i)
                  (dollar_set (remove_undefined (build_update data)) now) (Books db)
                  (dollar_set_id _ now)) as Hmap.
    destruct (updateOne (by_book_id i) _ (Books db)) as [n bs]. cbn [snd] in Hmap.
    destruct (Nat.eqb n 0); cbn [snd with_books Books Members next_id];
      rewrite Hmap; tauto.
  - unfold delete_books. destruct id as [i|]; cbn [snd]; [|tauto].
    destruct (findBook i db) as [bk|]; cbn [snd]; [|tauto].
    destruct (cover_testable (cover bk));
      cbn [snd with_books Books Members next_id]; [|tauto].
    split; [apply ids_ok_deleteOne; exact Hb | exact Hm].
  - unfold post_members.
    destruct (negb (truthy (d_name data)) || negb (truthy (d_email data)));
      cbn [snd]; [tauto|].
    destruct (findOne _ (Members db)); cbn [snd]; [tauto|].
    cbn [insert_member Books Members next_id]. rewrite map_app. cbn [map member_id].
    split; [|apply ids_ok_snoc; exact Hm].
    apply (ids_ok_mono _ (next_id db)); [lia | exact Hb].
  - unfold put_members. destruct id as [i|]; cbn [snd]; [|tauto].
    cbn [with_members Books Members next_id].
    rewrite map_updateOne by (intros x; reflexivity). tauto.
  - unfold delete_members. destruct id as [i|]; cbn [snd]; [|tauto].
    cbn [with_members Books Members next_id].
    split; [exact Hb | apply ids_ok_deleteOne; exact Hm].
  - unfold borrow.
    destruct (findBook bId db) as [book|]; cbn [snd]; [|tauto].
    destruct (findMember mId db) as [member|]; cbn [snd]; [|tauto].
    destruct (Status_eqb (status book) Borrowed); cbn [snd]; [tauto|].
    cbn [insert_log with_members with_books Books Members next_id].
    rewrite !map_updateOne by (intros x; reflexivity). tauto.
  - unfold return_book.
    destruct (findBook bId db) as [book|]; cbn [snd]; [|tauto].
    destruct (negb (Status_eqb (status book) Borrowed)); cbn [snd]; [tauto|].
    cbn [with_logs with_members with_books Books Members next_id].
    rewrite !map_updateOne by (intros x; reflexivity). tauto.
Qed.

Lemma run_ids_wf history : forall db, ids_wf db -> ids_wf (run history db).
Proof.
  induction history as [|[now req] rest IH]; intros db H; simpl; [exact H|].
  apply IH. apply handle_ids_wf. exact H.
Qed.

Lemma empty_db_ids_wf : ids_wf empty_db.
Proof. unfold ids_wf, empty_db. simpl. repeat split; constructor. Qed.

Lemma ids_wf_findBook_lt db i b : ids_wf db -> findBook i db = Some b -> (i < next_id db)%N.
Proof.
  intros (_ & _ & Hf & _) H. pose proof (findBook_id i db b H) as Hid.
  unfold findBook, findOne in H. apply find_some in H. destruct H as [Hin _].
  rewrite Forall_forall in Hf. specialize (Hf b Hin). simpl in Hf. lia.
Qed.

Lemma ids_wf_fresh_book db i : ids_wf db -> (next_id db <= i)%N -> findBook i db = None.
Proof.
  intros Hwf Hle. destruct (findBook i db) as [b|] eqn:E; [|reflexivity].
  pose proof (ids_wf_findBook_lt db i b Hwf E). lia.
Qed.

Lemma ids_wf_fresh_member db i : ids_wf db -> (next_id db <= i)%N -> findMember i db = None.
Proof.
  intros (_ & _ & _ & Hf) Hle. destruct (findMember i db) as [m|] eqn:E; [|reflexivity].
  pose proof (findMember_id i db m E) as Hid.
  unfold findMember, findOne in E. apply find_some in E. destruct E as [Hin _].
  rewrite Forall_forall in Hf. specialize (Hf m Hin). simpl in Hf. lia.
Qed.

(** X6. Along every history of requests from the empty database, no two
    books and no two members share an identifier, and every identifier in
    use is below the next one to be handed out. *)
Theorem identifiers_unique :
  ids_wf empty_db /\
  forall db history,
    ids_wf db ->
    NoDup (map book_id (Books (run history db))) /\
    NoDup (map member_id (Members (run history db))) /\
    (forall i b, findBook i (run history db) = Some b ->
                 (i < next_id (run history db))%N) /\
    (forall i m, findMember i (run history db) = Some m ->
                 (i < next_id (run history db))%N).
Proof.
  split; [exact empty_db_ids_wf|].
  intros db history H. pose proof (run_ids_wf history db H) as Hr.
  split; [apply Hr|]. split; [apply Hr|]. split.
  - intros i b Hb. exact (ids_wf_findBook_lt _ i b Hr Hb).
  - intros i m Hm. destruct (N.lt_ge_cases i (next_id (run history db))) as [Hlt|Hge];
      [exact Hlt|].
    rewrite (ids_wf_fresh_member _ i Hr Hge) in Hm. discriminate.
Qed.

Lemma identifiers_unique_witness :
  NoDup (map book_id (Books library_lent)) /\
  NoDup (map member_id (Members library_lent)) /\
  (forall i b, findBook i library_lent = Some b -> (i < next_id library_lent)%N) /\
  (forall i m, findMember i library_lent = Some m -> (i < next_id library_lent)%N).
Proof.
  apply (proj2 identifiers_unique empty_db
           [(1000, PostBooks dune); (2000, PostBooks emma);
            (3000, PostMembers alice); (4000, PostMembers bob);
            (5000, PostBorrow 1%N 3%N JUndef)]).
  exact (proj1 identifiers_unique).
Defined.

(** ** Catalog and membership: create, delete, update *)

(** X7. Creating a book with a title and an author is answered 201 with a
    new identifier; looking that identifier up yields the book with the
    defaults filled in (genre "Unknown", the placeholder cover, status
    Available, no borrower, no due date, borrowCount 0), and every book that
    was in the catalog is found as before.  Without a title or an author the
    answer is 400 and nothing is stored. *)
Theorem post_books_lookup :
  forall now data db,
    ids_wf db ->
    (truthy (d_title data) = true -> truthy (d_author data) = true ->
     fst (post_books now data db) = mkResponse 201 (BId (next_id db)) /\
     findBook (next_id db) (snd (post_books now data db))
     = Some (mkBook (next_id db) (d_title data) (d_author data)
               (js_or (d_genre data) (JStr "Unknown"))
               (parseInt_or_null (d_year data))
               (js_or (d_isbn data) JNull)
               (js_or (d_cover data) (JStr "/uploads/default-book.jpg"))
               Available None None 0 now now) /\
     (forall j b, findBook j db = Some b ->
                  findBook j (snd (post_books now data db)) = Some b)) /\
    (truthy (d_title data) = false \/ truthy (d_author data) = false ->
     post_books now data db = (sendError 400 "Title and author are required", db)).
Proof.
  intros now data db Hwf. unfold post_books. split.
  - intros -> ->. cbn [negb orb fst snd]. split; [reflexivity|]. split.
    + unfold findBook, findOne. cbn [insert_book Books].
      rewrite find_app_new.
      * unfold by_book_id. cbn [book_id]. rewrite N.eqb_refl. reflexivity.
      * apply (ids_wf_fresh_book db (next_id db) Hwf). lia.
    + intros j b Hb. unfold findBook, findOne. cbn [insert_book Books].
      apply find_app_old. exact Hb.
  - intros [H|H]; rewrite H; cbn [negb orb]; [reflexivity|].
    rewrite orb_true_r. reflexivity.
Qed.

Lemma post_books_lookup_witness :
  fst (post_books 9000 emma library_lent) = mkResponse 201 (BId (next_id library_lent)) /\
  findBook (next_id library_lent) (snd (post_books 9000 emma library_lent))
  = Some (mkBook (next_id library_lent) (d_title emma) (d_author emma)
            (js_or (d_genre emma) (JStr "Unknown"))
            (parseInt_or_null (d_year emma))
            (js_or (d_isbn emma) JNull)
            (js_or (d_cover emma) (JStr "/uploads/default-book.jpg"))
            Available None None 0 9000 9000) /\
  (forall j b, findBook j library_lent = Some b ->
               findBook j (snd (post_books 9000 emma library_lent)) = Some b).
Proof.
  apply (proj1 (post_books_lookup 9000 emma library_lent
                  (run_ids_wf [(1000, PostBooks dune); (2000, PostBooks emma);
                               (3000, PostMembers alice); (4000, PostMembers bob);
                               (5000, PostBorrow 1%N 3%N JUndef)]
                     empty_db empty_db_ids_wf)));
    reflexivity.
Defined.

(** The year stored is what [parseInt] reads: 1965 for "1965", for the same
    text after a no-break space and for "1965 (reprint)"; the nearest double
    for an integer above [2^53]; an infinity for a string of 310 digits;
    null for "0" and for a text with no integer at its start. *)
Example post_books_year_sample :
  let nbsp := String (ascii_of_N 194) (String (ascii_of_N 160) EmptyString) in
  let stored y :=
    option_map year
      (findBook 5%N
         (snd (post_books 9000
                 (mkBookData (JStr "Emma") (JStr "Austen") JUndef y JUndef JUndef)
                 library))) in
  stored (JStr "1965") = Some (JNum 1965) /\
  stored (JStr (nbsp ++ "1965")) = Some (JNum 1965) /\
  stored (JStr "1965 (reprint)") = Some (JNum 1965) /\
  stored (JStr "9007199254740993") = Some (JNum 9007199254740992) /\
  stored (JStr (String.concat EmptyString (repeat "9"%string 310))) = Some (JInf false) /\
  stored (JStr "0") = Some JNull /\
  stored (JStr "about 1965") = Some JNull.
Proof. vm_compute. repeat split. Qed.

Lemma cover_testable_true v :
  (exists s, v = JStr s) \/ truthy v = false -> cover_testable v = true.
Proof.
  intros [[s ->]|H]; [reflexivity|].
  destruct v; cbn in *; try reflexivity; rewrite H; reflexivity.
Qed.

Lemma cover_testable_false v :
  truthy v = true -> (forall s, v <> JStr s) -> cover_testable v = false.
Proof.
  intros Ht Hs. destruct v; cbn in *; try discriminate; try (rewrite Ht; reflexivity).
  - exfalso. exact (Hs s eq_refl).
  - reflexivity.
Qed.

(** X8. Deleting an existing book whose cover is a string (or is falsy) is
    answered 200 whatever its status; the book is then no longer found,
    every other book is found as before, and neither the members nor the
    ledger are touched, so a borrower keeps the [borrowedBooks] entry of a
    deleted book.  When the stored cover is a truthy value that is not a
    string, the cover test throws: the answer is 500 and nothing is deleted.
    An unknown identifier is answered 404 and a missing one 400. *)
Theorem delete_books_lookup :
  forall db i,
    ids_wf db ->
    (forall b, findBook i db = Some b ->
       (exists s, cover b = JStr s) \/ truthy (cover b) = false ->
       fst (delete_books (Some i) db) = ok 200 "Book deleted successfully" /\
       findBook i (snd (delete_books (Some i) db)) = None /\
       (forall j, j <> i -> findBook j (snd (delete_books (Some i) db)) = findBook j db) /\
       Members (snd (delete_books (Some i) db)) = Members db /\
       BorrowLogs (snd (delete_books (Some i) db)) = BorrowLogs db) /\
    (forall b, findBook i db = Some b ->
       truthy (cover b) = true -> (forall s, cover b <> JStr s) ->
       delete_books (Some i) db = (sendError 500 "Internal server error", db)) /\
    (findBook i db = None ->
       delete_books (Some i) db = (sendError 404 "Book not found", db)) /\
    delete_books None db = (sendError 400 "Book ID is required", db).
Proof.
  intros db i Hwf. unfold delete_books. split; [|split; [|split; [|reflexivity]]].
  - intros b -> Hc. rewrite (cover_testable_true _ Hc). cbn [fst snd].
    split; [reflexivity|]. split; [|split; [|split; reflexivity]].
    + unfold findBook, findOne, by_book_id. cbn [with_books Books].
      apply (find_deleteOne_same book_id). apply Hwf.
    + intros j Hne. unfold findBook, findOne. cbn [with_books Books].
      apply find_deleteOne_other. intros x. apply by_book_id_other. exact Hne.
  - intros b -> Ht Hs. rewrite (cover_testable_false _ Ht Hs). reflexivity.
  - intros ->. reflexivity.
Qed.

Lemma library_lent_ids_wf : ids_wf library_lent.
Proof.
  apply (run_ids_wf [(1000, PostBooks dune); (2000, PostBooks emma);
                     (3000, PostMembers alice); (4000, PostMembers bob);
                     (5000, PostBorrow 1%N 3%N JUndef)] empty_db empty_db_ids_wf).
Defined.

Lemma delete_books_lookup_witness :
  fst (delete_books (Some 1%N) library_lent) = ok 200 "Book deleted successfully" /\
  findBook 1%N (snd (delete_books (Some 1%N) library_lent)) = None /\
  (forall j, j <> 1%N ->
     findBook j (snd (delete_books (Some 1%N) library_lent)) = findBook j library_lent) /\
  Members (snd (delete_books (Some 1%N) library_lent)) = Members library_lent /\
  BorrowLogs (snd (delete_books (Some 1%N) library_lent)) = BorrowLogs library_lent.
Proof.
  apply (proj1 (delete_books_lookup library_lent 1%N library_lent_ids_wf)
           (mkBook 1%N (JStr "Dune") (JStr "Herbert") (JStr "Unknown") (JNum 1965)
              (JStr "9780441013593") (JStr "/uploads/default-book.jpg")
              Borrowed (Some 3%N) (Some 604805000) 1 1000 1000)).
  - reflexivity.
  - left. eexists. reflexivity.
Defined.

(** A book created with the cover 5 cannot be deleted. *)
Example delete_books_numeric_cover :
  let db := snd (post_books 9000
                   (mkBookData (JStr "Emma") (JStr "Austen") JUndef JUndef JUndef (JNum 5))
                   library) in
  option_map cover (findBook 5%N db) = Some (JNum 5) /\
  delete_books (Some 5%N) db = (sendError 500 "Internal server error", db).
Proof. split; reflexivity. Qed.

(** X9. Deleting a member is answered 200 whether or not the member exists
    or has open loans; afterwards the member is not found, the other members
    are found as before, and the books and the ledger are untouched, so a
    book the member had borrowed stays Borrowed with that [borrowedBy]. *)
Theorem delete_members_lookup :
  forall db i,
    ids_wf db ->
    fst (delete_members (Some i) db) = ok 200 "Member deleted successfully" /\
    findMember i (snd (delete_members (Some i) db)) = None /\
    (forall j, j <> i ->
       findMember j (snd (delete_members (Some i) db)) = findMember j db) /\
    Books (snd (delete_members (Some i) db)) = Books db /\
    BorrowLogs (snd (delete_members (Some i) db)) = BorrowLogs db.
Proof.
  intros db i Hwf. unfold delete_members. cbn [fst snd].
  split; [reflexivity|]. split; [|split; [|split; reflexivity]].
  - unfold findMember, findOne, by_member_id. cbn [with_members Members].
    apply (find_deleteOne_same member_id). apply Hwf.
  - intros j Hne. unfold findMember, findOne. cbn [with_members Members].
    apply find_deleteOne_other. intros x. apply by_member_id_other. exact Hne.
Qed.

Lemma delete_members_lookup_witness :
  findMember 3%N (snd (delete_members (Some 3%N) library_lent)) = None /\
  option_map borrowedBy (findBook 1%N (snd (delete_members (Some 3%N) library_lent)))
  = Some (Some 3%N).
Proof.
  destruct (delete_members_lookup library_lent 3%N library_lent_ids_wf)
    as (_ & Hnone & _ & Hbooks & _).
  split; [exact Hnone|].
  pose proof (f_equal (fun bs => option_map borrowedBy (findOne (by_book_id 1%N) bs))
                Hbooks) as H.
  etransitivity; [exact H | reflexivity].
Defined.

(** X10. Updating a member never checks the email against the other
    members and never reports an unknown identifier: it is always answered
    200, it rewrites [name], [email] and [role] of the member named (an
    absent value is stored as null), keeps that member's [borrowedBooks], and
    leaves the other members alone.  So a member can be given the email of
    another one, which creating a member refuses. *)
Theorem put_members_no_uniqueness :
  forall now db i j data m1 m2,
    i <> j ->
    findMember i db = Some m1 ->
    findMember j db = Some m2 ->
    d_email data = email m1 ->
    email m1 <> JUndef ->
    let r := put_members now (Some j) data db in
    fst r = ok 200 "Member updated successfully" /\
    findMember i (snd r) = Some m1 /\
    (exists m2', findMember j (snd r) = Some m2' /\
                 email m2' = email m1 /\
                 name m2' = undefined_as_null (d_name data) /\
                 role m2' = undefined_as_null (d_role data) /\
                 borrowedBooks m2' = borrowedBooks m2) /\
    Books (snd r) = Books db /\ BorrowLogs (snd r) = BorrowLogs db.
Proof.
  intros now db i j data m1 m2 Hne H1 H2 He Hu r. subst r.
  unfold put_members. cbn [fst snd]. split; [reflexivity|].
  split; [|split; [|split; reflexivity]].
  - unfold findMember, findOne. cbn [with_members Members].
    rewrite find_updateOne_other; [exact H1 | intros x; reflexivity |].
    intros x. apply by_member_id_other. exact Hne.
  - unfold findMember, findOne. cbn [with_members Members].
    rewrite find_updateOne_same by (intros x Hx; exact Hx).
    unfold findMember, findOne in H2. rewrite H2. cbn [option_map].
    eexists. split; [reflexivity|]. cbn. rewrite He.
    repeat split. destruct (email m1); try reflexivity. congruence.
Qed.

Lemma put_members_no_uniqueness_witness :
  let r := put_members 9000 (Some 4%N)
             (mkMemberData (JStr "Bob") (JStr "a@x.com") (JStr "student")) library in
  fst r = ok 200 "Member updated successfully" /\
  option_map email (findMember 3%N (snd r)) = Some (JStr "a@x.com") /\
  option_map email (findMember 4%N (snd r)) = Some (JStr "a@x.com").
Proof.
  destruct (put_members_no_uniqueness 9000 library 3%N 4%N
              (mkMemberData (JStr "Bob") (JStr "a@x.com") (JStr "student"))
              (mkMember 3%N (JStr "Alice") (JStr "a@x.com") (JStr "student") [] 3000 None)
              (mkMember 4%N (JStr "Bob") (JStr "b@x.com") (JStr "student") [] 4000 None)
              ltac:(discriminate) eq_refl eq_refl eq_refl ltac:(discriminate))
    as (Hr & H1 & (m2' & H2 & He & _) & _).
  intros r. split; [exact Hr|]. split.
  - exact (f_equal (option_map email) H1).
  - exact (eq_trans (f_equal (option_map email) H2) (f_equal Some He)).
Defined.

(** ** How the collections evolve *)

Lemma handle_books_step now req db : books_step db (Books (snd (handle now req db))).
Proof.
  destruct req as [data|id data|id|data|id data|id|bId mId days|bId mId];
    cbn [handle].
  - unfold post_books.
    destruct (negb (truthy (d_title data)) || negb (truthy (d_author data)));
      cbn [snd]; [exact (step_none db)|].
    exact (step_insert db now data).
  - unfold put_books. destruct id as [i|]; cbn [snd]; [|exact (step_none db)].
    pose proof (step_update db i data now) as Hs.
    destruct (updateOne (by_book_id i) _ (Books db)) as [n bs].
    destruct (Nat.eqb n 0); exact Hs.
  - unfold delete_books. destruct id as [i|]; cbn [snd]; [|exact (step_none db)].
    destruct (findBook i db) as [bk|]; cbn [snd]; [|exact (step_none db)].
    destruct (cover_testable (cover bk)); cbn [snd]; [|exact (step_none db)].
    exact (step_delete db i).
  - unfold post_members.
    destruct (negb (truthy (d_name data)) || negb (truthy (d_email data)));
      cbn [snd]; [exact (step_none db)|].
    destruct (findOne _ (Members db)); exact (step_none db).
  - unfold put_members. destruct id; exact (step_none db).
  - unfold delete_members. destruct id; exact (step_none db).
  - unfold borrow.
    destruct (findBook bId db) as [book|]; cbn [snd]; [|exact (step_none db)].
    destruct (findMember mId db) as [member|]; cbn [snd]; [|exact (step_none db)].
    destruct (Status_eqb (status book) Borrowed); cbn [snd]; [exact (step_none db)|].
    exact (step_borrow db bId mId (stored_date (due_date now (borrow_days days)))).
  - unfold return_book.
    destruct (findBook bId db) as [book|]; cbn [snd]; [|exact (step_none db)].
    destruct (negb (Status_eqb (status book) Borrowed)); cbn [snd]; [exact (step_none db)|].
    exact (step_return db bId).
Qed.

Lemma handle_next_id now req db : (next_id db <= next_id (snd (handle now req db)))%N.
Proof.
  destruct req as [data|id data|id|data|id data|id|bId mId days|bId mId];
    cbn [handle].
  - unfold post_books.
    destruct (negb (truthy (d_title data)) || negb (truthy (d_author data)));
      cbn; lia.
  - unfold put_books. destruct id as [i|]; cbn [snd]; [|lia].
    destruct (updateOne (by_book_id i) _ (Books db)) as [n bs].
    destruct (Nat.eqb n 0); cbn; lia.
  - unfold delete_books. destruct id as [i|]; cbn [snd]; [|lia].
    destruct (findBook i db) as [bk|]; [|cbn; lia].
    destruct (cover_testable (cover bk)); cbn; lia.
  - unfold post_members.
    destruct (negb (truthy (d_name data)) || negb (truthy (d_email data)));
      cbn [snd]; [lia|].
    destruct (findOne _ (Members db)); cbn; lia.
  - unfold put_members. destruct id; cbn; lia.
  - unfold delete_members. destruct id; cbn; lia.
  - unfold borrow.
    destruct (findBook bId db) as [book|]; cbn [snd]; [|lia].
    destruct (findMember mId db) as [member|]; cbn [snd]; [|lia].
    destruct (Status_eqb (status book) Borrowed); cbn; lia.
  - unfold return_book.
    destruct (findBook bId db) as [book|]; cbn [snd]; [|lia].
    destruct (negb (Status_eqb (status book) Borrowed)); cbn; lia.
Qed.

Lemma later_book_refl b : later_book b b.
Proof. unfold later_book. repeat split. lia. Qed.

Lemma later_book_trans a b c : later_book a b -> later_book b c -> later_book a c.
Proof. unfold later_book. intros (H1 & H2 & H3) (H4 & H5 & H6). repeat split; try congruence. lia. Qed.

Lemma find_updateOne_cases i i0 (f : Book -> Book) l b' :
  (forall x, book_id (f x) = book_id x) ->
  find (by_book_id i) (snd (updateOne (by_book_id i0) f l)) = Some b' ->
  exists b, find (by_book_id i) l = Some b /\ (b' = b \/ b' = f b).
Proof.
  intros Hid H. destruct (N.eq_dec i i0) as [->|Hne].
  - rewrite find_updateOne_same in H.
    + destruct (find (by_book_id i0) l) as [b|]; [|discriminate].
      injection H as <-. exists b. auto.
    + intros x. unfold by_book_id. rewrite Hid. exact (fun E => E).
  - rewrite find_updateOne_other in H.
    + exists b'. auto.
    + intros x. unfold by_book_id. rewrite Hid. reflexivity.
    + intros x. apply by_book_id_other. exact Hne.
Qed.

Lemma later_book_dollar_set u now b : later_book b (dollar_set u now b).
Proof.
  destruct (fold_set_field_loan_fields u b) as (_ & _ & _ & Hc & Hi & Hd).
  unfold later_book, dollar_set, set_updatedAt. cbn. rewrite Hc, Hi, Hd.
  repeat split. lia.
Qed.

Lemma books_step_find db bs i b' :
  ids_wf db -> books_step db bs ->
  find (by_book_id i) bs = Some b' ->
  (exists b, findBook i db = Some b /\ later_book b b') \/
  (findBook i db = None /\ (next_id db <= i)%N).
Proof.
  intros Hwf Hs Hf. unfold findBook, findOne.
  destruct Hs as [|now data|i0 data now|i0 m due|i0|i0].
  - left. exists b'. split; [exact Hf | apply later_book_refl].
  - destruct (find (by_book_id i) (Books db)) as [b|] eqn:E.
    + rewrite (find_app_old _ _ _ _ E) in Hf. injection Hf as <-.
      left. exists b. split; [reflexivity | apply later_book_refl].
    + rewrite (find_app_new _ _ _ E) in Hf. right. split; [reflexivity|].
      unfold by_book_id, new_book in Hf. cbn [book_id] in Hf.
      destruct (N.eqb_spec (next_id db) i); [lia | discriminate].
  - apply find_updateOne_cases in Hf; [|apply dollar_set_id].
    destruct Hf as [b [Hb [->| ->]]]; left; exists b; split; auto.
    + apply later_book_refl.
    + apply later_book_dollar_set.
  - apply find_updateOne_cases in Hf; [|intros x; reflexivity].
    destruct Hf as [b [Hb [->| ->]]]; left; exists b; split; auto.
    + apply later_book_refl.
    + unfold later_book. cbn. repeat split. lia.
  - apply find_updateOne_cases in Hf; [|intros x; reflexivity].
    destruct Hf as [b [Hb [->| ->]]]; left; exists b; split; auto.
    + apply later_book_refl.
    + unfold later_book. cbn. repeat split. lia.
  - destruct (N.eq_dec i i0) as [->|Hne].
    + unfold by_book_id in Hf.
      rewrite (find_deleteOne_same book_id i0 (Books db)) in Hf by apply Hwf.
      discriminate.
    + rewrite find_deleteOne_other in Hf.
      * left. exists b'. split; [exact Hf | apply later_book_refl].
      * intros x. apply by_book_id_other. exact Hne.
Qed.

Lemma run_find history :
  forall db i b',
    ids_wf db ->
    findBook i (run history db) = Some b' ->
    (exists b, findBook i db = Some b /\ later_book b b') \/
    (findBook i db = None /\ (next_id db <= i)%N).
Proof.
  induction history as [|[now req] rest IH]; intros db i b' Hwf Hf; simpl in Hf.
  - left. exists b'. split; [exact Hf | apply later_book_refl].
  - pose proof (handle_ids_wf now req db Hwf) as Hwf1.
    pose proof (handle_next_id now req db) as Hn.
    destruct (IH _ i b' Hwf1 Hf) as [[b1 [Hb1 Hl1]]|[Hnone Hge]].
    + destruct (books_step_find db _ i b1 Hwf (handle_books_step now req db) Hb1)
        as [[b [Hb Hl]]|[Hn0 Hg0]].
      * left. exists b. split; [exact Hb | exact (later_book_trans _ _ _ Hl Hl1)].
      * right. split; assumption.
    + right. split; [|lia]. apply ids_wf_fresh_book; [exact Hwf | lia].
Qed.

(** X11. [borrowCount] is a lifetime counter: however many requests are
    served, a book that existed before and still exists afterwards under
    the same identifier is the same document (same [createdAt]) and its
    [borrowCount] has not decreased; identifiers are never reused. *)
Theorem borrowCount_never_decreases :
  forall db history i b b',
    ids_wf db ->
    findBook i db = Some b ->
    findBook i (run history db) = Some b' ->
    borrowCount b <= borrowCount b' /\ createdAt b' = createdAt b.
Proof.
  intros db history i b b' Hwf Hb Hb'.
  destruct (run_find history db i b' Hwf Hb') as [[b0 [Hb0 Hl]]|[Hnone _]].
  - rewrite Hb in Hb0. injection Hb0 as <-. destruct Hl as (_ & H1 & H2). auto.
  - congruence.
Qed.

Lemma library_ids_wf : ids_wf library.
Proof.
  apply (run_ids_wf [(1000, PostBooks dune); (2000, PostBooks emma);
                     (3000, PostMembers alice); (4000, PostMembers bob)]
           empty_db empty_db_ids_wf).
Defined.

Lemma borrowCount_never_decreases_witness :
  0 <= 2 /\ 1000 = 1000.
Proof.
  apply (borrowCount_never_decreases library
           [(5000, PostBorrow 1%N 3%N JUndef); (6000, PostReturn 1%N 4%N);
            (7000, PutBooks (Some 1%N) emma); (8000, PostBorrow 1%N 4%N (JStr "3"))]
           1%N
           (mkBook 1%N (JStr "Dune") (JStr "Herbert") (JStr "Unknown") (JNum 1965)
              (JStr "9780441013593") (JStr "/uploads/default-book.jpg")
              Available None None 0 1000 1000)
           (mkBook 1%N (JStr "Emma") (JStr "Austen") (JStr "Unknown") JNull JNull
              (JStr "/uploads/default-book.jpg")
              Borrowed (Some 4%N) (Some 259208000) 2 1000 7000)
           library_ids_wf); reflexivity.
Defined.

(** ** The ledger *)

Lemma later_loan_refl l : later_loan l l.
Proof. unfold later_loan. repeat split. Qed.

Lemma later_loan_trans a b c : later_loan a b -> later_loan b c -> later_loan a c.
Proof.
  unfold later_loan. intros (H1 & H2 & H3 & H4 & H5) (G1 & G2 & G3 & G4 & G5).
  repeat split; try congruence.
  intros Ha. rewrite <- (H5 Ha). apply G5. rewrite (H5 Ha). exact Ha.
Qed.

Lemma handle_ledger now req db n l :
  nth_error (BorrowLogs db) n = Some l ->
  exists l', nth_error (BorrowLogs (snd (handle now req db))) n = Some l' /\
             later_loan l l'.
Proof.
  intros Hn.
  assert (Hsame : exists l', nth_error (BorrowLogs db) n = Some l' /\ later_loan l l')
    by (exists l; split; [exact Hn | apply later_loan_refl]).
  destruct req as [data|id data|id|data|id data|id|bId mId days|bId mId];
    cbn [handle].
  - unfold post_books.
    destruct (negb (truthy (d_title data)) || negb (truthy (d_author data)));
      exact Hsame.
  - unfold put_books. destruct id as [i|]; [|exact Hsame].
    destruct (updateOne (by_book_id i) _ (Books db)) as [k bs].
    destruct (Nat.eqb k 0); exact Hsame.
  - unfold delete_books. destruct id as [i|]; [|exact Hsame].
    destruct (findBook i db) as [bk|]; [|exact Hsame].
    destruct (cover_testable (cover bk)); exact Hsame.
  - unfold post_members.
    destruct (negb (truthy (d_name data)) || negb (truthy (d_email data)));
      [exact Hsame|].
    destruct (findOne _ (Members db)); exact Hsame.
  - unfold put_members. destruct id; exact Hsame.
  - unfold delete_members. destruct id; exact Hsame.
  - unfold borrow.
    destruct (findBook bId db) as [book|]; [|exact Hsame].
    destruct (findMember mId db) as [member|]; [|exact Hsame].
    destruct (Status_eqb (status book) Borrowed); [exact Hsame|].
    cbn [snd insert_log BorrowLogs with_members with_books].
    exists l. split; [|apply later_loan_refl].
    rewrite nth_error_app1; [exact Hn|].
    apply nth_error_Some. congruence.
  - unfold return_book.
    destruct (findBook bId db) as [book|]; [|exact Hsame].
    destruct (negb (Status_eqb (status book) Borrowed)); [exact Hsame|].
    cbn [snd with_logs BorrowLogs with_members with_books].
    match goal with
    | |- exists l', nth_error (snd (updateOne ?p ?f _)) _ = _ /\ _ =>
        destruct (nth_error_updateOne p f (BorrowLogs db) n l Hn) as [H|[Hp H]]
    end.
    + exists l. split; [exact H | apply later_loan_refl].
    + eexists. split; [exact H|]. unfold later_loan. cbn. repeat split.
      intros Ho. unfold open_loan in Hp. destruct (returnedOn l); [|congruence].
      rewrite andb_false_r in Hp. discriminate.
Qed.

Lemma run_ledger history :
  forall db n l,
    nth_error (BorrowLogs db) n = Some l ->
    exists l', nth_error (BorrowLogs (run history db)) n = Some l' /\ later_loan l l'.
Proof.
  induction history as [|[now req] rest IH]; intros db n l Hn; simpl.
  - exists l. split; [exact Hn | apply later_loan_refl].
  - destruct (handle_ledger now req db n l Hn) as [l1 [H1 L1]].
    destruct (IH _ n l1 H1) as [l2 [H2 L2]].
    exists l2. split; [exact H2 | exact (later_loan_trans _ _ _ L1 L2)].
Qed.

(** X12. The ledger is append-only: whatever requests follow, a record stays
    at its position with the same book, member, borrow time and due date;
    only an open record can change, by being closed, and a closed record is
    never modified or removed (not even when its book or member is deleted). *)
Theorem ledger_append_only :
  forall db history n l,
    nth_error (BorrowLogs db) n = Some l ->
    exists l',
      nth_error (BorrowLogs (run history db)) n = Some l' /\
      l_bookId l' = l_bookId l /\ l_memberId l' = l_memberId l /\
      l_borrowedOn l' = l_borrowedOn l /\ l_dueDate l' = l_dueDate l /\
      (returnedOn l <> None -> l' = l).
Proof.
  intros db history n l Hn.
  destruct (run_ledger history db n l Hn) as [l' [H L]].
  exists l'. split; [exact H | exact L].
Qed.

Lemma ledger_append_only_witness :
  exists l',
    nth_error (BorrowLogs (run [(700000000, PostReturn 1%N 3%N);
                                (700000001, DeleteBooks (Some 1%N));
                                (700000002, DeleteMembers (Some 3%N))] library_lent)) 0
    = Some l' /\
    l_bookId l' = 1%N /\ l_memberId l' = 3%N /\
    l_borrowedOn l' = 5000 /\ l_dueDate l' = 604805000 /\
    (@None Z <> None -> l' = mkLoan 1%N 3%N 5000 604805000 None 0).
Proof.
  apply (ledger_append_only library_lent
           [(700000000, PostReturn 1%N 3%N); (700000001, DeleteBooks (Some 1%N));
            (700000002, DeleteMembers (Some 3%N))]
           0%nat (mkLoan 1%N 3%N 5000 604805000 None 0)).
  reflexivity.
Defined.

Lemma pull_with_entry member bId t due :
  without_book (with_entry member (mkEntry bId t due)) bId = without_book member bId.
Proof.
  unfold without_book, with_entry. cbn.
  rewrite filter_app. cbn. rewrite N.eqb_refl. cbn. rewrite app_nil_r. reflexivity.
Qed.

(** X13. Borrow then return by the same member, when the ledger held no
    open record for that book and member: the record the borrow appended is
    the one the return closes, with [returnedOn] the return time and the fine
    that is answered, both computed from the due date the borrow stored; the
    member's [borrowedBooks] is what it was before the borrow, less any older
    entry of that book.  The stored due date is the borrow time plus [d]
    days when [days] is the non-zero integer [d] and both the borrow time and
    that sum are valid dates; it is the epoch when the sum is not a valid
    date. *)
Theorem borrow_return_ledger :
  forall db now1 now2 bId mId days book member,
    findBook bId db = Some book ->
    findMember mId db = Some member ->
    status book = Available ->
    find (open_loan bId mId) (BorrowLogs db) = None ->
    let due := stored_date (due_date now1 (borrow_days days)) in
    let db1 := snd (borrow now1 bId mId days db) in
    let r := return_book now2 bId mId db1 in
    fst r = mkResponse 200 (BFine (compute_fine now2 due)) /\
    BorrowLogs (snd r)
    = BorrowLogs db ++ [mkLoan bId mId now1 due (Some now2) (compute_fine now2 due)] /\
    findMember mId (snd r) = Some (without_book member bId) /\
    (forall d, days = JNum d -> d <> 0 ->
       Z.abs now1 <= 8640000000000000 ->
       Z.abs (now1 + d * (86400 * 1000)) <= 8640000000000000 ->
       due = now1 + d * (86400 * 1000)) /\
    (due_date now1 (borrow_days days) = None -> due = 0).
Proof.
  intros db now1 now2 bId mId days book member Hb Hm Hs Hopen due db1 r.
  pose proof (borrow_findBook now1 bId mId days db book member Hb Hm Hs) as HB.
  pose proof (borrow_findMember now1 bId mId days db book member Hb Hm Hs) as HM.
  fold db1 in HB, HM. fold due in HB, HM.
  assert (HL : BorrowLogs db1 = BorrowLogs db ++ [mkLoan bId mId now1 due None 0]).
  { subst db1. rewrite (borrow_unfold now1 bId mId days db book member Hb Hm Hs).
    reflexivity. }
  subst r. rewrite (return_unfold now2 bId mId db1 _ HB eq_refl).
  cbn [fst snd BorrowLogs borrowed_copy dueDate Date_of].
  split; [reflexivity|]. split; [|split; [|split]].
  - rewrite HL. rewrite updateOne_app_fresh; [reflexivity | exact Hopen |].
    unfold open_loan. cbn. rewrite !N.eqb_refl. reflexivity.
  - unfold findMember, findOne. cbn [Members].
    rewrite find_updateOne_same by (intros x Hx; exact Hx).
    unfold findMember, findOne in HM. rewrite HM. cbn [option_map].
    rewrite pull_with_entry. reflexivity.
  - intros d -> Hd Hn Hsum. unfold due.
    assert (H53 : 2 ^ 53 = 9007199254740992) by reflexivity.
    rewrite borrow_days_JNum by lia.
    rewrite (due_date_exact now1 d Hn Hsum). reflexivity.
  - intros E. unfold due. rewrite E. reflexivity.
Qed.

Lemma borrow_return_ledger_witness :
  let due := stored_date (due_date 6000 (borrow_days (JStr "2"))) in
  let db1 := snd (borrow 6000 2%N 4%N (JStr "2") library_lent) in
  let r := return_book 400000000 2%N 4%N db1 in
  fst r = mkResponse 200 (BFine (compute_fine 400000000 due)) /\
  BorrowLogs (snd r)
  = BorrowLogs library_lent
    ++ [mkLoan 2%N 4%N 6000 due (Some 400000000) (compute_fine 400000000 due)] /\
  findMember 4%N (snd r)
  = Some (without_book
            (mkMember 4%N (JStr "Bob") (JStr "b@x.com") (JStr "student") [] 4000 None) 2%N) /\
  (forall d, JStr "2" = JNum d -> d <> 0 ->
     Z.abs 6000 <= 8640000000000000 ->
     Z.abs (6000 + d * (86400 * 1000)) <= 8640000000000000 ->
     due = 6000 + d * (86400 * 1000)) /\
  (due_date 6000 (borrow_days (JStr "2")) = None -> due = 0).
Proof.
  apply (borrow_return_ledger library_lent 6000 400000000 2%N 4%N (JStr "2")
           (mkBook 2%N (JStr "Emma") (JStr "Austen") (JStr "Unknown") JNull JNull
              (JStr "/uploads/default-book.jpg") Available None None 0 2000 2000)
           (mkMember 4%N (JStr "Bob") (JStr "b@x.com") (JStr "student") [] 4000 None));
    reflexivity.
Defined.

(** A loan of a hundred million days has no valid due date: the epoch is
    stored, and a return one day after the borrow is fined as if the book
    had been due in 1970. *)
Example borrow_return_invalid_due :
  let db1 := snd (borrow 1700000000000 2%N 4%N (JNum 100000000) library_lent) in
  let r := return_book 1700086400000 2%N 4%N db1 in
  due_date 1700000000000 (borrow_days (JNum 100000000)) = None /\
  fst r = mkResponse 200 (BFine 98385) /\
  nth_error (BorrowLogs (snd r)) 1
  = Some (mkLoan 2%N 4%N 1700000000000 0 (Some 1700086400000) 98385).
Proof. vm_compute. repeat split. Qed.

(** X14. A return by a member who has no open ledger record for the book
    (for instance a member other than the borrower) still succeeds and makes
    the book Available, but writes nothing to the ledger: the borrower's
    record stays open. *)
Theorem return_without_open_loan :
  forall db now bId m book,
    findBook bId db = Some book ->
    status book = Borrowed ->
    find (open_loan bId m) (BorrowLogs db) = None ->
    code (fst (return_book now bId m db)) = 200 /\
    BorrowLogs (snd (return_book now bId m db)) = BorrowLogs db /\
    findBook bId (snd (return_book now bId m db)) = Some (returned_copy book).
Proof.
  intros db now bId m book Hb Hs Hopen.
  split; [|split].
  - rewrite (return_book_response now bId m db book Hb Hs). reflexivity.
  - rewrite (return_unfold now bId m db book Hb Hs). cbn [snd BorrowLogs].
    rewrite (updateOne_no_match _ _ _ Hopen). reflexivity.
  - apply return_findBook; assumption.
Qed.

Lemma return_without_open_loan_witness :
  code (fst (return_book 7000 1%N 4%N library_lent)) = 200 /\
  BorrowLogs (snd (return_book 7000 1%N 4%N library_lent)) = BorrowLogs library_lent /\
  findBook 1%N (snd (return_book 7000 1%N 4%N library_lent))
  = Some (returned_copy
            (mkBook 1%N (JStr "Dune") (JStr "Herbert") (JStr "Unknown") (JNum 1965)
               (JStr "9780441013593") (JStr "/uploads/default-book.jpg")
               Borrowed (Some 3%N) (Some 604805000) 1 1000 1000)).
Proof.
  apply (return_without_open_loan library_lent 7000 1%N 4%N); reflexivity.
Defined.

(** ** The shape of stored books *)

Lemma js_or_truthy v d : truthy d = true -> truthy (js_or v d) = true.
Proof. intros Hd. unfold js_or. destruct (truthy v) eqn:E; [exact E | exact Hd]. Qed.

Lemma parseInt_or_null_shape v :
  parseInt_or_null v = JNull \/
  (exists z, z <> 0 /\ parseInt_or_null v = JNum z) \/
  exists n, parseInt_or_null v = JInf n.
Proof.
  unfold parseInt_or_null. destruct (parseInt v) as [|z|n].
  - left. reflexivity.
  - destruct (Z.eqb_spec z 0); [left; reflexivity|].
    right. left. exists z. split; [assumption | reflexivity].
  - right. right. exists n. reflexivity.
Qed.

Lemma js_or_null_shape v : js_or v JNull = JNull \/ truthy (js_or v JNull) = true.
Proof. unfold js_or. destruct (truthy v) eqn:E; [right; exact E | left; reflexivity]. Qed.

Lemma book_shape_new now data id : book_shape (new_book now data id).
Proof.
  unfold book_shape, new_book. cbn.
  split; [apply js_or_truthy; reflexivity|].
  split; [apply parseInt_or_null_shape|].
  split; [apply js_or_null_shape | lia].
Qed.

Lemma book_shape_dollar_set data now b :
  book_shape b -> book_shape (dollar_set (remove_undefined (build_update data)) now b).
Proof.
  intros (Hc & _ & _ & Hn). rewrite dollar_set_update. unfold book_shape. cbn.
  split; [destruct (truthy (d_cover data)) eqn:E; [exact E | exact Hc]|].
  split; [apply parseInt_or_null_shape|].
  split; [apply js_or_null_shape | exact Hn].
Qed.

Lemma books_step_shape db bs :
  Forall book_shape (Books db) -> books_step db bs -> Forall book_shape bs.
Proof.
  intros H Hs. destruct Hs as [|now data|i data now|i m due|i|i].
  - exact H.
  - apply Forall_app. split; [exact H|].
    constructor; [apply book_shape_new | constructor].
  - apply Forall_updateOne; [|exact H]. intros x. apply book_shape_dollar_set.
  - apply Forall_updateOne; [|exact H].
    intros x (Hc & Hy & Hi & Hn). unfold book_shape. cbn.
    split; [exact Hc | split; [exact Hy | split; [exact Hi | lia]]].
  - apply Forall_updateOne; [|exact H].
    intros x (Hc & Hy & Hi & Hn). unfold book_shape. cbn.
    split; [exact Hc | split; [exact Hy | split; [exact Hi | exact Hn]]].
  - apply Forall_deleteOne. exact H.
Qed.

Lemma run_shape history :
  forall db, Forall book_shape (Books db) -> Forall book_shape (Books (run history db)).
Proof.
  induction history as [|[now req] rest IH]; intros db H; simpl; [exact H|].
  apply IH. apply (books_step_shape db); [exact H | apply handle_books_step].
Qed.

(** X15. Every book the handlers store has a truthy cover, a year that is
    null, a non-zero integer or an infinity (what [parseInt] makes of a digit
    string beyond the range of a double), an ISBN that is null or a truthy
    value, and a [borrowCount] that is not negative; this holds after any
    sequence of requests from the empty database. *)
Theorem stored_book_shape :
  forall history b,
    In b (Books (run history empty_db)) ->
    truthy (cover b) = true /\
    (year b = JNull \/ (exists z, z <> 0 /\ year b = JNum z) \/
   exists n, year b = JInf n) /\
    (isbn b = JNull \/ truthy (isbn b) = true) /\
    0 <= borrowCount b.
Proof.
  intros history b Hin.
  pose proof (run_shape history empty_db (Forall_nil _)) as H.
  rewrite Forall_forall in H. exact (H b Hin).
Qed.

Lemma stored_book_shape_witness :
  truthy (JStr "/uploads/default-book.jpg") = true /\
  (JNum 1965 = JNull \/ (exists z, z <> 0 /\ JNum 1965 = JNum z) \/
   exists n, JNum 1965 = JInf n) /\
  (JStr "9780441013593" = JNull \/ truthy (JStr "9780441013593") = true) /\
  0 <= 1.
Proof.
  apply (stored_book_shape
           [(1000, PostBooks dune); (2000, PostBooks emma);
            (3000, PostMembers alice); (4000, PostMembers bob);
            (5000, PostBorrow 1%N 3%N JUndef)]
           (mkBook 1%N (JStr "Dune") (JStr "Herbert") (JStr "Unknown") (JNum 1965)
              (JStr "9780441013593") (JStr "/uploads/default-book.jpg")
              Borrowed (Some 3%N) (Some 604805000) 1 1000 1000)).
  left. reflexivity.
Defined.

(** X17. An update stores whatever [title], [author] and [genre] the
    request carries, null and the empty string included, although creating a
    book refuses a request whose title is falsy; the cover is replaced only
    by a truthy value, and [updatedAt] becomes the time of the update. *)
Theorem put_books_overwrites :
  forall now i data db b,
    findBook i db = Some b ->
    (truthy (d_title data) = false ->
     fst (post_books now data db) = sendError 400 "Title and author are required") /\
    exists b', findBook i (snd (put_books now (Some i) data db)) = Some b' /\
      (d_title data <> JUndef -> title b' = d_title data) /\
      (d_author data <> JUndef -> author b' = d_author data) /\
      (d_genre data <> JUndef -> genre b' = d_genre data) /\
      (truthy (d_cover data) = true -> cover b' = d_cover data) /\
      (truthy (d_cover data) = false -> cover b' = cover b) /\
      updatedAt b' = now.
Proof.
  intros now i data db b Hb. split.
  - intros Ht. unfold post_books. rewrite Ht. reflexivity.
  - destruct (put_books_found now i data db b Hb) as (_ & Hf & _).
    eexists. split; [exact Hf|]. rewrite dollar_set_update. cbn.
    repeat split.
    + intros H. destruct (d_title data); try reflexivity. congruence.
    + intros H. destruct (d_author data); try reflexivity. congruence.
    + intros H. destruct (d_genre data); try reflexivity. congruence.
    + intros ->. reflexivity.
    + intros ->. reflexivity.
Qed.

Lemma put_books_overwrites_witness :
  exists b',
    findBook 1%N (snd (put_books 9000 (Some 1%N)
                         (mkBookData (JStr "") JNull JUndef JUndef JUndef (JStr "")) library))
    = Some b' /\
    title b' = JStr "" /\ author b' = JNull /\
    cover b' = JStr "/uploads/default-book.jpg" /\ updatedAt b' = 9000.
Proof.
  destruct (proj2 (put_books_overwrites 9000 1%N
              (mkBookData (JStr "") JNull JUndef JUndef JUndef (JStr "")) library
              (mkBook 1%N (JStr "Dune") (JStr "Herbert") (JStr "Unknown") (JNum 1965)
                 (JStr "9780441013593") (JStr "/uploads/default-book.jpg")
                 Available None None 0 1000 1000) eq_refl))
    as (b' & Hf & Ht & Ha & _ & _ & Hc & Hu).
  exists b'. split; [exact Hf|].
  split; [apply Ht; discriminate|]. split; [apply Ha; discriminate|].
  split; [apply Hc; reflexivity | exact Hu].
Defined.

(** ** Active members *)

Import Reports.

Lemma add_count_keys m g :
  map fst (add_count m g) = if existsb (N.eqb m) (map fst g) then map fst g
                            else map fst g ++ [m].
Proof.
  induction g as [|[k c] g IH]; cbn; [reflexivity|].
  rewrite (N.eqb_sym m k). destruct (N.eqb k m); cbn; [reflexivity|].
  rewrite IH. destruct (existsb (N.eqb m) (map fst g)); reflexivity.
Qed.

Lemma add_count_NoDup m g : NoDup (map fst g) -> NoDup (map fst (add_count m g)).
Proof.
  intros H. rewrite add_count_keys.
  destruct (existsb (N.eqb m) (map fst g)) eqn:E; [exact H|].
  apply NoDup_app; [exact H | repeat constructor; intros [] |].
  intros x Hx [<-|[]].
  assert (existsb (N.eqb m) (map fst g) = true); [|congruence].
  apply existsb_exists. exists m. split; [exact Hx | apply N.eqb_refl].
Qed.

Lemma add_count_count m g k :
  count_in (add_count m g) k = count_in g k + (if N.eqb k m then 1 else 0).
Proof.
  unfold count_in. induction g as [|[k0 c] g IH]; cbn.
  - rewrite (N.eqb_sym m k). destruct (N.eqb k m); reflexivity.
  - destruct (N.eqb_spec k0 m) as [->|Hne]; cbn.
    + rewrite (N.eqb_sym m k). destruct (N.eqb k m); cbn; lia.
    + destruct (N.eqb_spec k0 k) as [->|Hn2]; cbn.
      * destruct (N.eqb_spec k m); [congruence | lia].
      * exact IH.
Qed.

Lemma add_count_positive m g :
  Forall (fun kc => 1 <= snd kc) g -> Forall (fun kc => 1 <= snd kc) (add_count m g).
Proof.
  induction 1 as [|[k c] g Hk Hg IH]; cbn.
  - repeat constructor. cbn. lia.
  - destruct (N.eqb k m); constructor; cbn in *; auto. lia.
Qed.

Lemma fold_add_count logs :
  forall g,
    NoDup (map fst g) -> Forall (fun kc => 1 <= snd kc) g ->
    let g' := fold_left (fun groups l => add_count (l_memberId l) groups) logs g in
    NoDup (map fst g') /\ Forall (fun kc => 1 <= snd kc) g' /\
    forall k, count_in g' k = count_in g k + loans_of k logs.
Proof.
  induction logs as [|l logs IH]; intros g Hd Hp; cbn.
  - split; [exact Hd|]. split; [exact Hp|]. intros k. unfold loans_of. cbn. lia.
  - destruct (IH (add_count (l_memberId l) g) (add_count_NoDup _ _ Hd)
                (add_count_positive _ _ Hp)) as (H1 & H2 & H3).
    split; [exact H1|]. split; [exact H2|].
    intros k. rewrite H3, add_count_count. unfold loans_of. cbn.
    rewrite (N.eqb_sym (l_memberId l) k).
    destruct (N.eqb k (l_memberId l)); cbn [List.length]; lia.
Qed.

Lemma count_in_In g m c : NoDup (map fst g) -> In (m, c) g -> count_in g m = c.
Proof.
  unfold count_in. induction g as [|[k c0] g IH]; cbn; intros Hd Hin; [contradiction|].
  inversion Hd as [|? ? Hn Hd']; subst.
  destruct Hin as [E|Hin].
  - injection E as -> ->. rewrite N.eqb_refl. reflexivity.
  - destruct (N.eqb_spec k m) as [->|Hne]; [|exact (IH Hd' Hin)].
    exfalso. apply Hn. apply in_map_iff. exists (m, c). split; [reflexivity | exact Hin].
Qed.

Lemma group_by_member_spec logs :
  NoDup (map fst (group_by_member logs)) /\
  forall m c, In (m, c) (group_by_member logs) -> c = loans_of m logs /\ 1 <= c.
Proof.
  destruct (fold_add_count logs [] (NoDup_nil _) (Forall_nil _)) as (Hd & Hp & Hc).
  fold (group_by_member logs) in Hd, Hp, Hc.
  split; [exact Hd|]. intros m c Hin. split.
  - rewrite <- (count_in_In _ m c Hd Hin). rewrite Hc. reflexivity.
  - rewrite Forall_forall in Hp. exact (Hp (m, c) Hin).
Qed.

Lemma StronglySorted_map {A B} (R : B -> B -> Prop) (f : A -> B) l :
  StronglySorted (fun a b => R (f a) (f b)) l -> StronglySorted R (map f l).
Proof.
  induction 1 as [|x l Hs IH Hf]; cbn; constructor; [exact IH|].
  rewrite Forall_map. exact Hf.
Qed.

Lemma NoDup_firstn {A} n (l : list A) : NoDup l -> NoDup (firstn n l).
Proof.
  intros H. rewrite <- (firstn_skipn n l) in H. exact (NoDup_app_remove_r _ _ H).
Qed.

(** X18. The active-members report has at most 10 rows, one per member
    identifier, in non-increasing order of count; the count of a row is the
    number of ledger records of that member, returned loans included, and is
    at least 1; the [member] of a row is the current member document, absent
    when the member has been deleted. *)
Theorem active_members_rows :
  forall srt, group_sort_contract srt ->
  forall db,
    (List.length (active_members srt db) <= 10)%nat /\
    NoDup (map r_memberId (active_members srt db)) /\
    StronglySorted (fun a b => r_borrowCount b <= r_borrowCount a)
      (active_members srt db) /\
    forall r, In r (active_members srt db) ->
      r_borrowCount r = loans_of (r_memberId r) (BorrowLogs db) /\
      1 <= r_borrowCount r /\
      r_member r = findMember (r_memberId r) db.
Proof.
  intros srt Hsrt db. unfold active_members.
  set (groups := group_by_member (BorrowLogs db)).
  destruct (Hsrt groups) as [Hp Hs].
  destruct (group_by_member_spec (BorrowLogs db)) as [Hd Hc]. fold groups in Hd, Hc.
  split; [rewrite length_map; apply firstn_le_length|].
  split; [|split].
  - rewrite map_map. cbn [r_memberId].
    change (fun x : ObjectId * Z => fst x) with (@fst ObjectId Z).
    rewrite <- firstn_map. apply NoDup_firstn.
    apply (Permutation_NoDup (Permutation_map fst Hp)). exact Hd.
  - apply StronglySorted_map. cbn [r_borrowCount].
    rewrite <- (firstn_skipn 10 (srt groups)) in Hs.
    exact (proj1 (StronglySorted_app_r _ _ _ Hs)).
  - intros r Hin. apply in_map_iff in Hin. destruct Hin as [[m c] [<- Hin]].
    cbn.
    assert (Hin' : In (m, c) (srt groups)).
    { rewrite <- (firstn_skipn 10 (srt groups)). apply in_or_app. left. exact Hin. }
    apply (Permutation_in _ (Permutation_sym Hp)) in Hin'.
    destruct (Hc m c Hin') as [H1 H2]. auto.
Qed.

Lemma insert_group_perm x l : Permutation (x :: l) (insert_group x l).
Proof.
  induction l as [|y l IH]; cbn; [reflexivity|].
  destruct (snd x <=? snd y); [|reflexivity].
  rewrite perm_swap. apply perm_skip. exact IH.
Qed.

Lemma insert_group_sorted x l :
  StronglySorted desc_count l -> StronglySorted desc_count (insert_group x l).
Proof.
  induction 1 as [|y l Hl IH Hy]; cbn.
  - constructor; constructor.
  - destruct (Z.leb_spec (snd x) (snd y)) as [Hle|Hgt].
    + constructor; [exact IH|].
      apply (Permutation_Forall (insert_group_perm x l)).
      constructor; [exact Hle | exact Hy].
    + constructor; [constructor; assumption|].
      constructor; [unfold desc_count; lia|].
      eapply Forall_impl; [|exact Hy].
      unfold desc_count. intros a Ha. lia.
Qed.

Lemma sort_groups_contract : group_sort_contract sort_groups.
Proof.
  intros l. unfold sort_groups.
  assert (H : forall acc, StronglySorted desc_count acc ->
            Permutation (acc ++ l) (fold_left (fun a x => insert_group x a) l acc) /\
            StronglySorted desc_count (fold_left (fun a x => insert_group x a) l acc)).
  { induction l as [|x l IH]; intros acc Hacc; cbn.
    - rewrite app_nil_r. split; [reflexivity | exact Hacc].
    - destruct (IH (insert_group x acc) (insert_group_sorted x acc Hacc)) as [Hp Hs].
      split; [|exact Hs].
      rewrite <- Hp, <- (insert_group_perm x acc). symmetry. apply Permutation_middle. }
  exact (H [] (SSorted_nil _)).
Qed.

Lemma active_members_rows_witness :
  let db := run [(700000000, PostReturn 1%N 3%N); (700000001, PostBorrow 2%N 3%N JUndef);
                 (700000002, PostBorrow 1%N 4%N JUndef);
                 (700000003, DeleteMembers (Some 3%N))] library_lent in
  map (fun r => (r_memberId r, r_borrowCount r,
                 match r_member r with Some _ => true | None => false end))
      (active_members sort_groups db)
  = [(3%N, 2, false); (4%N, 1, true)] /\
  (List.length (active_members sort_groups db) <= 10)%nat.
Proof.
  intros db. split; [reflexivity|].
  apply (active_members_rows sort_groups sort_groups_contract db).
Defined.

(** ** Authentication *)

Import Auth.

Lemma find_by_email_none e l :
  find (by_email e) l = None -> ~ In e (map u_email l).
Proof.
  intros Hn Hin. apply in_map_iff in Hin. destruct Hin as [u [He Hu]].
  pose proof (find_none _ _ Hn u Hu) as Hf. unfold by_email in Hf.
  rewrite He in Hf.
  assert (JsVal_eqb e e = true) by (apply JsVal_eqb_eq; reflexivity). congruence.
Qed.

Lemma find_by_key_In {A} (key : A -> ObjectId) l x :
  NoDup (map key l) -> In x l ->
  find (fun y => N.eqb (key y) (key x)) l = Some x.
Proof.
  induction l as [|y l IH]; cbn; intros Hd Hin; [contradiction|].
  inversion Hd as [|? ? Hn Hd']; subst.
  destruct Hin as [->|Hin]; [rewrite N.eqb_refl; reflexivity|].
  destruct (N.eqb_spec (key y) (key x)) as [E|_]; [|exact (IH Hd' Hin)].
  exfalso. apply Hn. rewrite E. apply in_map. exact Hin.
Qed.

Lemma signup_unfold hash now data udb pw :
  truthy (c_email data) = true -> truthy (c_name data) = true ->
  c_password data = JStr pw -> pw <> "" ->
  find (by_email (c_email data)) (Users udb) = None ->
  signup hash now data udb
  = (mkResponse 201 (BMsg true "User created successfully"),
     mkUsersDB (Users udb ++
                [mkUser (next_user_id udb) (c_name data) (c_email data) (hash pw)
                   (js_or (c_role data) (JStr "member")) None now None])
       (N.succ (next_user_id udb))).
Proof.
  intros He Hn Hp Hne Hf. unfold signup, findOne. rewrite He, Hn, Hp, Hf. cbn.
  destruct (String.eqb_spec pw ""); [contradiction | reflexivity].
Qed.

Lemma users_wf_signup hash now data udb :
  users_wf udb -> users_wf (snd (signup hash now data udb)).
Proof.
  intros [He Hi]. unfold signup.
  destruct (negb (truthy (c_email data)) || negb (truthy (c_password data))
            || negb (truthy (c_name data))); [split; assumption|].
  destruct (findOne (by_email (c_email data)) (Users udb)) eqn:Ef;
    [split; assumption|].
  destruct (hashPassword hash (c_password data)); [|split; assumption].
  unfold users_wf. cbn [snd Users next_user_id]. rewrite !map_app. cbn [map u_email user_id].
  split; [|apply ids_ok_snoc; exact Hi].
  apply NoDup_app; [exact He | repeat constructor; intros [] |].
  intros x Hx [<-|[]]. exact (find_by_email_none _ _ Ef Hx).
Qed.

Lemma users_wf_login hash now fresh data udb :
  users_wf udb -> users_wf (snd (login hash now fresh data udb)).
Proof.
  intros [He Hi]. unfold login.
  destruct (negb (truthy (c_email data)) || negb (truthy (c_password data)));
    [split; assumption|].
  destruct (findOne (by_email (c_email data)) (Users udb)); [|split; assumption].
  destruct (hashPassword hash (c_password data)); [|split; assumption].
  destruct (negb (String.eqb (password u) s)); [split; assumption|].
  unfold users_wf. cbn [snd Users next_user_id].
  rewrite !map_updateOne by (intros x; reflexivity). split; assumption.
Qed.

Lemma auth_run_wf hash history :
  forall udb, users_wf udb -> users_wf (auth_run hash history udb).
Proof.
  induction history as [|[now req] rest IH]; intros udb H; cbn; [exact H|].
  apply IH. destruct req; cbn; [apply users_wf_signup | apply users_wf_login]; exact H.
Qed.

(** X19. A signup is refused with 400, and stores nothing, when a field is
    missing or when the email is already registered; consequently, after any
    sequence of signups and logins from the empty collection, no two users
    share an email or an identifier. *)
Theorem signup_unique_emails :
  forall hash,
    (forall now data udb,
       (truthy (c_email data) = false \/ truthy (c_password data) = false \/
        truthy (c_name data) = false ->
        signup hash now data udb = (sendError 400 "Missing required fields", udb)) /\
       (truthy (c_email data) = true -> truthy (c_password data) = true ->
        truthy (c_name data) = true ->
        (exists u, In u (Users udb) /\ u_email u = c_email data) ->
        signup hash now data udb = (sendError 400 "User already exists", udb))) /\
    (forall history,
       NoDup (map u_email (Users (auth_run hash history empty_users))) /\
       NoDup (map user_id (Users (auth_run hash history empty_users)))).
Proof.
  intros hash. split.
  - intros now data udb. unfold signup. split.
    + intros [H|[H|H]]; rewrite H; cbn; rewrite ?orb_true_r; reflexivity.
    + intros -> -> -> [u [Hin Hu]]. cbn.
      destruct (findOne (by_email (c_email data)) (Users udb)) eqn:Ef; [reflexivity|].
      exfalso. apply (find_by_email_none _ _ Ef). rewrite <- Hu. apply in_map. exact Hin.
  - intros history.
    assert (H0 : users_wf empty_users).
    { split; [constructor | split; constructor]. }
    destruct (auth_run_wf hash history empty_users H0) as [He [Hi _]].
    split; assumption.
Qed.

Lemma signup_unique_emails_witness :
  signup (fun s => s) 20 (mkCredentials (JStr "Al") (JStr "a@x.com") (JStr "pw2") JUndef)
    (snd (signup (fun s => s) 10
            (mkCredentials (JStr "Alice") (JStr "a@x.com") (JStr "pw") JUndef) empty_users))
  = (sendError 400 "User already exists",
     snd (signup (fun s => s) 10
            (mkCredentials (JStr "Alice") (JStr "a@x.com") (JStr "pw") JUndef) empty_users)).
Proof.
  apply (proj2 (proj1 (signup_unique_emails (fun s => s)) 20
                  (mkCredentials (JStr "Al") (JStr "a@x.com") (JStr "pw2") JUndef) _));
    try reflexivity.
  eexists. split; [left; reflexivity | reflexivity].
Defined.

(** X20. Signing up with a new email and then logging in with the same
    email and password succeeds: the login is answered with the fresh token
    and the user's name, email, role (default "member") and identifier, and
    the stored user then carries that token, the login time, and the digest
    of the password rather than the password. *)
Theorem signup_then_login :
  forall hash now1 now2 fresh data udb pw,
    users_wf udb ->
    truthy (c_email data) = true -> truthy (c_name data) = true ->
    c_password data = JStr pw -> pw <> "" ->
    find (by_email (c_email data)) (Users udb) = None ->
    let udb1 := snd (signup hash now1 data udb) in
    let r := login hash now2 fresh data udb1 in
    fst (signup hash now1 data udb)
    = mkResponse 201 (BMsg true "User created successfully") /\
    fst r = LoginOk fresh (c_name data) (c_email data)
              (js_or (c_role data) (JStr "member")) (next_user_id udb) /\
    find (by_email (c_email data)) (Users (snd r))
    = Some (mkUser (next_user_id udb) (c_name data) (c_email data) (hash pw)
              (js_or (c_role data) (JStr "member")) (Some fresh) now1 (Some now2)).
Proof.
  intros hash now1 now2 fresh data udb pw Hwf He Hn Hp Hne Hf udb1 r.
  pose proof (signup_unfold hash now1 data udb pw He Hn Hp Hne Hf) as Hs.
  subst r udb1. rewrite Hs. cbn [fst snd]. split; [reflexivity|].
  set (u := mkUser (next_user_id udb) (c_name data) (c_email data) (hash pw)
              (js_or (c_role data) (JStr "member")) None now1 None).
  assert (Hfu : find (by_email (c_email data)) (Users udb ++ [u]) = Some u).
  { rewrite (find_app_new _ _ _ Hf). unfold by_email. cbn [u_email u].
    assert (JsVal_eqb (c_email data) (c_email data) = true) as ->
        by (apply JsVal_eqb_eq; reflexivity).
    reflexivity. }
  assert (Hfi : find (by_user_id (next_user_id udb)) (Users udb) = None).
  { apply (find_by_key_none user_id). apply ids_ok_fresh. apply Hwf. }
  unfold login, findOne. cbn [Users next_user_id]. rewrite He, Hp, Hfu.
  cbn [truthy negb orb hashPassword password u user_id u_name u_email u_role].
  destruct (String.eqb_spec pw ""); [contradiction|]. cbn [negb].
  rewrite String.eqb_refl. cbn [negb fst snd Users].
  split; [reflexivity|].
  rewrite updateOne_app_fresh;
    [| exact Hfi | unfold by_user_id; cbn; apply N.eqb_refl].
  rewrite (find_app_new _ _ _ Hf). unfold by_email. cbn [u_email u].
  assert (JsVal_eqb (c_email data) (c_email data) = true) as ->
      by (apply JsVal_eqb_eq; reflexivity).
  reflexivity.
Qed.

Lemma signup_then_login_witness :
  let data := mkCredentials (JStr "Alice") (JStr "a@x.com") (JStr "secret") JUndef in
  let udb1 := snd (signup (fun s => ("#" ++ s)%string) 10 data empty_users) in
  fst (login (fun s => ("#" ++ s)%string) 20 "7f3a" data udb1)
  = LoginOk "7f3a" (JStr "Alice") (JStr "a@x.com") (JStr "member") 1%N /\
  option_map password
    (find (by_email (JStr "a@x.com"))
       (Users (snd (login (fun s => ("#" ++ s)%string) 20 "7f3a" data udb1))))
  = Some "#secret".
Proof.
  intros data udb1.
  destruct (signup_then_login (fun s => ("#" ++ s)%string) 10 20 "7f3a" data empty_users
              "secret" (conj (NoDup_nil _) (conj (NoDup_nil _) (Forall_nil _)))
              eq_refl eq_refl eq_refl ltac:(discriminate) eq_refl)
    as (_ & Hl & Hu).
  split; [exact Hl|]. exact (f_equal (option_map password) Hu).
Defined.

(** X21. A login that is refused, whatever the reason, leaves the user
    collection exactly as it was, so no token is issued and an existing token
    stays valid; a login is refused with 401 when no user has the email or
    when the digest of the password differs from the stored one. *)
Theorem login_refused_unchanged :
  forall hash now fresh data udb,
    (forall resp, fst (login hash now fresh data udb) = LoginRefused resp ->
       snd (login hash now fresh data udb) = udb) /\
    (truthy (c_email data) = true -> truthy (c_password data) = true ->
     find (by_email (c_email data)) (Users udb) = None ->
     fst (login hash now fresh data udb)
     = LoginRefused (sendError 401 "Invalid email or password")) /\
    (forall user pw,
       truthy (c_email data) = true -> c_password data = JStr pw -> pw <> "" ->
       find (by_email (c_email data)) (Users udb) = Some user ->
       password user <> hash pw ->
       fst (login hash now fresh data udb)
       = LoginRefused (sendError 401 "Invalid email or password")).
Proof.
  intros hash now fresh data udb. unfold login, findOne. split; [|split].
  - intros resp.
    destruct (negb (truthy (c_email data)) || negb (truthy (c_password data)));
      [reflexivity|].
    destruct (find (by_email (c_email data)) (Users udb)); [|reflexivity].
    destruct (hashPassword hash (c_password data)); [|reflexivity].
    destruct (negb (String.eqb (password u) s)); [reflexivity | discriminate].
  - intros -> -> ->. reflexivity.
  - intros user pw He Hp Hne Hf Hd. rewrite He, Hp, Hf. cbn.
    destruct (String.eqb_spec pw ""); [contradiction|]. cbn.
    destruct (String.eqb_spec (password user) (hash pw)); [contradiction | reflexivity].
Qed.

Lemma login_refused_unchanged_witness :
  let udb := snd (signup (fun s => ("#" ++ s)%string) 10
                    (mkCredentials (JStr "Alice") (JStr "a@x.com") (JStr "secret") JUndef)
                    empty_users) in
  login (fun s => ("#" ++ s)%string) 20 "7f3a"
    (mkCredentials JUndef (JStr "a@x.com") (JStr "guess") JUndef) udb
  = (LoginRefused (sendError 401 "Invalid email or password"), udb).
Proof.
  intros udb.
  destruct (login_refused_unchanged (fun s => ("#" ++ s)%string) 20 "7f3a"
              (mkCredentials JUndef (JStr "a@x.com") (JStr "guess") JUndef) udb)
    as (Hsame & _ & Hbad).
  pose proof (Hbad (mkUser 1%N (JStr "Alice") (JStr "a@x.com") "#secret" (JStr "member")
                      None 10 None) "guess"
                eq_refl eq_refl ltac:(discriminate) eq_refl ltac:(discriminate)) as Hr.
  pose proof (Hsame _ Hr) as Hu.
  exact (eq_trans (surjective_pairing _) (f_equal2 pair Hr Hu)).
Defined.

(** X23. A password that is present but is not a string (a number, [true])
    makes the digest step throw: signup and login are then answered 500
    "Internal server error" and store nothing; the login of an unknown email
    is still answered 401, because the digest is not computed for it. *)
Theorem non_string_password :
  forall hash now fresh data udb,
    truthy (c_email data) = true -> truthy (c_name data) = true ->
    truthy (c_password data) = true ->
    (forall s, c_password data <> JStr s) ->
    (find (by_email (c_email data)) (Users udb) = None ->
     signup hash now data udb = (internal_error, udb) /\
     login hash now fresh data udb
     = (LoginRefused (sendError 401 "Invalid email or password"), udb)) /\
    (forall user, find (by_email (c_email data)) (Users udb) = Some user ->
     login hash now fresh data udb = (LoginRefused internal_error, udb)).
Proof.
  intros hash now fresh data udb He Hn Hp Hs.
  assert (Hh : hashPassword hash (c_password data) = None).
  { destruct (c_password data) as [| |b|z|s|n]; try reflexivity.
    exfalso. exact (Hs s eq_refl). }
  unfold signup, login, findOne. rewrite He, Hn, Hp, Hh. cbn. split.
  - intros ->. split; reflexivity.
  - intros user ->. reflexivity.
Qed.

Lemma non_string_password_witness :
  signup (fun s => s) 10 (mkCredentials (JStr "Alice") (JStr "a@x.com") (JNum 1234) JUndef)
    empty_users
  = (internal_error, empty_users).
Proof.
  apply (proj1 (non_string_password (fun s => s) 10 "7f3a"
                  (mkCredentials (JStr "Alice") (JStr "a@x.com") (JNum 1234) JUndef)
                  empty_users eq_refl eq_refl eq_refl ltac:(discriminate)) eq_refl).
Defined.

(** ** Bearer tokens *)

Lemma substring_all s : substring 0 (String.length s) s = s.
Proof. induction s as [|c s IH]; cbn; [reflexivity | rewrite IH; reflexivity]. Qed.

Lemma replace_first_Bearer t : replace_first "Bearer " "" ("Bearer " ++ t) = t.
Proof.
  cbn. unfold string_drop. cbn. rewrite Nat.sub_0_r.
  replace (prefix "" t) with true by (destruct t; reflexivity).
  apply substring_all.
Qed.

Lemma authUserFromReq_Bearer t udb :
  authUserFromReq (Some ("Bearer " ++ t)%string) udb = findOne (by_token t) (Users udb).
Proof.
  unfold authUserFromReq.
  change (String.eqb ("Bearer " ++ t) "") with false. cbv iota.
  rewrite replace_first_Bearer. reflexivity.
Qed.

Lemma In_updateOne_key {A} (key : A -> ObjectId) k (f : A -> A) l y :
  NoDup (map key l) ->
  In y (snd (updateOne (fun x => N.eqb (key x) k) f l)) ->
  (exists x, In x l /\ key x = k /\ y = f x) \/ (In y l /\ key y <> k).
Proof.
  induction l as [|x l IH]; cbn; intros Hd Hin; [contradiction|].
  inversion Hd as [|? ? Hn Hd']; subst.
  destruct (N.eqb_spec (key x) k) as [E|E]; cbn in Hin.
  - destruct Hin as [<-|Hin]; [left; exists x; auto|].
    right. split; [auto|]. intros Hk. apply Hn. rewrite E, <- Hk. apply in_map. exact Hin.
  - destruct (updateOne _ f l) as [n r]. cbn in *.
    destruct Hin as [<-|Hin]; [right; auto|].
    destruct (IH Hd' Hin) as [[x0 [H1 [H2 H3]]]|[H1 H2]].
    + left. exists x0. auto.
    + right. auto.
Qed.

Lemma find_updateOne_new {A} (p q : A -> bool) (f : A -> A) l :
  (forall x, In x l -> p x = false) ->
  (forall x, p (f x) = true) ->
  find p (snd (updateOne q f l)) = option_map f (find q l).
Proof.
  intros Hp Hf. induction l as [|x l IH]; cbn; [reflexivity|].
  destruct (q x) eqn:E; cbn.
  - rewrite Hf. reflexivity.
  - destruct (updateOne q f l) as [n r]. cbn in *.
    rewrite (Hp x (or_introl eq_refl)). apply IH. intros y Hy. apply Hp. right. exact Hy.
Qed.

Lemma login_unfold hash now fresh data udb user pw :
  users_wf udb ->
  truthy (c_email data) = true -> c_password data = JStr pw -> pw <> "" ->
  find (by_email (c_email data)) (Users udb) = Some user ->
  password user = hash pw ->
  login hash now fresh data udb
  = (LoginOk fresh (u_name user) (u_email user) (u_role user) (user_id user),
     mkUsersDB
       (snd (updateOne (by_user_id (user_id user))
               (fun u => mkUser (user_id u) (u_name u) (u_email u) (password u) (u_role u)
                           (Some fresh) (u_createdAt u) (Some now))
               (Users udb)))
       (next_user_id udb)).
Proof.
  intros Hwf He Hp Hne Hf Hd. unfold login, findOne. rewrite He, Hp, Hf. cbn.
  destruct (String.eqb_spec pw ""); [contradiction|]. cbn.
  rewrite Hd, String.eqb_refl. reflexivity.
Qed.

(** X22. A successful login replaces the user's token: the token sent by
    the client's [authHeader] then resolves, through [authUserFromReq], to
    that user, and the token the user held before resolves to nobody (tokens
    being held by one user at a time). *)
Theorem token_lookup_after_login :
  forall hash now fresh data udb user pw,
    users_wf udb ->
    truthy (c_email data) = true -> c_password data = JStr pw -> pw <> "" ->
    find (by_email (c_email data)) (Users udb) = Some user ->
    password user = hash pw ->
    fresh <> "" ->
    (forall u, In u (Users udb) -> token u <> Some fresh) ->
    let udb' := snd (login hash now fresh data udb) in
    authUserFromReq (Client.authHeader (Some fresh)) udb'
    = Some (mkUser (user_id user) (u_name user) (u_email user) (password user)
              (u_role user) (Some fresh) (u_createdAt user) (Some now)) /\
    (forall old,
       token user = Some old -> old <> fresh ->
       (forall u, In u (Users udb) -> user_id u <> user_id user -> token u <> Some old) ->
       authUserFromReq (Some ("Bearer " ++ old)%string) udb' = None).
Proof.
  intros hash now fresh data udb user pw Hwf He Hp Hne Hf Hd Hfresh Hothers udb'.
  subst udb'. rewrite (login_unfold hash now fresh data udb user pw Hwf He Hp Hne Hf Hd).
  cbn [snd]. destruct Hwf as [_ [Hids _]].
  pose proof (find_some _ _ Hf) as [Hin _].
  split.
  - unfold Client.authHeader. destruct (String.eqb_spec fresh ""); [contradiction|].
    rewrite authUserFromReq_Bearer. unfold findOne. cbn [Users].
    rewrite find_updateOne_new.
    + unfold by_user_id. rewrite (find_by_key_In user_id _ user Hids Hin). reflexivity.
    + intros u Hu. unfold by_token. specialize (Hothers u Hu).
      destruct (token u) as [t|]; [|reflexivity].
      destruct (String.eqb_spec t fresh); [congruence | reflexivity].
    + intros u. unfold by_token. cbn. apply String.eqb_refl.
  - intros old Hold Hne' Hrest.
    rewrite authUserFromReq_Bearer. unfold findOne. cbn [Users].
    destruct (find (by_token old) _) as [y|] eqn:Ey; [|reflexivity].
    apply find_some in Ey. destruct Ey as [Hy Ht].
    apply (In_updateOne_key user_id (user_id user)) in Hy; [|exact Hids].
    unfold by_token in Ht. destruct Hy as [[x [_ [_ ->]]]|[Hy Hk]].
    + cbn in Ht. destruct (String.eqb_spec fresh old); [congruence | discriminate].
    + specialize (Hrest y Hy Hk). destruct (token y) as [t|]; [|discriminate].
      destruct (String.eqb_spec t old); [congruence | discriminate].
Qed.

Lemma token_lookup_after_login_witness :
  let h := fun s => ("#" ++ s)%string in
  let data := mkCredentials (JStr "Alice") (JStr "a@x.com") (JStr "secret") JUndef in
  let udb := snd (login h 20 "7f3a" data (snd (signup h 10 data empty_users))) in
  option_map user_id
    (authUserFromReq (Client.authHeader (Some "c0de")) (snd (login h 30 "c0de" data udb)))
  = Some 1%N /\
  authUserFromReq (Some "Bearer 7f3a") (snd (login h 30 "c0de" data udb)) = None.
Proof.
  intros h data udb.
  assert (Hwf : users_wf udb).
  { apply users_wf_login, users_wf_signup.
    split; [constructor | split; constructor]. }
  destruct (token_lookup_after_login h 30 "c0de" data udb
              (mkUser 1%N (JStr "Alice") (JStr "a@x.com") "#secret" (JStr "member")
                 (Some "7f3a") 10 (Some 20)) "secret"
              Hwf eq_refl eq_refl ltac:(discriminate) eq_refl eq_refl ltac:(discriminate))
    as [H1 H2].
  - intros u [<-|[]]. discriminate.
  - split.
    + exact (f_equal (option_map user_id) H1).
    + apply (H2 "7f3a" eq_refl); [discriminate|].
      intros u [<-|[]] Hn. exfalso. apply Hn. reflexivity.
Defined.

(** ** The client's borrow and return flows *)

Lemma chosen_index_spec choice members i :
  Client.chosen_index choice members = Some i ->
  exists k idx,
    parseInt choice = Fin k /\ fadd (Fin k) (Fin (-1)) = Fin idx /\
    0 <= idx < Z.of_nat (List.length members) /\ i = Z.to_nat idx.
Proof.
  unfold Client.chosen_index. destruct (parseInt choice) as [|k|n]; try discriminate.
  destruct (fadd (Fin k) (Fin (-1))) as [|idx|n] eqn:Ef; try discriminate.
  destruct (Z.ltb_spec idx 0); cbn [orb]; [discriminate|].
  destruct (Z.geb_spec idx (Z.of_nat (List.length members))); [discriminate|].
  intros Hi. injection Hi as <-. exists k, idx.
  split; [reflexivity|]. split; [exact Ef|]. split; [lia | reflexivity].
Qed.

Lemma chosen_index_decimal k members :
  1 <= k <= 2 ^ 53 -> k <= Z.of_nat (List.length members) ->
  Client.chosen_index (JStr (ToString (JNum k))) members = Some (Z.to_nat (k - 1)).
Proof.
  intros Hk Hlen. unfold Client.chosen_index.
  change (parseInt (JStr (ToString (JNum k)))) with (parseInt (JNum k)).
  rewrite parseInt_JNum by lia. unfold fadd.
  rewrite to_double_safe by lia.
  replace (k + -1) with (k - 1) by lia.
  destruct (Z.ltb_spec (k - 1) 0); [lia|]. cbn [orb].
  destruct (Z.geb_spec (k - 1) (Z.of_nat (List.length members))); [lia|].
  reflexivity.
Qed.

Lemma findMember_In db m : In m (Members db) -> findMember (member_id m) db <> None.
Proof.
  intros Hin Hn. unfold findMember, findOne in Hn.
  pose proof (find_none _ _ Hn m Hin) as H. unfold by_member_id in H.
  rewrite N.eqb_refl in H. discriminate.
Qed.

(** X24. The borrow flow of the client sends a request only when
    [parseInt] of the text typed at the prompt is a number [k] such that
    [k - 1], computed in floating point, is an index of the list of members;
    the request then names the member at that index, the book clicked and
    the days typed.  For a list of at most [2^53] members the index is
    exactly [k - 1], so [k] lies between 1 and the number of members.  Typing
    the decimal number of a position selects that member.  As the list comes
    from the server, such a request is never answered 404 when the book
    exists. *)
Theorem borrowBook_request :
  forall bookId members choice days,
    (forall req, Client.borrowBook bookId members choice days = Some req ->
       exists k idx m,
         parseInt choice = Fin k /\ fadd (Fin k) (Fin (-1)) = Fin idx /\
         0 <= idx < Z.of_nat (List.length members) /\
         (Z.of_nat (List.length members) <= 2 ^ 53 -> idx = k - 1) /\
         nth_error members (Z.to_nat idx) = Some m /\
         req = PostBorrow bookId (member_id m) days /\
         forall now db book,
           Permutation members (Members db) ->
           findBook bookId db = Some book ->
           code (fst (handle now req db)) <> 404) /\
    (forall k m,
       1 <= k <= 2 ^ 53 -> nth_error members (Z.to_nat (k - 1)) = Some m ->
       Client.borrowBook bookId members (JStr (ToString (JNum k))) days
       = Some (PostBorrow bookId (member_id m) days)).
Proof.
  intros bookId members choice days. split.
  - intros req H. unfold Client.borrowBook in H.
    destruct members as [|m0 ms] eqn:Em; [discriminate|]. rewrite <- Em in *.
    destruct (Client.chosen_index choice members) as [i|] eqn:Ec; [|discriminate].
    destruct (nth_error members i) as [m|] eqn:En; [|discriminate].
    injection H as <-.
    destruct (chosen_index_spec _ _ _ Ec) as (k & idx & Hp & Hf & Hr & ->).
    exists k, idx, m.
    split; [exact Hp|]. split; [exact Hf|]. split; [exact Hr|].
    split.
    { intros Hlen. cbn [fadd] in Hf. symmetry.
      replace (k - 1) with (k + -1) by lia.
      apply (to_double_fin_small _ _ Hf). lia. }
    split; [exact En|]. split; [reflexivity|].
    intros now db book Hperm Hb. cbn [handle]. unfold borrow. rewrite Hb.
    assert (Hin : In m (Members db)).
    { apply (Permutation_in _ Hperm). exact (nth_error_In _ _ En). }
    destruct (findMember (member_id m) db) eqn:Ef;
      [|exfalso; exact (findMember_In db m Hin Ef)].
    destruct (Status_eqb (status book) Borrowed); cbn; discriminate.
  - intros k m Hk Hn. unfold Client.borrowBook.
    assert (Hlt : (Z.to_nat (k - 1) < List.length members)%nat)
      by (apply nth_error_Some; congruence).
    destruct members as [|m0 ms] eqn:Em; [cbn in Hlt; lia|]. rewrite <- Em in *.
    rewrite chosen_index_decimal by lia.
    rewrite Hn. reflexivity.
Qed.

Lemma borrowBook_request_witness :
  Client.borrowBook 2%N (Members library) (JStr (ToString (JNum 2))) (JStr "7")
  = Some (PostBorrow 2%N 4%N (JStr "7")) /\
  Client.borrowBook 2%N (Members library) (JStr "3") (JStr "7") = None.
Proof.
  split; [|reflexivity].
  apply (proj2 (borrowBook_request 2%N (Members library) JNull (JStr "7")) 2
           (mkMember 4%N (JStr "Bob") (JStr "b@x.com") (JStr "student") [] 4000 None));
    [vm_compute; split; discriminate | reflexivity].
Defined.

(** A choice that starts with a no-break space, or that carries text after
    the digits, selects the member all the same. *)
Example borrowBook_unicode_space :
  let nbsp := String (Ascii.ascii_of_nat 194) (String (Ascii.ascii_of_nat 160) EmptyString) in
  Client.borrowBook 2%N (Members library) (JStr (nbsp ++ "2")) (JStr "7")
  = Some (PostBorrow 2%N 4%N (JStr "7")) /\
  Client.borrowBook 2%N (Members library) (JStr "2nd") (JStr "7")
  = Some (PostBorrow 2%N 4%N (JStr "7")).
Proof. split; reflexivity. Qed.

(** X25. The return flow of the client lets the user pick any listed
    member, not only the borrower: for every position of the list (positions
    are integers that a double holds exactly) the flow sends a return naming
    that member, and the server accepts it whenever the book is borrowed. *)
Theorem returnBook_any_member :
  forall bookId members k m now db book,
    1 <= k <= 2 ^ 53 -> nth_error members (Z.to_nat (k - 1)) = Some m ->
    findBook bookId db = Some book -> status book = Borrowed ->
    exists req,
      Client.returnBook bookId members (JStr (ToString (JNum k))) = Some req /\
      req = PostReturn bookId (member_id m) /\
      code (fst (handle now req db)) = 200 /\
      findBook bookId (snd (handle now req db)) = Some (returned_copy book).
Proof.
  intros bookId members k m now db book Hk Hn Hb Hs.
  assert (Hlt : (Z.to_nat (k - 1) < List.length members)%nat)
    by (apply nth_error_Some; congruence).
  exists (PostReturn bookId (member_id m)). split.
  - unfold Client.returnBook.
    rewrite chosen_index_decimal by lia.
    rewrite Hn. reflexivity.
  - split; [reflexivity|]. cbn [handle]. split.
    + rewrite (return_book_response now bookId _ db book Hb Hs). reflexivity.
    + apply return_findBook; assumption.
Qed.

Lemma returnBook_any_member_witness :
  exists req,
    Client.returnBook 1%N (Members library_lent) (JStr (ToString (JNum 2))) = Some req /\
    req = PostReturn 1%N 4%N /\
    code (fst (handle 7000 req library_lent)) = 200 /\
    findBook 1%N (snd (handle 7000 req library_lent))
    = Some (returned_copy
              (mkBook 1%N (JStr "Dune") (JStr "Herbert") (JStr "Unknown") (JNum 1965)
                 (JStr "9780441013593") (JStr "/uploads/default-book.jpg")
                 Borrowed (Some 3%N) (Some 604805000) 1 1000 1000)).
Proof.
  apply (returnBook_any_member 1%N (Members library_lent) 2
           (mkMember 4%N (JStr "Bob") (JStr "b@x.com") (JStr "student") [] 4000 None)
           7000 library_lent);
    [vm_compute; split; discriminate | reflexivity | reflexivity | reflexivity].
Defined.

(** ** Update and circulation *)

(** X16. A catalog update is invisible to circulation: whatever the request
    carries, every book found afterwards was there before with the same
    identifier, status, borrower, due date, [borrowCount] and [createdAt],
    and the members and the ledger are unchanged. *)
Theorem put_books_keeps_circulation :
  forall now id data db,
    Members (snd (put_books now id data db)) = Members db /\
    BorrowLogs (snd (put_books now id data db)) = BorrowLogs db /\
    forall j b',
      findBook j (snd (put_books now id data db)) = Some b' ->
      exists b, findBook j db = Some b /\
        book_id b' = book_id b /\ status b' = status b /\
        borrowedBy b' = borrowedBy b /\ dueDate b' = dueDate b /\
        borrowCount b' = borrowCount b /\ createdAt b' = createdAt b.
Proof.
  intros now id data db. unfold put_books. destruct id as [i|].
  - set (f := dollar_set (remove_undefined (build_update data)) now).
    assert (Hbooks : forall j b',
              find (by_book_id j) (snd (updateOne (by_book_id i) f (Books db))) = Some b' ->
              exists b, findBook j db = Some b /\
                book_id b' = book_id b /\ status b' = status b /\
                borrowedBy b' = borrowedBy b /\ dueDate b' = dueDate b /\
                borrowCount b' = borrowCount b /\ createdAt b' = createdAt b).
    { intros j b' Hf. apply find_updateOne_cases in Hf; [|apply dollar_set_id].
      destruct Hf as [b [Hb [->| ->]]]; exists b; (split; [exact Hb|]).
      - repeat split.
      - unfold f, dollar_set, set_updatedAt. cbn.
        destruct (fold_set_field_loan_fields (remove_undefined (build_update data)) b)
          as (H1 & H2 & H3 & H4 & H5 & H6).
        repeat split; assumption. }
    clearbody f.
    destruct (updateOne (by_book_id i) f (Books db)) as [n bs]. cbn [snd] in Hbooks.
    destruct (Nat.eqb n 0); cbn [snd with_books Members BorrowLogs];
      (split; [reflexivity | split; [reflexivity | exact Hbooks]]).
  - cbn [snd]. split; [reflexivity | split; [reflexivity|]].
    intros j b' Hf. exists b'. repeat split. exact Hf.
Qed.

Lemma put_books_keeps_circulation_witness :
  exists b,
    findBook 1%N library_lent = Some b /\
    book_id (mkBook 1%N (JStr "Emma") (JStr "Austen") (JStr "Unknown") JNull JNull
               (JStr "/uploads/default-book.jpg")
               Borrowed (Some 3%N) (Some 604805000) 1 1000 9000) = book_id b /\
    Borrowed = status b /\ Some 3%N = borrowedBy b /\ Some 604805000 = dueDate b /\
    1 = borrowCount b /\ 1000 = createdAt b.
Proof.
  apply (proj2 (proj2 (put_books_keeps_circulation 9000 (Some 1%N) emma library_lent)) 1%N
           (mkBook 1%N (JStr "Emma") (JStr "Austen") (JStr "Unknown") JNull JNull
              (JStr "/uploads/default-book.jpg")
              Borrowed (Some 3%N) (Some 604805000) 1 1000 9000)).
  reflexivity.
Defined.

(** X26. A book cannot be returned twice: after a successful return, a
    second return of the same book, by any member and at any time, is
    answered 400 "Book is not currently borrowed" and changes nothing, so a
    fine is computed once per loan. *)
Theorem return_twice_refused :
  forall db now1 now2 bId m1 m2 book,
    findBook bId db = Some book ->
    status book = Borrowed ->
    let db1 := snd (return_book now1 bId m1 db) in
    return_book now2 bId m2 db1
    = (sendError 400 "Book is not currently borrowed", db1).
Proof.
  intros db now1 now2 bId m1 m2 book Hb Hs db1.
  pose proof (return_findBook now1 bId m1 db book Hb Hs) as H1. fold db1 in H1.
  unfold return_book. rewrite H1. reflexivity.
Qed.

Lemma return_twice_refused_witness :
  return_book 8000 1%N 3%N (snd (return_book 7000 1%N 3%N library_lent))
  = (sendError 400 "Book is not currently borrowed",
     snd (return_book 7000 1%N 3%N library_lent)).
Proof.
  apply (return_twice_refused library_lent 7000 8000 1%N 3%N 3%N
           (mkBook 1%N (JStr "Dune") (JStr "Herbert") (JStr "Unknown") (JNum 1965)
              (JStr "9780441013593") (JStr "/uploads/default-book.jpg")
              Borrowed (Some 3%N) (Some 604805000) 1 1000 1000)); reflexivity.
Defined.
